(** * xundo: a shallow embedding of [xundo_system.h]

    The development follows the header from the leaves up: the byte-level
    file primitives used by the I/O jobs, [history_entry], [undo_file], the
    jobs, the command interface and finally [xundo::system] with its public
    operations.  Every definition carries the name of the C++ entity it
    embeds.

    Conventions.
    - Fixed-width integers are [Z] with the wrap-around written out;
      container sizes and the undo cursor are [nat].
    - [std::shared_ptr<history_entry>] is a reference ([ref]) into a heap of
      entries that only grows, so the history, the LRU list and the queued
      jobs alias the same mutable entry exactly as in the C++.
    - Calls that the C++ guards with [assert], that index a vector, or that
      dereference the pointer obtained from [m_Commands[...]] return an
      [outcome], which records the failure instead of a state.
    - The I/O workers are modelled at job granularity: a job is executed in
      one step, under the entry's mutex as in the C++.  A worker pops a job
      under [m_Mutex] ([pop_job]) and executes it after it has released the
      mutex ([finish_job]); in between the job is in [Held], and the owner
      thread and the other workers go on.  [IOWorker] is a turn of the loop
      in which nothing happens between the two.  What the workers do while
      the owner waits for them is an argument of the waiting call (a list
      of [worker_step]), so that a property of such a call is a property
      of every schedule.
    - The locals that are read from a file into uninitialised storage are
      modelled with the class [uninitialised]. *)

From Stdlib Require Import ZArith Lia.
From Stdlib.Strings Require Import Ascii String Byte.
From stdpp Require Import base option list gmap strings pretty.

Local Open Scope Z_scope.

(** ** Bytes and little-endian scalars *)

Module Bytes.

Definition byte_to_Z (b : byte) : Z := Z.of_N (Byte.to_N b).

Definition byte_of_Z (z : Z) : byte :=
  match Byte.of_N (Z.to_N (z mod 256)) with
  | Some b => b
  | None => x00
  end.

(** [le_bytes n v]: the [n] low-order bytes of [v], least significant first
    (what [fwrite(&v, n, 1, File)] emits on a little-endian machine). *)
Fixpoint le_bytes (n : nat) (v : Z) : list byte :=
  match n with
  | O => []
  | S k => byte_of_Z v :: le_bytes k (v / 256)
  end.

(** [le_value bs]: the unsigned value stored in [bs]. *)
Fixpoint le_value (bs : list byte) : Z :=
  match bs with
  | [] => 0
  | b :: rest => byte_to_Z b + 256 * le_value rest
  end.

(** Reinterpreting an unsigned 32-bit pattern as a C++ [int]. *)
Definition to_int32 (v : Z) : Z :=
  if v <? 2 ^ 31 then v else v - 2 ^ 32.

Definition u32 (v : Z) : Z := v mod 2 ^ 32.
Definition u64 (v : Z) : Z := v mod 2 ^ 64.

End Bytes.

(** ** [history_entry] *)

(** [struct history_entry].  The mutex has no content at job granularity and
    is not represented. *)
Record history_entry := HistoryEntry {
  m_UserID : Z;                    (* int *)
  m_TimeStamp : Z;                 (* std::uint64_t *)
  m_CommandString : string;
  m_CacheUndoData : list byte;     (* std::vector<std::byte> *)
  m_bHasBeenSaved : bool
}.

(** [std::make_shared<history_entry>()]: value-initialised members. *)
Definition new_history_entry : history_entry :=
  HistoryEntry 0 0 "" [] false.

Definition set_UserID (v : Z) (e : history_entry) : history_entry :=
  HistoryEntry v (m_TimeStamp e) (m_CommandString e) (m_CacheUndoData e) (m_bHasBeenSaved e).
Definition set_TimeStamp (v : Z) (e : history_entry) : history_entry :=
  HistoryEntry (m_UserID e) v (m_CommandString e) (m_CacheUndoData e) (m_bHasBeenSaved e).
Definition set_CommandString (v : string) (e : history_entry) : history_entry :=
  HistoryEntry (m_UserID e) (m_TimeStamp e) v (m_CacheUndoData e) (m_bHasBeenSaved e).
Definition set_CacheUndoData (v : list byte) (e : history_entry) : history_entry :=
  HistoryEntry (m_UserID e) (m_TimeStamp e) (m_CommandString e) v (m_bHasBeenSaved e).
Definition set_bHasBeenSaved (v : bool) (e : history_entry) : history_entry :=
  HistoryEntry (m_UserID e) (m_TimeStamp e) (m_CommandString e) (m_CacheUndoData e) v.

(** [Entry.m_CacheUndoData.empty()] *)
Definition cache_empty (e : history_entry) : bool :=
  bool_decide (m_CacheUndoData e = []).

(** ** The directory of per-entry files

    All files [<path>/UndoStep-<timestamp>] of one engine live in one
    directory; the directory is a finite map from the timestamp in the file
    name to the file's bytes.  Opening a file for writing is taken to
    succeed (the directory exists); opening for reading fails exactly when
    the file is absent. *)
Abbreviation disk := (gmap Z (list byte)).

Module Stdio.

(** [fwrite(p, size, 1, File) == 1] appended to the stream [f]: the item is
    counted only when [size] is not zero. *)
Definition fwrite (item : list byte) (f : list byte) : bool * list byte :=
  (bool_decide (item ≠ []), f ++ item).

(** [fread(p, size, 1, File) == 1] on the unread part [f] of a stream:
    whether the item was read, the bytes delivered, and what is left.  A
    zero-sized item is never counted; a short item delivers what remains. *)
Definition fread (size : nat) (f : list byte) : bool * list byte * list byte :=
  if bool_decide (size = 0%nat) then (false, [], f)
  else if bool_decide (size ≤ length f)%nat then (true, take size f, drop size f)
  else (false, f, []).

(** The buffer [old], resized to [n] value-initialised bytes, after the
    bytes [got] were copied over its front. *)
Definition filled (n : nat) (got old : list byte) : list byte :=
  got ++ drop (length got) (resize n x00 old).

(** The value of a scalar of [n] bytes whose bytes were [old] once [fread]
    has stored the bytes [got] into it: a short read overwrites the front
    of the object only. *)
Definition stored (n : nat) (got old : list byte) : Z :=
  Bytes.le_value (filled n got old).

End Stdio.

(** The locals the source declares without an initialiser and hands to
    [fread] ([DataLen] and [StrLen] in [Load], [Count] and [TimeStamp] in
    [LoadTimestamps]) hold whatever bytes the stack has there; [junk]
    gives these bytes by the name of the local, and everything below holds
    for any [junk]. *)
Class uninitialised := junk : string → list byte.

Module Job.
Import Bytes Stdio.

(** [job::save_to_disk::Save]: the bytes written and the accumulated [Ok]. *)
Definition Save_file (Entry : history_entry) : bool * list byte :=
  let ok := true in
  let DataLen := u32 (Z.of_nat (length (m_CacheUndoData Entry))) in
  let '(w, File) := fwrite (le_bytes 4 DataLen) [] in
  let ok := ok && w in
  let '(w, File) := fwrite (take (Z.to_nat DataLen) (m_CacheUndoData Entry)) File in
  let ok := ok && w in
  let '(w, File) := fwrite (le_bytes 4 (u32 (m_UserID Entry))) File in
  let ok := ok && w in
  let '(w, File) := fwrite (le_bytes 8 (m_TimeStamp Entry)) File in
  let ok := ok && w in
  let Str := String.list_byte_of_string (m_CommandString Entry) in
  let StrLen := u32 (Z.of_nat (length Str)) in
  let '(w, File) := fwrite (le_bytes 4 StrLen) File in
  let ok := ok && w in
  let '(w, File) := fwrite (take (Z.to_nat StrLen) Str) File in
  let ok := ok && w in
  (ok, File).

Definition Save (Entry : history_entry) (d : disk) : bool * disk :=
  let '(ok, File) := Save_file Entry in
  (ok, <[m_TimeStamp Entry := File]> d).

(** [job::warmup_cache::Load].  Every [fread] stores what it got over the
    front of its target, also when the item is short: the members
    [m_UserID] and [m_TimeStamp] over their previous bytes, the locals
    [DataLen] and [StrLen] over [junk]. *)
Definition Load `{uninitialised} (Entry : history_entry) (d : disk)
    (bLoadKeyData bLoadCacheData : bool) : bool * history_entry :=
  match d !! m_TimeStamp Entry with
  | None => (false, Entry)
  | Some File =>
    let ok := true in
    let '(r, b, File) := fread 4 File in
    let ok := ok && r in
    let DataLen := Z.to_nat (stored 4 b (junk "DataLen")) in
    let '(ok, Entry, File) :=
      if bLoadCacheData then
        let '(r, b, File) := fread DataLen File in
        (ok && r,
         set_CacheUndoData (filled DataLen b (m_CacheUndoData Entry)) Entry,
         File)
      else (ok, Entry, drop DataLen File) in
    if bLoadKeyData then
      let '(r, b, File) := fread 4 File in
      let ok := ok && r in
      let Entry :=
        set_UserID (to_int32 (stored 4 b (le_bytes 4 (u32 (m_UserID Entry))))) Entry in
      let '(r, b, File) := fread 8 File in
      let ok := ok && r in
      let Entry :=
        set_TimeStamp (stored 8 b (le_bytes 8 (m_TimeStamp Entry))) Entry in
      let '(r, b, File) := fread 4 File in
      let ok := ok && r in
      let StrLen := Z.to_nat (stored 4 b (junk "StrLen")) in
      let '(r, b, File) := fread StrLen File in
      let ok := ok && r in
      let Entry :=
        set_CommandString
          (String.string_of_list_byte
             (filled StrLen b (String.list_byte_of_string (m_CommandString Entry))))
          Entry in
      (ok, Entry)
    else (ok, Entry)
  end.

End Job.

(** ** Outcomes of calls that can fail hard *)

Inductive outcome (A : Type) : Type :=
  | Returns (a : A)    (* the call returns *)
  | AssertFails        (* an [assert] of the source does not hold *)
  | NullCommand        (* [*m_Commands[name]] for a name that is not registered *)
  | OutOfRange.        (* a vector or the entry heap indexed outside its size *)
Arguments Returns {A} a.
Arguments AssertFails {A}.
Arguments NullCommand {A}.
Arguments OutOfRange {A}.

Global Instance outcome_ret : MRet outcome := @Returns.
Global Instance outcome_bind : MBind outcome := λ A B f m,
  match m with
  | Returns a => f a
  | AssertFails => AssertFails
  | NullCommand => NullCommand
  | OutOfRange => OutOfRange
  end.

Definition in_range {A} (o : option A) : outcome A :=
  match o with Some a => Returns a | None => OutOfRange end.

Definition registered {A} (o : option A) : outcome A :=
  match o with Some a => Returns a | None => NullCommand end.

Definition assert (b : bool) : outcome unit :=
  if b then Returns () else AssertFails.

(** The result of code whose only hard failure is an [assert]. *)
Definition asserted {A} (o : option A) : outcome A :=
  match o with Some a => Returns a | None => AssertFails end.

(** Whether a call returned, and what it returned. *)
Definition returns {A} (o : outcome A) : bool :=
  match o with Returns _ => true | _ => false end.

Definition value_or {A} (d : A) (o : outcome A) : A :=
  match o with Returns a => a | _ => d end.

(** ** [undo_file] *)

(** [struct undo_file].  The reference [m_Entry] is only ever used to reach
    [m_Entry.m_CacheUndoData]; the cursor carries that buffer. *)
Record undo_file := UndoFile {
  m_Cache : list byte;
  m_Index : Z                      (* std::uint32_t *)
}.

Module File.
Import Bytes.

(** [undo_file::Write(pData, Size)] *)
Definition Write (pData : list byte) (File : undo_file) : undo_file :=
  let i := Z.to_nat (m_Index File) in
  UndoFile (take i (m_Cache File) ++ pData ++ drop i (m_Cache File))
           (u32 (m_Index File + Z.of_nat (length pData))).

(** [undo_file::Read(pData, Size)]; [None] when its [assert] fails. *)
Definition Read (Size : nat) (File : undo_file) : option (list byte * undo_file) :=
  if bool_decide (m_Index File + Z.of_nat Size <= Z.of_nat (length (m_Cache File)))
  then Some (take Size (drop (Z.to_nat (m_Index File)) (m_Cache File)),
             UndoFile (m_Cache File) (u32 (m_Index File + Z.of_nat Size)))
  else None.

End File.

(** ** [command_base]

    [xcmdline::parser] is an external dependency: its state is the type
    parameter [parser], and each command supplies what [m_Parser] does for
    it.  [D] is the caller's data the commands act on ([m_pDataBase]).
    [Redo] and [BackupCurrenState] read the arguments [Parse] has just
    left in [m_Parser]; [Undo] is given the undo data and the caller's data
    only, which is all the commands of the repository read there. *)
Module Cmd.
Record command_base (parser D : Type) := CommandBase {
  m_pCommandName : string;
  (* [Parse]: [m_Parser.clearArgs()] then [m_Parser.Parse(cmd_str)] *)
  Parse : string → string * parser;
  (* [m_Parser.hasOption(m_hHelp)] *)
  hasHelp : parser → bool;
  Redo : parser → D → string * D;
  (* [None]: an [assert] of [undo_file::Read] fails *)
  Undo : undo_file → D → option D;
  BackupCurrenState : parser → D → undo_file → undo_file
}.
Arguments m_pCommandName {parser D} _.
Arguments Parse {parser D} _ _.
Arguments hasHelp {parser D} _ _.
Arguments Redo {parser D} _ _ _.
Arguments Undo {parser D} _ _ _.
Arguments BackupCurrenState {parser D} _ _ _ _.
End Cmd.
Abbreviation command_base := Cmd.command_base.

(** [xundo::getCommandName] *)
Fixpoint getCommandName (str : string) : string :=
  match str with
  | EmptyString => EmptyString
  | String c rest =>
      if Ascii.eqb c " "%char then EmptyString else String c (getCommandName rest)
  end.

(** ** Jobs *)

(** [std::shared_ptr<history_entry>] *)
Abbreviation ref := nat.

Inductive job :=
  | save_to_disk (m_Entry : ref)
  | delete_entries (m_TimeStamps : list Z)
  | warmup_cache (m_Entry : ref)
  | load_entries (m_Entry : ref).

Module JobExec.
Import Job.

(** [job::save_to_disk::Execute] on the entry itself *)
Definition save_entry (e : history_entry) (d : disk) : history_entry * disk :=
  if m_bHasBeenSaved e then (e, d)
  else let '(ok, d') := Save e d in
       (if ok then set_bHasBeenSaved true e else e, d').

(** [job::warmup_cache::Execute] on the entry itself *)
Definition warmup_entry `{uninitialised} (e : history_entry) (d : disk)
    : history_entry :=
  if cache_empty e then (Load e d false true).2 else e.

(** [job::load_entries::Execute] on the entry itself *)
Definition load_entry `{uninitialised} (e : history_entry) (d : disk)
    : history_entry :=
  (Load e d true false).2.

(** [job::delete_entries::Execute] *)
Definition delete_files (TimeStamps : list Z) (d : disk) : disk :=
  foldl (λ d ts, delete ts d) d TimeStamps.

(** [job::base::Execute], dispatched on the job kind, acting on the heap of
    entries and on the directory. *)
Definition Execute `{uninitialised} (j : job) (heap : list history_entry)
    (d : disk) : list history_entry * disk :=
  match j with
  | save_to_disk r =>
      match heap !! r with
      | Some e => let '(e', d') := save_entry e d in (<[r := e']> heap, d')
      | None => (heap, d)
      end
  | delete_entries ts => (heap, delete_files ts d)
  | warmup_cache r => (alter (λ e, warmup_entry e d) r heap, d)
  | load_entries r => (alter (λ e, load_entry e d) r heap, d)
  end.

End JobExec.

(** ** [xundo::system] *)

(** The text [strerror_s] gives for a file that does not exist. *)
Definition strerror_ENOENT : string := "No such file or directory".

Section Engine.
Context {parser D : Type} {stack : uninitialised}.

(** [class system]: the data members, followed by the objects its pointers
    and paths refer to: the heap of shared entries, the directory of entry
    files, the timestamp index files (by path) and the caller's data; then
    the jobs the worker threads hold (each the local [Job] of a thread in
    [IOWorker], popped from the queue and not executed yet), and the paths
    [fopen_s] cannot open for writing, each with the text [strerror_s]
    gives for the error. *)
Record system := System {
  m_UndoIndex : nat;                               (* int *)
  m_History : list ref;
  m_LRU : list ref;
  m_Commands : gmap string (command_base parser D);
  m_UndoPath : string;
  m_DefaultUser : Z;
  m_MaxCachedSteps : nat;                          (* size_t *)
  m_LookAheadSteps : nat;                          (* size_t *)
  m_IOQueue : list job;
  m_Done : bool;
  m_bAutoLoadSave : bool;
  m_CommandCounter : Z;                            (* std::uint64_t *)
  Heap : list history_entry;
  Files : disk;
  IndexFiles : gmap string (list byte);
  DataBase : D;
  Held : list job;
  WriteErrors : gmap string string
}.

Definition set_UndoIndex (v : nat) (s : system) : system :=
  System v (m_History s) (m_LRU s) (m_Commands s) (m_UndoPath s) (m_DefaultUser s)
    (m_MaxCachedSteps s) (m_LookAheadSteps s) (m_IOQueue s) (m_Done s)
    (m_bAutoLoadSave s) (m_CommandCounter s) (Heap s) (Files s) (IndexFiles s) (DataBase s)
    (Held s) (WriteErrors s).
Definition set_History (v : list ref) (s : system) : system :=
  System (m_UndoIndex s) v (m_LRU s) (m_Commands s) (m_UndoPath s) (m_DefaultUser s)
    (m_MaxCachedSteps s) (m_LookAheadSteps s) (m_IOQueue s) (m_Done s)
    (m_bAutoLoadSave s) (m_CommandCounter s) (Heap s) (Files s) (IndexFiles s) (DataBase s)
    (Held s) (WriteErrors s).
Definition set_LRU (v : list ref) (s : system) : system :=
  System (m_UndoIndex s) (m_History s) v (m_Commands s) (m_UndoPath s) (m_DefaultUser s)
    (m_MaxCachedSteps s) (m_LookAheadSteps s) (m_IOQueue s) (m_Done s)
    (m_bAutoLoadSave s) (m_CommandCounter s) (Heap s) (Files s) (IndexFiles s) (DataBase s)
    (Held s) (WriteErrors s).
Definition set_Commands (v : gmap string (command_base parser D)) (s : system) : system :=
  System (m_UndoIndex s) (m_History s) (m_LRU s) v (m_UndoPath s) (m_DefaultUser s)
    (m_MaxCachedSteps s) (m_LookAheadSteps s) (m_IOQueue s) (m_Done s)
    (m_bAutoLoadSave s) (m_CommandCounter s) (Heap s) (Files s) (IndexFiles s) (DataBase s)
    (Held s) (WriteErrors s).
Definition set_UndoPath (v : string) (s : system) : system :=
  System (m_UndoIndex s) (m_History s) (m_LRU s) (m_Commands s) v (m_DefaultUser s)
    (m_MaxCachedSteps s) (m_LookAheadSteps s) (m_IOQueue s) (m_Done s)
    (m_bAutoLoadSave s) (m_CommandCounter s) (Heap s) (Files s) (IndexFiles s) (DataBase s)
    (Held s) (WriteErrors s).
Definition set_IOQueue (v : list job) (s : system) : system :=
  System (m_UndoIndex s) (m_History s) (m_LRU s) (m_Commands s) (m_UndoPath s) (m_DefaultUser s)
    (m_MaxCachedSteps s) (m_LookAheadSteps s) v (m_Done s)
    (m_bAutoLoadSave s) (m_CommandCounter s) (Heap s) (Files s) (IndexFiles s) (DataBase s)
    (Held s) (WriteErrors s).
Definition set_Done (v : bool) (s : system) : system :=
  System (m_UndoIndex s) (m_History s) (m_LRU s) (m_Commands s) (m_UndoPath s) (m_DefaultUser s)
    (m_MaxCachedSteps s) (m_LookAheadSteps s) (m_IOQueue s) v
    (m_bAutoLoadSave s) (m_CommandCounter s) (Heap s) (Files s) (IndexFiles s) (DataBase s)
    (Held s) (WriteErrors s).
Definition set_bAutoLoadSave (v : bool) (s : system) : system :=
  System (m_UndoIndex s) (m_History s) (m_LRU s) (m_Commands s) (m_UndoPath s) (m_DefaultUser s)
    (m_MaxCachedSteps s) (m_LookAheadSteps s) (m_IOQueue s) (m_Done s)
    v (m_CommandCounter s) (Heap s) (Files s) (IndexFiles s) (DataBase s)
    (Held s) (WriteErrors s).
Definition set_CommandCounter (v : Z) (s : system) : system :=
  System (m_UndoIndex s) (m_History s) (m_LRU s) (m_Commands s) (m_UndoPath s) (m_DefaultUser s)
    (m_MaxCachedSteps s) (m_LookAheadSteps s) (m_IOQueue s) (m_Done s)
    (m_bAutoLoadSave s) v (Heap s) (Files s) (IndexFiles s) (DataBase s)
    (Held s) (WriteErrors s).
Definition set_Heap (v : list history_entry) (s : system) : system :=
  System (m_UndoIndex s) (m_History s) (m_LRU s) (m_Commands s) (m_UndoPath s) (m_DefaultUser s)
    (m_MaxCachedSteps s) (m_LookAheadSteps s) (m_IOQueue s) (m_Done s)
    (m_bAutoLoadSave s) (m_CommandCounter s) v (Files s) (IndexFiles s) (DataBase s)
    (Held s) (WriteErrors s).
Definition set_Files (v : disk) (s : system) : system :=
  System (m_UndoIndex s) (m_History s) (m_LRU s) (m_Commands s) (m_UndoPath s) (m_DefaultUser s)
    (m_MaxCachedSteps s) (m_LookAheadSteps s) (m_IOQueue s) (m_Done s)
    (m_bAutoLoadSave s) (m_CommandCounter s) (Heap s) v (IndexFiles s) (DataBase s)
    (Held s) (WriteErrors s).
Definition set_IndexFiles (v : gmap string (list byte)) (s : system) : system :=
  System (m_UndoIndex s) (m_History s) (m_LRU s) (m_Commands s) (m_UndoPath s) (m_DefaultUser s)
    (m_MaxCachedSteps s) (m_LookAheadSteps s) (m_IOQueue s) (m_Done s)
    (m_bAutoLoadSave s) (m_CommandCounter s) (Heap s) (Files s) v (DataBase s)
    (Held s) (WriteErrors s).
Definition set_DataBase (v : D) (s : system) : system :=
  System (m_UndoIndex s) (m_History s) (m_LRU s) (m_Commands s) (m_UndoPath s) (m_DefaultUser s)
    (m_MaxCachedSteps s) (m_LookAheadSteps s) (m_IOQueue s) (m_Done s)
    (m_bAutoLoadSave s) (m_CommandCounter s) (Heap s) (Files s) (IndexFiles s) v
    (Held s) (WriteErrors s).

Definition set_Held (v : list job) (s : system) : system :=
  System (m_UndoIndex s) (m_History s) (m_LRU s) (m_Commands s) (m_UndoPath s) (m_DefaultUser s)
    (m_MaxCachedSteps s) (m_LookAheadSteps s) (m_IOQueue s) (m_Done s)
    (m_bAutoLoadSave s) (m_CommandCounter s) (Heap s) (Files s) (IndexFiles s) (DataBase s)
    v (WriteErrors s).
Definition set_WriteErrors (v : gmap string string) (s : system) : system :=
  System (m_UndoIndex s) (m_History s) (m_LRU s) (m_Commands s) (m_UndoPath s) (m_DefaultUser s)
    (m_MaxCachedSteps s) (m_LookAheadSteps s) (m_IOQueue s) (m_Done s)
    (m_bAutoLoadSave s) (m_CommandCounter s) (Heap s) (Files s) (IndexFiles s) (DataBase s)
    (Held s) v.

(** [system() = default]: the default member initialisers, over a given
    environment in which no thread runs and every path can be opened for
    writing. *)
Definition system_default (files : disk) (index : gmap string (list byte))
    (db : D) : system :=
  System 0 [] [] ∅ "" 1 50 5 [] true false 0 [] files index db [] ∅.

(** [m_UndoPath.empty()] *)
Definition path_empty (s : system) : bool := bool_decide (m_UndoPath s = "").

(** [m_History[i]], then [*] of the shared pointer found there *)
Definition history_at (i : nat) (s : system) : outcome (ref * history_entry) :=
  r ← in_range (m_History s !! i);
  e ← in_range (Heap s !! r);
  Returns (r, e).

(** [std::make_shared]: the new entry takes the next free reference. *)
Definition alloc (e : history_entry) (s : system) : ref * system :=
  (length (Heap s), set_Heap (Heap s ++ [e]) s).

(** [system::RegisterCommand] (the help option it adds to the command's
    parser is part of that command's [Parse] and [hasHelp]). *)
Definition RegisterCommand (Cmd : command_base parser D) (Name : string)
    (s : system) : system :=
  set_Commands (<[Name := Cmd]> (m_Commands s)) s.

(** [command_base::command_base] *)
Definition construct_command (Cmd : command_base parser D) (s : system) : system :=
  RegisterCommand Cmd (Cmd.m_pCommandName Cmd) s.

(** [system::PushJob] *)
Definition PushJob (Job : job) (s : system) : system :=
  set_IOQueue (m_IOQueue s ++ [Job]) s.

(** One turn of the loop of [system::IOWorker]: take the job at the front
    of the queue and execute it. *)
Definition IOWorker (s : system) : system :=
  match m_IOQueue s with
  | [] => s
  | Job :: rest =>
      let '(heap, files) := JobExec.Execute Job (Heap s) (Files s) in
      set_Files files (set_Heap heap (set_IOQueue rest s))
  end.

(** The workers emptying a queue of [n] jobs, one job after the other. *)
Fixpoint drain (n : nat) (s : system) : system :=
  match n with
  | O => s
  | S k => drain k (IOWorker s)
  end.

(** A job executed on the calling thread ([Job.Execute()] in [Undo]), or by
    the worker that holds it. *)
Definition run_now (Job : job) (s : system) : system :=
  let '(heap, files) := JobExec.Execute Job (Heap s) (Files s) in
  set_Files files (set_Heap heap s).

(** The critical section of the worker's loop, the popped job going to
    [Held]. *)
Definition pop_job (s : system) : system :=
  match m_IOQueue s with
  | [] => s
  | Job :: rest => set_Held (Held s ++ [Job]) (set_IOQueue rest s)
  end.

(** [Job->Execute()] at the end of the loop, by the worker that holds the
    job at position [k] of [Held]. *)
Definition finish_job (k : nat) (s : system) : system :=
  match Held s !! k with
  | None => s
  | Some Job => run_now Job (set_Held (delete k (Held s)) s)
  end.

(** What a worker thread does next: it pops a job, or it executes the job
    it holds.  The jobs of different workers are executed in any order. *)
Inductive worker_step :=
  | pops
  | finishes (k : nat).

Definition work (w : worker_step) (s : system) : system :=
  match w with
  | pops => pop_job s
  | finishes k => finish_job k s
  end.

Fixpoint works (ws : list worker_step) (s : system) : system :=
  match ws with
  | [] => s
  | w :: rest => works rest (work w s)
  end.


(** [system::SynJobQueue]: returns once [m_IOQueue] is empty.  While the
    caller waits the workers do [ws]; a run of the source is a [ws] after
    which the queue is empty.  So that the call is defined for every [ws],
    the jobs that are still queued after [ws] are taken one after the
    other, each executed before the next is popped.  The call does not wait
    for a job that a worker has popped and not executed: such a job is
    still in [Held] when the call returns. *)
Definition SynJobQueue (ws : list worker_step) (s : system) : system :=
  if path_empty s then s
  else
    let s := works ws s in
    drain (length (m_IOQueue s)) s.

(** [system::PruneHistory].  Without a path the files it removes are
    [/UndoStep-<timestamp>], outside the engine's directory. *)
Definition PruneHistory (s : system) : outcome system :=
  if bool_decide (length (m_History s) ≤ m_UndoIndex s)%nat then Returns s
  else
    TimeStamps ← mapM (λ r, e ← in_range (Heap s !! r); Returns (m_TimeStamp e))
                      (drop (m_UndoIndex s) (m_History s));
    let s := if path_empty s then s else PushJob (delete_entries TimeStamps) s in
    Returns (set_History (take (m_UndoIndex s) (m_History s)) s).

(** The eviction loop of [system::UpdateLRU]: while the list is longer than
    [SizeEstimation], clear the front entry's cache if it has been saved and
    pop it. *)
Fixpoint evict (SizeEstimation : nat) (lru : list ref) (heap : list history_entry)
    : list ref * list history_entry :=
  match lru with
  | [] => ([], heap)
  | Oldest :: rest =>
      if bool_decide (SizeEstimation < length lru)%nat then
        evict SizeEstimation rest
          (alter (λ e, if m_bHasBeenSaved e then set_CacheUndoData [] e else e)
                 Oldest heap)
      else (lru, heap)
  end.

(** The body of one [if] of the look-ahead loop, for the entry at position
    [pos] of the history. *)
Definition warm (pos : nat) (s : system) : outcome system :=
  '(r, e) ← history_at pos s;
  if cache_empty e then
    let s := PushJob (warmup_cache r) s in
    Returns (set_LRU (m_LRU s ++ [r]) s)
  else Returns s.

(** One iteration of the look-ahead loop of [system::UpdateLRU]. *)
Definition look_ahead_step (i : nat) (s : system) : outcome system :=
  s ← (if bool_decide (i ≤ m_UndoIndex s)%nat
       then warm (m_UndoIndex s - i) s else Returns s);
  if bool_decide (m_UndoIndex s + i < length (m_History s))%nat
  then warm (m_UndoIndex s + i) s else Returns s.

(** The look-ahead loop, over the remaining values of [i]; its condition
    also requires [m_LRU.size() < m_MaxCachedSteps]. *)
Fixpoint look_ahead (steps : list nat) (s : system) : outcome system :=
  match steps with
  | [] => Returns s
  | i :: rest =>
      if bool_decide (length (m_LRU s) < m_MaxCachedSteps s)%nat then
        s ← look_ahead_step i s;
        look_ahead rest s
      else Returns s
  end.

(** The state after the eviction loop. *)
Definition after_eviction (s : system) : system :=
  let SizeEstimation := (m_MaxCachedSteps s - m_LookAheadSteps s * 2 - 1)%nat in
  let '(lru, heap) := evict SizeEstimation (m_LRU s) (Heap s) in
  set_Heap heap (set_LRU lru s).

(** [system::UpdateLRU] *)
Definition UpdateLRU (s : system) : outcome system :=
  if bool_decide (m_History s = []) then Returns s
  else
    _ ← assert (bool_decide (m_LookAheadSteps s * 2 + 1 < m_MaxCachedSteps s)%nat);
    look_ahead (seq 1 (m_LookAheadSteps s)) (after_eviction s).

(** The entry [Execute] builds before it calls [Redo]: user, timestamp and
    command string, then the command's backup written through a fresh
    [undo_file].  [now_ms] is the reading of [std::chrono::system_clock] in
    milliseconds. *)
Definition make_entry (Cmd : command_base parser D) (p : parser)
    (cmd_str : string) (UserID : Z) (now_ms : Z) (s : system) : history_entry :=
  let UserID := if bool_decide (UserID = -1) then m_DefaultUser s else UserID in
  let Entry :=
    set_CommandString cmd_str
      (set_TimeStamp (Bytes.u64 (now_ms * 1000 + m_CommandCounter s))
         (set_UserID UserID new_history_entry)) in
  let File := Cmd.BackupCurrenState Cmd p (DataBase s)
                (UndoFile (m_CacheUndoData Entry) 0) in
  set_CacheUndoData (m_Cache File) Entry.

(** What [Execute] does once [Redo] has succeeded: prune, append, advance
    the cursor and, with a path, queue the save and update the LRU list. *)
Definition record_entry (Entry : history_entry) (s : system) : outcome system :=
  s ← PruneHistory s;
  let '(r, s) := alloc Entry s in
  let s := set_History (m_History s ++ [r]) s in
  let s := set_UndoIndex (m_UndoIndex s + 1) s in
  if negb (path_empty s) then
    let s := PushJob (save_to_disk r) s in
    let s := set_LRU (m_LRU s ++ [r]) s in
    UpdateLRU s
  else Returns s.

(** [system::Execute(command_base&, std::string_view, int)] *)
Definition ExecuteCmd (Cmd : command_base parser D) (cmd_str : string)
    (UserID : Z) (now_ms : Z) (s : system) : outcome (string * system) :=
  _ ← assert (negb (m_Done s));
  let '(err, p) := Cmd.Parse Cmd cmd_str in
  if negb (bool_decide (err = "")) then Returns (err, s)
  else if Cmd.hasHelp Cmd p then Returns ("", s)
  else
    let Entry := make_entry Cmd p cmd_str UserID now_ms s in
    let s := set_CommandCounter (Bytes.u64 (m_CommandCounter s + 1)) s in
    let '(Err, db) := Cmd.Redo Cmd p (DataBase s) in
    let s := set_DataBase db s in
    if negb (bool_decide (Err = "")) then Returns (Err, s)
    else
      s ← record_entry Entry s;
      Returns ("", s).

(** [system::Execute(std::string_view, int)] *)
Definition Execute (cmd_str : string) (UserID : Z) (now_ms : Z) (s : system)
    : outcome (string * system) :=
  _ ← assert (negb (m_Done s));
  let name := getCommandName cmd_str in
  match m_Commands s !! name with
  | Some Cmd => ExecuteCmd Cmd cmd_str UserID now_ms s
  | None => Returns ("Unable find the command: " +:+ name, s)
  end.

(** [system::Undo].  The reference [Cmd] is bound to what [m_Commands[...]]
    holds before the cache is looked at, and first used by [Cmd.Undo]: for
    a name that is not registered the two [assert]s on the cache come
    before the null dereference. *)
Definition Undo (s : system) : outcome system :=
  _ ← assert (negb (m_Done s));
  if bool_decide (m_UndoIndex s = 0%nat) then Returns s
  else
    let s := set_UndoIndex (m_UndoIndex s - 1) s in
    '(r, LastCommand) ← history_at (m_UndoIndex s) s;
    let CmdName := getCommandName (m_CommandString LastCommand) in
    let Cmd := m_Commands s !! CmdName in
    s ← (if cache_empty LastCommand then
           _ ← assert (negb (path_empty s));
           let s := run_now (warmup_cache r) s in
           '(_, LastCommand) ← history_at (m_UndoIndex s) s;
           _ ← assert (negb (cache_empty LastCommand));
           Returns s
         else Returns s);
    '(_, LastCommand) ← history_at (m_UndoIndex s) s;
    Cmd ← registered Cmd;
    db ← asserted (Cmd.Undo Cmd (UndoFile (m_CacheUndoData LastCommand) 0) (DataBase s));
    let s := set_DataBase db s in
    if negb (path_empty s) then
      UpdateLRU (set_LRU (m_LRU s ++ [r]) s)
    else Returns s.

(** [system::Redo] *)
Definition Redo (s : system) : outcome system :=
  _ ← assert (negb (m_Done s));
  if bool_decide (length (m_History s) ≤ m_UndoIndex s)%nat then Returns s
  else
    '(r, LastCommand) ← history_at (m_UndoIndex s) s;
    let CmdName := getCommandName (m_CommandString LastCommand) in
    Cmd ← registered (m_Commands s !! CmdName);
    let '(Err, p) := Cmd.Parse Cmd (m_CommandString LastCommand) in
    if negb (bool_decide (Err = "")) then Returns s
    else
      let '(Err, db) := Cmd.Redo Cmd p (DataBase s) in
      let s := set_DataBase db s in
      if negb (bool_decide (Err = "")) then Returns s
      else
        s ← (if negb (path_empty s)
             then UpdateLRU (set_LRU (m_LRU s ++ [r]) s) else Returns s);
        Returns (set_UndoIndex (m_UndoIndex s + 1) s).

(** The path the two timestamp operations use for an empty [FilePath]. *)
Definition timestamps_path (FilePath : string) (s : system) : string :=
  if bool_decide (FilePath = "") then m_UndoPath s +:+ "/UndoTimestamps.bin"
  else FilePath.

(** [system::SaveTimestamps].  When [fopen_s] cannot open the file for
    writing ([WriteErrors] has the path) the text of the error is returned
    and nothing is written. *)
Definition SaveTimestamps (FilePath : string) (s : system)
    : outcome (string * system) :=
  _ ← assert (negb (m_Done s));
  _ ← assert (negb (path_empty s));
  match WriteErrors s !! timestamps_path FilePath s with
  | Some ErrMsg => Returns ("Error saving timestamps: " +:+ ErrMsg, s)
  | None =>
      let Count := Z.to_nat (Bytes.u32 (Z.of_nat (m_UndoIndex s))) in
      stamps ← mapM (λ i, '(_, Entry) ← history_at i s;
                          Returns (Bytes.le_bytes 8 (m_TimeStamp Entry)))
                    (seq 0 Count);
      let File := Bytes.le_bytes 4 (Z.of_nat Count) ++ concat stamps in
      Returns ("", set_IndexFiles (<[timestamps_path FilePath s := File]> (IndexFiles s)) s)
  end.

(** The first loop of [system::LoadTimestamps]: one placeholder entry and
    one [load_entries] job per stored timestamp. *)
Fixpoint load_placeholders (Count : nat) (File : list byte) (s : system) : system :=
  match Count with
  | O => s
  | S k =>
      let '(_, b, File) := Stdio.fread 8 File in
      let TimeStamp := Stdio.stored 8 b (junk "TimeStamp") in
      let Entry := set_bHasBeenSaved true
                     (set_TimeStamp TimeStamp new_history_entry) in
      let '(r, s) := alloc Entry s in
      let s := set_History (m_History s ++ [r]) s in
      load_placeholders k File (PushJob (load_entries r) s)
  end.

(** The body of the last loop of [system::LoadTimestamps]. *)
Definition cache_latest (i : nat) (s : system) : outcome system :=
  '(r, e) ← history_at i s;
  let s := set_LRU (m_LRU s ++ [r]) s in
  if cache_empty e && m_bHasBeenSaved e
  then Returns (PushJob (warmup_cache r) s) else Returns s.

Fixpoint for_each {A} (body : A → system → outcome system) (l : list A)
    (s : system) : outcome system :=
  match l with
  | [] => Returns s
  | a :: rest => s ← body a s; for_each body rest s
  end.

(** [system::LoadTimestamps]; [ws1] and [ws2] are what the workers do
    while the caller waits in the first and in the second call of
    [SynJobQueue]. *)
Definition LoadTimestamps (FilePath : string) (ws1 ws2 : list worker_step)
    (s : system) : outcome (string * system) :=
  _ ← assert (negb (m_Done s));
  _ ← assert (negb (path_empty s));
  let s := SynJobQueue ws1 s in
  let s := set_UndoIndex 0 (set_LRU [] (set_History [] s)) in
  match IndexFiles s !! timestamps_path FilePath s with
  | None => Returns ("Error: " +:+ strerror_ENOENT, s)
  | Some File =>
      let '(_, b, File) := Stdio.fread 4 File in
      let Count := Z.to_nat (Stdio.stored 4 b (junk "Count")) in
      let s := load_placeholders Count File s in
      let s := set_UndoIndex Count s in
      let s := SynJobQueue ws2 s in
      let first := (m_UndoIndex s - m_MaxCachedSteps s)%nat in
      s ← for_each cache_latest (seq first (m_UndoIndex s - first)) s;
      Returns ("", s)
  end.

(** [system::Init]; the worker threads it starts are the worker steps of
    the calls below.  [ws1] and [ws2] are for its call of
    [LoadTimestamps]. *)
Definition Init (UndoPath : string) (bAutoLoadSave : bool)
    (ws1 ws2 : list worker_step) (s : system) : outcome (string * system) :=
  let s := set_Done false (set_bAutoLoadSave bAutoLoadSave (set_UndoPath UndoPath s)) in
  if negb (bool_decide (UndoPath = "")) then
    if m_bAutoLoadSave s then
      let Path := m_UndoPath s +:+ "/UndoTimestamps.bin" in
      if bool_decide (is_Some (IndexFiles s !! Path)) then LoadTimestamps Path ws1 ws2 s
      else Returns ("", s)
    else Returns ("", s)
  else
    _ ← assert (negb (m_bAutoLoadSave s));
    Returns ("", s).


(** ** The engine in use

    The owner thread calls the public operations one after the other;
    between two calls the workers may have executed any number of queued
    jobs: [WorkerStep] is a worker that pops a job and executes it before
    anything else happens, [Worker] a worker that does one of the two. *)
Inductive call :=
  | CallInit (UndoPath : string) (bAutoLoadSave : bool) (ws1 ws2 : list worker_step)
  | CallExecute (cmd_str : string) (UserID now_ms : Z)
  | CallExecuteCmd (Cmd : command_base parser D) (cmd_str : string) (UserID now_ms : Z)
  | CallUndo
  | CallRedo
  | CallSaveTimestamps (FilePath : string)
  | CallLoadTimestamps (FilePath : string) (ws1 ws2 : list worker_step)
  | WorkerStep
  | Worker (w : worker_step).

Definition returned (o : outcome (string * system)) : outcome system :=
  '(_, s) ← o; Returns s.

Definition perform (c : call) (s : system) : outcome system :=
  match c with
  | CallInit UndoPath bAutoLoadSave ws1 ws2 =>
      returned (Init UndoPath bAutoLoadSave ws1 ws2 s)
  | CallExecute cmd_str UserID now_ms => returned (Execute cmd_str UserID now_ms s)
  | CallExecuteCmd Cmd cmd_str UserID now_ms =>
      returned (ExecuteCmd Cmd cmd_str UserID now_ms s)
  | CallUndo => Undo s
  | CallRedo => Redo s
  | CallSaveTimestamps FilePath => returned (SaveTimestamps FilePath s)
  | CallLoadTimestamps FilePath ws1 ws2 =>
      returned (LoadTimestamps FilePath ws1 ws2 s)
  | WorkerStep => Returns (IOWorker s)
  | Worker w => Returns (work w s)
  end.

Fixpoint run (calls : list call) (s : system) : outcome system :=
  match calls with
  | [] => Returns s
  | c :: rest => s ← perform c s; run rest s
  end.

End Engine.
Arguments system : clear implicits.
Arguments call : clear implicits.

(** ** The example command ([xundo::example]) *)

Module example.
Import Bytes.

(** [struct fake_dbase] *)
Record fake_dbase := FakeDbase { m_X : Z; m_Y : Z }.

(** Modelled from the spec: [xcmdline::parser] is an external dependency
    that is not part of the sources; the spec only says that it turns a
    command string and an option schema into typed arguments or an error.
    The state kept here is what [MoveCursor] asks of it: whether [-h] was
    given, and the arguments that followed [-T]. *)
Record parser := Parser {
  opt_h : bool;
  opt_T : option (list string)
}.

(** Modelled from the spec: the command string split at spaces. *)
Fixpoint tokens_from (cur : string) (str : string) : list string :=
  match str with
  | EmptyString => [String.rev cur]
  | String c rest =>
      if Ascii.eqb c " "%char then String.rev cur :: tokens_from "" rest
      else tokens_from (String c cur) rest
  end.

Definition tokens (str : string) : list string :=
  filter (λ t, t ≠ "") (tokens_from "" str).

(** Modelled from the spec: the options of the schema [h] (no argument) and
    [T] (two arguments) found after the command name. *)
Fixpoint parse_options (fuel : nat) (ts : list string) (p : parser) : string * parser :=
  match fuel, ts with
  | _, [] => ("", p)
  | O, _ => ("", p)
  | S k, t :: rest =>
      if bool_decide (t = "-h") then parse_options k rest (Parser true (opt_T p))
      else if bool_decide (t = "-T") then
        match rest with
        | x :: y :: rest' => parse_options k rest' (Parser (opt_h p) (Some [x; y]))
        | _ => ("Option -T expects 2 arguments", p)
        end
      else ("Unknown option: " +:+ t, p)
  end.

Definition Parse (cmd_str : string) : string * parser :=
  match tokens cmd_str with
  | [] => ("", Parser false None)
  | _ :: ts => parse_options (length ts) ts (Parser false None)
  end.

(** Modelled from the spec: [getOptionArgAs<int64_t>], a decimal integer
    with an optional sign. *)
Definition digit (c : ascii) : option Z :=
  let n := Z.of_nat (nat_of_ascii c) in
  if bool_decide (48 <= n <= 57) then Some (n - 48) else None.

Fixpoint digits (acc : Z) (str : string) : option Z :=
  match str with
  | EmptyString => Some acc
  | String c rest => d ← digit c; digits (acc * 10 + d) rest
  end.

Definition getOptionArgAs_int64 (str : string) : option Z :=
  match str with
  | EmptyString => None
  | String "-"%char (String c rest) => Z.opp <$> digits 0 (String c rest)
  | _ => digits 0 str
  end.

(** [MoveCursor::Redo] *)
Definition Redo (p : parser) (DB : fake_dbase) : string * fake_dbase :=
  match opt_T p with
  | Some [sx; sy] =>
      match getOptionArgAs_int64 sx, getOptionArgAs_int64 sy with
      | None, _ => ("Failed to get parameter X, not an integer", DB)
      | _, None => ("Failed to get parameter Y, not an integer", DB)
      | Some x, Some y => ("", FakeDbase (to_int32 (u32 x)) (to_int32 (u32 y)))
      end
  | _ => ("Expecting -T x y but found nothing", DB)
  end.

(** [MoveCursor::Undo]: [File.Read(UndoData)] of a [struct data { int X, Y; }] *)
Definition Undo (File : undo_file) (DB : fake_dbase) : option fake_dbase :=
  '(UndoData, _) ← File.Read 8 File;
  Some (FakeDbase (to_int32 (le_value (take 4 UndoData)))
                     (to_int32 (le_value (drop 4 UndoData)))).

(** [MoveCursor::BackupCurrenState] *)
Definition BackupCurrenState (p : parser) (DB : fake_dbase) (File : undo_file)
    : undo_file :=
  File.Write (le_bytes 4 (u32 (m_X DB)) ++ le_bytes 4 (u32 (m_Y DB))) File.

(** [m_X] and [m_Y] hold values of the C++ type [int]. *)
Definition holds_int (DB : fake_dbase) : Prop :=
  - 2 ^ 31 <= m_X DB < 2 ^ 31 ∧ - 2 ^ 31 <= m_Y DB < 2 ^ 31.

(** [struct MoveCursor], constructed with the name ["Move"] *)
Definition MoveCursor : command_base parser fake_dbase :=
  Cmd.CommandBase parser fake_dbase "Move" Parse opt_h Redo Undo BackupCurrenState.

(** In the concrete runs below the stack holds zeroes where a local has no
    initialiser. *)
#[local] Instance zeroes : uninitialised := λ _, [].

(** [MoveCursor::Move] *)
Definition Move (X Y : Z) (UserID : Z) (now_ms : Z) (s : system parser fake_dbase)
    : outcome (string * system parser fake_dbase) :=
  ExecuteCmd MoveCursor
    (Cmd.m_pCommandName MoveCursor +:+ " -T " +:+ pretty X +:+ " " +:+ pretty Y)
    UserID now_ms s.

(** A system with [MoveCursor] constructed on it and [Init] called. *)
Definition started (UndoPath : string) : outcome (system parser fake_dbase) :=
  '(_, s) ← Init UndoPath false [] []
              (construct_command MoveCursor (system_default ∅ ∅ (FakeDbase 0 0)));
  Returns s.

(** *** Sessions used as concrete inputs *)

Abbreviation sys := (system parser fake_dbase).

(** The workers taking up to twelve queued jobs (no public operation
    leaves more in the queue). *)
Definition workers : list (call parser fake_dbase) := replicate 12 WorkerStep.

(** [Execute("Move -T k k")] at clock reading 1000, then the workers. *)
Definition move_call (k : nat) : call parser fake_dbase :=
  CallExecute ("Move -T " +:+ pretty (Z.of_nat k) +:+ " " +:+ pretty (Z.of_nat k))
              (-1) 1000.

Definition moves (n : nat) : list (call parser fake_dbase) :=
  seq 0 n ≫= λ k, move_call k :: workers.

(** [n] times [Undo] then [Redo], the workers running after each. *)
Definition undo_redo (n : nat) : list (call parser fake_dbase) :=
  seq 0 n ≫= λ _, (CallUndo :: workers) ++ (CallRedo :: workers).

(** The session of a system started on [UndoPath] that performs [calls]. *)
Definition session (UndoPath : string) (calls : list (call parser fake_dbase))
    : outcome sys :=
  s ← started UndoPath; run calls s.

(** The system [started] returns. *)
Definition booted (UndoPath : string) : sys :=
  set_Done false (set_bAutoLoadSave false (set_UndoPath UndoPath
    (construct_command MoveCursor (system_default ∅ ∅ (FakeDbase 0 0))))).

(** The state at the end of a session. *)
Definition after (UndoPath : string) (calls : list (call parser fake_dbase)) : sys :=
  value_or (booted UndoPath) (session UndoPath calls).

(** An entry as [Move(10, 20)] records it from the position (7, 9). *)
Definition sample_entry : history_entry :=
  HistoryEntry 1 1742142422507000 "Move -T 10 20"
    (le_bytes 4 7 ++ le_bytes 4 9) false.

End example.

(** ** Sessions and states of the example used as concrete inputs *)

Module sessions.
#[local] Existing Instance example.zeroes.
Local Abbreviation parser := example.parser.
Local Abbreviation fake_dbase := example.fake_dbase.
Local Abbreviation FakeDbase := example.FakeDbase.
Local Abbreviation sys := example.sys.
Local Abbreviation after := example.after.
Local Abbreviation moves := example.moves.
Local Abbreviation undo_redo := example.undo_redo.
Local Abbreviation move_call := example.move_call.

(** Three moves and two undos in memory; a fourth move follows. *)
Definition two_undone : list (call parser fake_dbase) :=
  moves 3 ++ [CallUndo; CallUndo].

(** One move on disk and nineteen rounds of undo and redo, the workers
    running after every call; one more [Undo] follows. *)
Definition worn_out : list (call parser fake_dbase) :=
  moves 1 ++ undo_redo 19.

(** The state that [Undo] hands to [UpdateLRU]. *)
Definition worn_out_update : sys :=
  let s := after "x" worn_out in
  set_LRU (m_LRU s ++ [0%nat])
    (set_DataBase (FakeDbase 0 0) (set_UndoIndex 0 s)).

(** Two moves on disk, nineteen rounds of undo and redo and one undo; the
    state below is the one the next [Undo] hands to [UpdateLRU]: the cursor
    is at 0 and the entry at position 1 has an empty cache. *)
Definition worn_out_two : sys :=
  let s := after "x" (moves 2 ++ undo_redo 19 ++ [CallUndo]) in
  set_LRU (m_LRU s ++ [0%nat])
    (set_DataBase (FakeDbase 0 0) (set_UndoIndex 0 s)).

(** The entries of the history whose cache is not empty. *)
Definition resident (s : sys) : list ref :=
  filter (λ r, (negb ∘ cache_empty) <$> Heap s !! r = Some true) (m_History s).

(** Fifty moves with no worker step in between. *)
Definition fifty_unsaved : list (call parser fake_dbase) :=
  move_call <$> seq 0 50.

(** One move on disk, whose [save_to_disk] job a worker pops and is still
    holding when the owner calls [Undo] and then [Execute], which prunes the
    entry; the other workers then execute the two queued jobs, and the
    first worker executes its job at last. *)
Definition slow_save : list (call parser fake_dbase) :=
  [move_call 0%nat; Worker pops; CallUndo; move_call 1%nat;
   WorkerStep; WorkerStep; Worker (finishes 0)].

(** Five moves on disk, three undos and one redo, no worker having run:
    the five saves are still queued when the next move prunes two entries. *)
Definition diverging : list (call parser fake_dbase) :=
  (move_call <$> seq 0 5) ++ [CallUndo; CallUndo; CallUndo; CallRedo].

(** Two moves on disk and twenty rounds of undo and redo: the cursor is at
    2 and the cache of the entry at position 1 has been cleared, so [Undo]
    reads the undo data back from the entry's file. *)
Definition undone_from_disk : list (call parser fake_dbase) :=
  moves 2 ++ undo_redo 20.





(** A command that has nothing to back up: [BackupCurrenState] writes no
    byte, and [Undo] reads none. *)
Definition Blank : command_base parser fake_dbase :=
  Cmd.CommandBase parser fake_dbase "Blank" example.Parse example.opt_h
    (λ _ DB, ("", DB)) (λ _ DB, Some DB) (λ _ _ File, File).

(** The system on which [Blank] is constructed and [Init("", false)]
    called. *)
Definition blank_engine : sys :=
  set_Done false (set_bAutoLoadSave false (set_UndoPath ""
    (construct_command Blank (system_default ∅ ∅ (FakeDbase 0 0))))).

End sessions.

(** * Vocabulary of the properties

    The projections and predicates the properties below are stated
    with. *)

Section Vocabulary.
Context {parser D : Type} {stack : uninitialised}.
Implicit Types s : system parser D.

(** Everything but the LRU list, the job queue and the heap. *)
Definition frame s : system parser D :=
  set_Heap [] (set_IOQueue [] (set_LRU [] s)).

(** The timestamps of the entries behind the references [rs]. *)
Definition stamps_of (heap : list history_entry) (rs : list ref) (ts : list Z) : Prop :=
  Forall2 (λ r t, ∃ e, heap !! r = Some e ∧ m_TimeStamp e = t) rs ts.

(** The two ways of reaching the typed [Execute] with command [Cmd]. *)
Definition executes (Cmd : command_base parser D) (cmd_str : string)
    (UserID now_ms : Z) s (run : outcome (string * system parser D)) : Prop :=
  run = ExecuteCmd Cmd cmd_str UserID now_ms s
  ∨ (m_Commands s !! getCommandName cmd_str = Some Cmd
     ∧ run = Execute cmd_str UserID now_ms s).

(** What one [if] of the look-ahead loop of [UpdateLRU] adds for position
    [pos]: the reference found there when its entry's cache is empty. *)
Definition target_at (hist : list ref) (heap : list history_entry) (pos : nat)
    : list ref :=
  match hist !! pos with
  | Some r =>
      match heap !! r with
      | Some e => if cache_empty e then [r] else []
      | None => []
      end
  | None => []
  end.

(** What iteration [i] adds, for cursor [idx]. *)
Definition step_targets (hist : list ref) (heap : list history_entry)
    (idx i : nat) : list ref :=
  (if bool_decide (i ≤ idx)%nat then target_at hist heap (idx - i) else [])
  ++ (if bool_decide (idx + i < length hist)%nat
      then target_at hist heap (idx + i) else []).

(** The LRU list is within [m_MaxCachedSteps]. *)
Definition LRU_bounded s : Prop :=
  (length (m_LRU s) ≤ m_MaxCachedSteps s)%nat.

(** The members set at construction and by [Init]. *)
Definition config s :=
  (m_Commands s, m_UndoPath s, m_MaxCachedSteps s, m_LookAheadSteps s,
   m_Done s, m_DefaultUser s).

(** The jobs of a queue executed in order. *)
Fixpoint run_jobs (q : list job) (heap : list history_entry) (files : disk)
    : list history_entry * disk :=
  match q with
  | [] => (heap, files)
  | j :: rest =>
      let '(heap, files) := JobExec.Execute j heap files in
      run_jobs rest heap files
  end.

(** The entry a job holds, if any. *)
Definition job_entry (j : job) : option ref :=
  match j with
  | save_to_disk r | warmup_cache r | load_entries r => Some r
  | delete_entries _ => None
  end.

(** The key data of an entry: what the timeline and the file name rest on. *)
Definition ident (e : history_entry) : Z * Z * string :=
  (m_UserID e, m_TimeStamp e, m_CommandString e).


(** The clock reading a call of [Execute] takes. *)
Definition clock_of (c : call parser D) : option Z :=
  match c with
  | CallExecute _ _ now_ms | CallExecuteCmd _ _ _ now_ms => Some now_ms
  | _ => None
  end.


(** The jobs that leave the key data of their entry alone. *)
Definition not_load (j : job) : Prop :=
  match j with load_entries _ => False | _ => True end.


(** The wall clock does not go back: every reading is at least the one
    before it, the first at least [t]. *)
Fixpoint clock_steady (t : Z) (calls : list (call parser D)) : Prop :=
  match calls with
  | [] => True
  | c :: rest =>
      match clock_of c with
      | Some now_ms => t <= now_ms ∧ clock_steady now_ms rest
      | None => clock_steady t rest
      end
  end.

(** No timestamp computed in the course of the calls leaves 64 bits: [K]
    bounds the command counter. *)
Definition fits_64 (K : Z) (calls : list (call parser D)) : Prop :=
  Forall (λ c, ∀ now_ms, clock_of c = Some now_ms →
               0 <= now_ms ∧ now_ms * 1000 + K < 2 ^ 64) calls.

(** The command's backup writes at least one byte (what the [assert]s of
    [Undo] on [m_CacheUndoData] take for granted). *)
Definition backs_up (Cmd : command_base parser D) : Prop :=
  ∀ p d, m_Cache (Cmd.BackupCurrenState Cmd p d (UndoFile [] 0)) ≠ [].

(** An entry that has not been saved has a non-empty cache. *)
Definition keeps_cache (e : history_entry) : Prop :=
  m_bHasBeenSaved e = false → m_CacheUndoData e ≠ [].

(** The same, for every entry of the heap. *)
Definition unsaved_resident s : Prop := Forall keeps_cache (Heap s).

(** The history holds existing entries, the cursor is within it, and with a
    path the [assert] of [UpdateLRU] on the two sizes holds. *)
Definition well_formed s : Prop :=
  Forall (λ r, r < length (Heap s))%nat (m_History s)
  ∧ (m_UndoIndex s ≤ length (m_History s))%nat
  ∧ (path_empty s = false → (m_LookAheadSteps s * 2 + 1 < m_MaxCachedSteps s)%nat).

(** What [Execute] wrote through the fresh [undo_file]. *)
Definition backup_of (Cmd : command_base parser D) (p : parser) (d : D) : list byte :=
  m_Cache (Cmd.BackupCurrenState Cmd p d (UndoFile [] 0)).

(** [e] is an entry as [Execute] records it when command [Cmd] takes the
    data from [d0] to [d1]: its command string parses, [P] is the backup
    taken at [d0], and [Redo] on [d0] succeeds with [d1]. *)
Definition recorded (Cmd : command_base parser D) (e : history_entry)
    (P : list byte) (d0 d1 : D) : Prop :=
  ∃ p, Cmd.Parse Cmd (m_CommandString e) = ("", p)
       ∧ backup_of Cmd p d0 = P
       ∧ Cmd.Redo Cmd p d0 = ("", d1).

(** The command contract: [Undo] on the backup [P] restores the data [d0]
    the backup was taken from, whatever the data has become. *)
Definition restores (Cmd : command_base parser D) (P : list byte) (d0 : D) : Prop :=
  ∀ d, Cmd.Undo Cmd (UndoFile P 0) d = Some d0.

(** The undo data [P] of entry [e] is at hand: in its cache or, with a
    path, in its file. *)
Definition at_hand s (e : history_entry) (P : list byte) : Prop :=
  P ≠ []
  ∧ (m_CacheUndoData e = P
     ∨ m_CacheUndoData e = [] ∧ path_empty s = false
       ∧ m_CacheUndoData (Job.Load e (Files s) false true).2 = P).

(** The contract of a command on the data for which [valid] holds: its
    backup is not empty and fits a 32-bit length, its [Undo] restores the
    data the backup was taken from, and its [Redo] keeps the data valid. *)
Definition contract (valid : D → Prop) (Cmd : command_base parser D) : Prop :=
  ∀ p d, valid d →
    backup_of Cmd p d ≠ []
    ∧ Z.of_nat (length (backup_of Cmd p d)) < 2 ^ 32
    ∧ restores Cmd (backup_of Cmd p d) d
    ∧ valid (Cmd.Redo Cmd p d).2.

(** Entry [e] is as an [Execute] that found the data [d0] and ended with
    the data [d1] left it, up to what the workers and the LRU bookkeeping do
    to an entry: its undo data is in the cache, or the cache has been
    cleared after the entry was saved; and once the entry is saved, its file
    holds the undo data. *)
Definition kept (valid : D → Prop) (cmds : gmap string (command_base parser D))
    (no_path : bool) (files : disk) (e : history_entry) (d0 d1 : D) : Prop :=
  ∃ Cmd P,
    cmds !! getCommandName (m_CommandString e) = Some Cmd
    ∧ recorded Cmd e P d0 d1 ∧ restores Cmd P d0 ∧ valid d0
    ∧ P ≠ [] ∧ Z.of_nat (length P) < 2 ^ 32
    ∧ (m_CacheUndoData e = P
       ∨ m_CacheUndoData e = [] ∧ m_bHasBeenSaved e = true ∧ no_path = false)
    ∧ (m_bHasBeenSaved e = true →
       ∀ e', m_TimeStamp e' = m_TimeStamp e →
             m_CacheUndoData (Job.Load e' files false true).2 = P).

(** The entry with reference [r] was put at position [k] of the history by
    a call of [Execute] in [calls] (the history did not hold it before that
    call); [d0] is the data right before that call and [d1] the data right
    after it. *)
Definition traced (s0 : system parser D) (calls : list (call parser D))
    (k : nat) (r : ref) (d0 d1 : D) : Prop :=
  ∃ calls1 c calls2 s_b s_c,
    calls = calls1 ++ c :: calls2 ∧ is_Some (clock_of c)
    ∧ run calls1 s0 = Returns s_b ∧ (r ∉ m_History s_b)
    ∧ run (calls1 ++ [c]) s0 = Returns s_c
    ∧ m_UndoIndex s_c = S k ∧ m_History s_c !! k = Some r ∧ DataBase s_c = d1
    ∧ DataBase s_b = d0.

(** What a queued job may be: no [load_entries], and a [delete_entries]
    only for the timestamps of entries that have left the history. *)
Definition job_ok s (j : job) : Prop :=
  match j with
  | delete_entries ts =>
      ∀ t, t ∈ ts → ∃ r e, Heap s !! r = Some e ∧ m_TimeStamp e = t ∧ r ∉ m_History s
  | load_entries _ => False
  | _ => True
  end.

(** The state of an engine that was started as [s0] and has performed
    [calls], the last clock reading being at least [t]. *)
Record sound (valid : D → Prop) (s0 : system parser D)
    (calls : list (call parser D)) (t : Z) s : Prop := Sound {
  sound_wf : well_formed s;
  sound_config : config s = config s0;
  sound_history : NoDup (m_History s);
  sound_stamps : NoDup (m_TimeStamp <$> Heap s);
  sound_clock : Forall (λ x, x < t * 1000 + m_CommandCounter s) (m_TimeStamp <$> Heap s);
  sound_counter : 0 <= m_CommandCounter s;
  sound_queue : Forall (job_ok s) (m_IOQueue s);
  sound_data : valid (DataBase s);
  sound_entries : ∀ k r, m_History s !! k = Some r →
    ∃ e d0 d1, Heap s !! r = Some e
               ∧ kept valid (m_Commands s) (path_empty s) (Files s) e d0 d1
               ∧ traced s0 calls k r d0 d1
}.

(** The calls of a session on the engine started as [s0]: no [Init] and no
    [LoadTimestamps], the typed [Execute] only on the command that is
    registered under the name of the command string, and workers that
    execute a job as soon as they have popped it. *)
Definition session_call (s0 : system parser D) (c : call parser D) : Prop :=
  match c with
  | CallInit _ _ _ _ | CallLoadTimestamps _ _ _ | Worker _ => False
  | CallExecuteCmd Cmd cmd_str _ _ =>
      m_Commands s0 !! getCommandName cmd_str = Some Cmd
  | _ => True
  end.

(** An engine that [Init] has started and that has not recorded anything
    yet. *)
Definition fresh s : Prop :=
  m_History s = [] ∧ m_UndoIndex s = 0%nat ∧ Heap s = [] ∧ m_IOQueue s = []
  ∧ m_Done s = false ∧ 0 <= m_CommandCounter s
  ∧ (path_empty s = false → (m_LookAheadSteps s * 2 + 1 < m_MaxCachedSteps s)%nat).


(** A session: the engine is started as [s0] on valid data, its commands
    keep the contract, and [calls] are calls of a session made while the
    wall clock, first read at [t] or later, does not go back and the
    timestamps stay within 64 bits. *)
Definition session_of (valid : D → Prop) (s0 : system parser D) (t : Z)
    (calls : list (call parser D)) : Prop :=
  fresh s0 ∧ valid (DataBase s0)
  ∧ (∀ name Cmd, m_Commands s0 !! name = Some Cmd → contract valid Cmd)
  ∧ Forall (session_call s0) calls
  ∧ clock_steady t calls
  ∧ fits_64 (m_CommandCounter s0 + Z.of_nat (length calls)) calls.


(** The members of an entry hold values of their C++ types and its two
    lengths fit the [uint32_t] that [Save] writes them in. *)
Definition fits_file (e : history_entry) : Prop :=
  Z.of_nat (length (m_CacheUndoData e)) < 2 ^ 32
  ∧ Z.of_nat (String.length (m_CommandString e)) < 2 ^ 32
  ∧ - 2 ^ 31 <= m_UserID e < 2 ^ 31
  ∧ 0 <= m_TimeStamp e < 2 ^ 64.


(** The timestamps the first loop of [LoadTimestamps] reads from the rest
    [File] of the index file. *)
Fixpoint stamps_read (Count : nat) (File : list byte) : list Z :=
  match Count with
  | O => []
  | S k => let '(_, b, File) := Stdio.fread 8 File in
           Stdio.stored 8 b (junk "TimeStamp") :: stamps_read k File
  end.

(** The entry that loop creates for a timestamp. *)
Definition placeholder (ts : Z) : history_entry :=
  set_bHasBeenSaved true (set_TimeStamp ts new_history_entry).





(** The entry with reference [r] is on its way to the disk: its
    [save_to_disk] job is queued, or its file holds what [Save] writes for
    an entry with the same key data (and, as long as the entry is not
    marked as saved, with the undo data the entry has in its cache). *)
Definition filed s (r : ref) (e : history_entry) : Prop :=
  (save_to_disk r ∈ m_IOQueue s ∧ m_bHasBeenSaved e = false)
  ∨ ∃ e0, Files s !! m_TimeStamp e = Some (Job.Save_file e0).2
          ∧ ident e0 = ident e
          ∧ Z.of_nat (length (m_CacheUndoData e0)) < 2 ^ 32
          ∧ (m_bHasBeenSaved e = false → m_CacheUndoData e0 = m_CacheUndoData e).

(** The same, for every entry of the history. *)
Definition all_filed s : Prop :=
  ∀ k r e, m_History s !! k = Some r → Heap s !! r = Some e → filed s r e.










End Vocabulary.

(** * Properties *)

(** ** Little-endian scalars *)

Section BytesFacts.
Import Bytes.

Lemma byte_to_Z_range b : 0 <= byte_to_Z b < 256.
Proof.
  unfold byte_to_Z. pose proof (Byte.to_N_bounded b) as Hb.
  split; [apply N2Z.is_nonneg | ].
  apply N.lt_succ_r in Hb. apply N2Z.inj_lt in Hb. exact Hb.
Qed.

Lemma byte_to_of_Z z : byte_to_Z (byte_of_Z z) = z mod 256.
Proof.
  unfold byte_of_Z, byte_to_Z.
  assert (Hr : 0 <= z mod 256 < 256) by (apply Z.mod_pos_bound; lia).
  destruct (Byte.of_N (Z.to_N (z mod 256))) as [b|] eqn:E.
  - apply Byte.to_of_N in E. rewrite E. rewrite Z2N.id; lia.
  - apply Byte.of_N_None_iff in E.
    apply N2Z.inj_lt in E. rewrite Z2N.id in E by lia. simpl in E. lia.
Qed.

Lemma byte_of_to_Z b : byte_of_Z (byte_to_Z b) = b.
Proof.
  unfold byte_of_Z. pose proof (byte_to_Z_range b) as Hr.
  rewrite Z.mod_small by exact Hr.
  unfold byte_to_Z. rewrite N2Z.id. now rewrite Byte.of_to_N.
Qed.

Lemma length_le_bytes n v : length (le_bytes n v) = n.
Proof. revert v. induction n as [|n IH]; intros v; simpl; [done | by rewrite IH]. Qed.

Lemma le_value_le_bytes n v :
  le_value (le_bytes n v) = v mod 256 ^ Z.of_nat n.
Proof.
  revert v. induction n as [|n IH]; intros v.
  - simpl. now rewrite Z.mod_1_r.
  - cbn [le_bytes le_value]. rewrite byte_to_of_Z, IH.
    rewrite Nat2Z.inj_succ, Z.pow_succ_r by lia.
    rewrite (Z.rem_mul_r v 256 (256 ^ Z.of_nat n)); [reflexivity | lia | ].
    apply Z.pow_pos_nonneg; lia.
Qed.

Lemma to_int32_u32 v : - 2 ^ 31 <= v < 2 ^ 31 -> to_int32 (u32 v) = v.
Proof.
  intros Hv. unfold to_int32, u32.
  destruct (Z_lt_dec v 0) as [Hneg|Hpos].
  - replace (v mod 2 ^ 32) with (v + 2 ^ 32).
    + destruct (Z.ltb_spec (v + 2 ^ 32) (2 ^ 31)); lia.
    + apply Z.mod_unique with (q := -1); lia.
  - rewrite Z.mod_small by lia.
    destruct (Z.ltb_spec v (2 ^ 31)); lia.
Qed.

Lemma to_int32_range v : - 2 ^ 31 <= to_int32 (u32 v) < 2 ^ 31.
Proof.
  unfold to_int32, u32.
  pose proof (Z.mod_pos_bound v (2 ^ 32) ltac:(lia)) as Hr.
  destruct (v mod 2 ^ 32 <? 2 ^ 31) eqn:E; [apply Z.ltb_lt in E | apply Z.ltb_ge in E]; lia.
Qed.

End BytesFacts.

(** ** The per-entry file: [Save] and [Load] *)

Section SaveLoad.
Import Bytes Stdio Job.
Context {stack : uninitialised}.

Lemma fread_app (item rest : list byte) :
  fread (length item) (item ++ rest) = (bool_decide (item ≠ []), item, rest).
Proof.
  unfold fread. destruct item as [|b item].
  - reflexivity.
  - rewrite bool_decide_eq_false_2 by (simpl; lia).
    rewrite bool_decide_eq_true_2 by (rewrite length_app; lia).
    rewrite take_app_length, drop_app_length.
    by rewrite bool_decide_eq_true_2.
Qed.

Lemma filled_whole (n : nat) (got old : list byte) :
  length got = n → filled n got old = got.
Proof.
  intros Hn. unfold filled.
  rewrite drop_ge by (rewrite length_resize; lia).
  apply app_nil_r.
Qed.

Lemma length_list_byte_of_string (str : string) :
  length (String.list_byte_of_string str) = String.length str.
Proof.
  unfold String.list_byte_of_string.
  induction str as [|c str IH]; simpl; [done | by rewrite IH].
Qed.

Lemma le_value_u32 (v : Z) : 0 <= v < 2 ^ 32 → le_value (le_bytes 4 (u32 v)) = v.
Proof.
  intros Hv. rewrite le_value_le_bytes. unfold u32.
  change (256 ^ Z.of_nat 4) with (2 ^ 32). rewrite Z.mod_mod by lia.
  by apply Z.mod_small.
Qed.

Lemma to_nat_u32 (n : nat) : Z.of_nat n < 2 ^ 32 → Z.to_nat (u32 (Z.of_nat n)) = n.
Proof. intros Hn. unfold u32. rewrite Z.mod_small by lia. apply Nat2Z.id. Qed.

(** What [Save] leaves in the entry's file when its two lengths fit 32 bits. *)
Lemma Save_file_layout (Entry : history_entry) :
  Z.of_nat (length (m_CacheUndoData Entry)) < 2 ^ 32 →
  Z.of_nat (String.length (m_CommandString Entry)) < 2 ^ 32 →
  (Save_file Entry).2 =
    le_bytes 4 (u32 (Z.of_nat (length (m_CacheUndoData Entry))))
    ++ m_CacheUndoData Entry
    ++ le_bytes 4 (u32 (m_UserID Entry))
    ++ le_bytes 8 (m_TimeStamp Entry)
    ++ le_bytes 4 (u32 (Z.of_nat (String.length (m_CommandString Entry))))
    ++ String.list_byte_of_string (m_CommandString Entry).
Proof.
  intros Hdata Hstr. unfold Save_file, fwrite. cbn [snd].
  rewrite length_list_byte_of_string.
  rewrite !to_nat_u32 by lia.
  rewrite take_ge by lia.
  rewrite take_ge by (rewrite length_list_byte_of_string; lia).
  rewrite app_nil_l, <- !app_assoc. reflexivity.
Qed.

(** The entry [Load] produces from a file written by [Save]. *)
Lemma Load_of_Save (Entry Target : history_entry) (d : disk) :
  Z.of_nat (length (m_CacheUndoData Entry)) < 2 ^ 32 →
  Z.of_nat (String.length (m_CommandString Entry)) < 2 ^ 32 →
  - 2 ^ 31 <= m_UserID Entry < 2 ^ 31 →
  0 <= m_TimeStamp Entry < 2 ^ 64 →
  m_TimeStamp Target = m_TimeStamp Entry →
  (Load Target (Save Entry d).2 true true).2 =
    HistoryEntry (m_UserID Entry) (m_TimeStamp Entry) (m_CommandString Entry)
      (m_CacheUndoData Entry) (m_bHasBeenSaved Target).
Proof.
  intros Hdata Hstr Huser Hts Hname.
  pose proof (Save_file_layout Entry Hdata Hstr) as Hfile.
  unfold Save. destruct (Save_file Entry) as [ok File]. cbn [snd] in Hfile |- *.
  unfold Load, stored. rewrite Hname, lookup_insert_eq. subst File.
  remember (m_CacheUndoData Entry) as data eqn:Edata.
  set (str := String.list_byte_of_string (m_CommandString Entry)).
  assert (H4 : ∀ v, length (le_bytes 4 v) = 4%nat) by (intros; apply length_le_bytes).
  assert (H8 : ∀ v, length (le_bytes 8 v) = 8%nat) by (intros; apply length_le_bytes).
  assert (Hne4 : ∀ v, bool_decide (le_bytes 4 v ≠ []) = true)
    by (intros v; by apply bool_decide_eq_true_2).
  assert (Hne8 : ∀ v, bool_decide (le_bytes 8 v ≠ []) = true)
    by (intros v; by apply bool_decide_eq_true_2).
  rewrite <- (H4 (u32 (Z.of_nat (length data)))) at 1.
  rewrite fread_app, Hne4.
  rewrite filled_whole by reflexivity.
  rewrite le_value_u32 by lia. rewrite Nat2Z.id.
  rewrite fread_app.
  rewrite <- (H4 (u32 (m_UserID Entry))) at 1. rewrite fread_app, Hne4.
  rewrite <- (H8 (m_TimeStamp Entry)) at 1. rewrite fread_app, Hne8.
  rewrite <- (H4 (u32 (Z.of_nat (String.length (m_CommandString Entry))))) at 1.
  rewrite fread_app, Hne4.
  rewrite filled_whole by reflexivity.
  rewrite le_value_u32 by lia. rewrite Nat2Z.id.
  rewrite <- (length_list_byte_of_string (m_CommandString Entry)).
  fold str. rewrite <- (app_nil_r str) at 2. rewrite fread_app.
  cbn [snd]. unfold set_CommandString, set_TimeStamp, set_UserID, set_CacheUndoData.
  cbn [m_UserID m_TimeStamp m_CommandString m_CacheUndoData m_bHasBeenSaved].
  rewrite !filled_whole by reflexivity.
  f_equal.
  - rewrite le_value_le_bytes. change (256 ^ Z.of_nat 4) with (2 ^ 32).
    unfold u32 at 1. rewrite Z.mod_mod by lia. by apply to_int32_u32.
  - rewrite le_value_le_bytes. change (256 ^ Z.of_nat 8) with (2 ^ 64).
    by apply Z.mod_small.
  - subst str. apply String.string_of_list_byte_of_string.
Qed.

(** C8.  An entry written by [Save] and read back by [Load] with both
    [bLoadKeyData] and [bLoadCacheData] set comes back with the same user
    id, timestamp and command string, and with the same cache of undo data
    byte for byte.  [Target] is the entry [Load] fills; it only has to name
    the same file.  The side conditions say that the members hold values of
    their C++ types and that the two lengths fit [uint32_t]. *)
Theorem Save_Load_roundtrip (Entry Target : history_entry) (d : disk) :
  Z.of_nat (length (m_CacheUndoData Entry)) < 2 ^ 32 →
  Z.of_nat (String.length (m_CommandString Entry)) < 2 ^ 32 →
  - 2 ^ 31 <= m_UserID Entry < 2 ^ 31 →
  0 <= m_TimeStamp Entry < 2 ^ 64 →
  m_TimeStamp Target = m_TimeStamp Entry →
  let Loaded := (Load Target (Save Entry d).2 true true).2 in
  m_UserID Loaded = m_UserID Entry
  ∧ m_TimeStamp Loaded = m_TimeStamp Entry
  ∧ m_CommandString Loaded = m_CommandString Entry
  ∧ m_CacheUndoData Loaded = m_CacheUndoData Entry.
Proof.
  intros Hdata Hstr Huser Hts Hname Loaded. subst Loaded.
  rewrite Load_of_Save by assumption. by repeat split.
Qed.

(** The undo data alone, as [warmup_cache] reads it back. *)
Lemma Save_file_payload (Entry : history_entry) :
  Z.of_nat (length (m_CacheUndoData Entry)) < 2 ^ 32 →
  ∃ rest, (Save_file Entry).2 =
    le_bytes 4 (u32 (Z.of_nat (length (m_CacheUndoData Entry))))
    ++ m_CacheUndoData Entry ++ rest.
Proof.
  intros Hdata. unfold Save_file, fwrite. cbn [snd].
  rewrite to_nat_u32 by lia. rewrite take_ge by lia.
  rewrite app_nil_l, <- !app_assoc. eexists. reflexivity.
Qed.

Lemma Load_cache_of_Save (Entry Target : history_entry) (files : disk) :
  Z.of_nat (length (m_CacheUndoData Entry)) < 2 ^ 32 →
  files !! m_TimeStamp Target = Some (Save_file Entry).2 →
  m_CacheUndoData (Load Target files false true).2 = m_CacheUndoData Entry.
Proof.
  intros Hdata Hfile. destruct (Save_file_payload Entry Hdata) as (rest & Hlay).
  unfold Load, stored. rewrite Hfile, Hlay.
  assert (H4 : ∀ v, length (le_bytes 4 v) = 4%nat) by (intros; apply length_le_bytes).
  rewrite <- (H4 (u32 (Z.of_nat (length (m_CacheUndoData Entry))))) at 1.
  rewrite fread_app. rewrite filled_whole by reflexivity.
  rewrite le_value_u32 by lia. rewrite Nat2Z.id.
  rewrite fread_app. cbn [snd]. unfold set_CacheUndoData. cbn [m_CacheUndoData].
  by rewrite filled_whole.
Qed.

Lemma Load_same_file (e : history_entry) (files files' : disk) k c :
  files' !! m_TimeStamp e = files !! m_TimeStamp e →
  Load e files' k c = Load e files k c.
Proof. intros H. unfold Load. by rewrite H. Qed.


(** ** [undo_file]: what [Write] puts in, [Read] gets out *)

(** X6.  Data written through an [undo_file] whose cursor is inside the cache
    is read back unchanged by a [Read] of the same size from the position
    the [Write] started at; the [Read] leaves the cursor where the [Write]
    left it, and the cache has grown by the size written. *)
Theorem Write_then_Read (pData : list byte) (File : undo_file) :
  0 <= m_Index File <= Z.of_nat (length (m_Cache File)) →
  m_Index File + Z.of_nat (length pData) < 2 ^ 32 →
  let Written := File.Write pData File in
  File.Read (length pData) (UndoFile (m_Cache Written) (m_Index File))
    = Some (pData, Written)
  ∧ length (m_Cache Written) = (length (m_Cache File) + length pData)%nat
  ∧ m_Index Written = m_Index File + Z.of_nat (length pData).
Proof.
  intros Hi Hfit Written. subst Written. unfold File.Write, File.Read.
  cbn [m_Cache m_Index].
  set (i := Z.to_nat (m_Index File)).
  assert (Hil : (i ≤ length (m_Cache File))%nat) by (subst i; lia).
  assert (Hlen : length (take i (m_Cache File) ++ pData ++ drop i (m_Cache File))
                 = (length (m_Cache File) + length pData)%nat).
  { rewrite !length_app, length_take, length_drop. lia. }
  rewrite Hlen. rewrite bool_decide_eq_true_2 by lia.
  split_and!; [|done|].
  - f_equal. f_equal.
    fold i. rewrite drop_app_length' by (rewrite length_take; lia).
    by rewrite take_app_length.
  - unfold u32. apply Z.mod_small. lia.
Qed.


(** ** What [save_to_disk] does to an entry *)

Lemma Save_file_Ok (Entry : history_entry) :
  Z.of_nat (length (m_CacheUndoData Entry)) < 2 ^ 32 →
  Z.of_nat (String.length (m_CommandString Entry)) < 2 ^ 32 →
  (Save_file Entry).1
  = bool_decide (m_CacheUndoData Entry ≠ [] ∧ m_CommandString Entry ≠ "").
Proof.
  intros Hdata Hstr. unfold Save_file, fwrite. cbn [fst].
  rewrite length_list_byte_of_string.
  rewrite !to_nat_u32 by lia.
  rewrite take_ge by lia.
  rewrite take_ge by (rewrite length_list_byte_of_string; lia).
  assert (H4 : ∀ v, bool_decide (le_bytes 4 v ≠ []) = true)
    by (intros v; by apply bool_decide_eq_true_2).
  assert (H8 : ∀ v, bool_decide (le_bytes 8 v ≠ []) = true)
    by (intros v; by apply bool_decide_eq_true_2).
  rewrite !H4, H8. cbn [andb].
  assert (Hs : String.list_byte_of_string (m_CommandString Entry) ≠ []
               ↔ m_CommandString Entry ≠ "").
  { destruct (m_CommandString Entry) as [|c str]; [split; intros H; by destruct H|].
    split; intros _; [discriminate|].
    unfold String.list_byte_of_string. cbn [String.list_ascii_of_string map].
    discriminate. }
  destruct (m_CacheUndoData Entry) as [|b data].
  - rewrite bool_decide_eq_false_2 by (intros H; by apply H). symmetry.
    apply bool_decide_eq_false_2. intros [H _]. by apply H.
  - rewrite (bool_decide_eq_true_2 (b :: data ≠ [])) by done. cbn [andb].
    apply bool_decide_ext. rewrite Hs. split; [by split|by intros []].
Qed.


(** X7.  An entry that has not been saved and whose two lengths fit 32 bits:
    the job always writes the entry's file, and it sets [m_bHasBeenSaved]
    exactly when both the undo data and the command string are not empty
    (an [fwrite] of size zero counts no item, so [Save] returns false). *)
Theorem save_to_disk_marks (e : history_entry) (d : disk) :
  m_bHasBeenSaved e = false →
  Z.of_nat (length (m_CacheUndoData e)) < 2 ^ 32 →
  Z.of_nat (String.length (m_CommandString e)) < 2 ^ 32 →
  (JobExec.save_entry e d).1
  = set_bHasBeenSaved
      (bool_decide (m_CacheUndoData e ≠ [] ∧ m_CommandString e ≠ "")) e
  ∧ (JobExec.save_entry e d).2 = <[m_TimeStamp e := (Save_file e).2]> d.
Proof.
  intros Hs Hdata Hstr. unfold JobExec.save_entry, Save. rewrite Hs.
  pose proof (Save_file_Ok e Hdata Hstr) as Hok.
  destruct (Save_file e) as [ok F]. cbn [fst snd] in *. subst ok.
  split; [|done].
  case_bool_decide; [done|].
  destruct e; cbn in *. by subst.
Qed.


(** X8.  Executing a [save_to_disk] job a second time changes nothing: neither
    the entry nor the directory. *)
Theorem save_to_disk_twice (r : ref) (heap : list history_entry) (d : disk) :
  let once := JobExec.Execute (save_to_disk r) heap d in
  JobExec.Execute (save_to_disk r) once.1 once.2 = once.
Proof.
  cbn zeta. unfold JobExec.Execute.
  destruct (heap !! r) as [e|] eqn:Hr.
  - assert (Hlt : (r < length heap)%nat) by (by eapply lookup_lt_Some).
    unfold JobExec.save_entry, Save.
    destruct (m_bHasBeenSaved e) eqn:Hs.
    + cbn [fst snd]. rewrite list_lookup_insert_eq by done. rewrite Hs.
      by rewrite list_insert_insert_eq.
    + destruct (Save_file e) as [ok F] eqn:HF. destruct ok; cbn [fst snd].
      * rewrite list_lookup_insert_eq by done. cbn [set_bHasBeenSaved m_bHasBeenSaved].
        by rewrite list_insert_insert_eq.
      * rewrite list_lookup_insert_eq by done. rewrite Hs, HF.
        by rewrite list_insert_insert_eq, insert_insert_eq.
  - cbn [fst snd]. by rewrite Hr.
Qed.


(** ** [load_entries]: the key data alone *)

Lemma load_entry_of_file (Entry Target : history_entry) (files : disk) :
  fits_file Entry →
  files !! m_TimeStamp Target = Some (Save_file Entry).2 →
  JobExec.load_entry Target files
  = HistoryEntry (m_UserID Entry) (m_TimeStamp Entry) (m_CommandString Entry)
      (m_CacheUndoData Target) (m_bHasBeenSaved Target).
Proof.
  intros (Hdata & Hstr & Huser & Hts) Hfile.
  unfold JobExec.load_entry, Load, stored. rewrite Hfile, (Save_file_layout Entry Hdata Hstr).
  remember (m_CacheUndoData Entry) as data eqn:Edata.
  set (str := String.list_byte_of_string (m_CommandString Entry)).
  assert (H4 : ∀ v, length (le_bytes 4 v) = 4%nat) by (intros; apply length_le_bytes).
  assert (H8 : ∀ v, length (le_bytes 8 v) = 8%nat) by (intros; apply length_le_bytes).
  assert (Hne4 : ∀ v, bool_decide (le_bytes 4 v ≠ []) = true)
    by (intros v; by apply bool_decide_eq_true_2).
  assert (Hne8 : ∀ v, bool_decide (le_bytes 8 v ≠ []) = true)
    by (intros v; by apply bool_decide_eq_true_2).
  rewrite <- (H4 (u32 (Z.of_nat (length data)))) at 1.
  rewrite fread_app, Hne4.
  rewrite filled_whole by reflexivity.
  rewrite le_value_u32 by lia. rewrite Nat2Z.id.
  rewrite drop_app_length.
  rewrite <- (H4 (u32 (m_UserID Entry))) at 1. rewrite fread_app, Hne4.
  rewrite <- (H8 (m_TimeStamp Entry)) at 1. rewrite fread_app, Hne8.
  rewrite <- (H4 (u32 (Z.of_nat (String.length (m_CommandString Entry))))) at 1.
  rewrite fread_app, Hne4.
  rewrite filled_whole by reflexivity.
  rewrite le_value_u32 by lia. rewrite Nat2Z.id.
  rewrite <- (length_list_byte_of_string (m_CommandString Entry)).
  fold str. rewrite <- (app_nil_r str) at 2. rewrite fread_app.
  cbn [snd]. unfold set_CommandString, set_TimeStamp, set_UserID.
  cbn [m_UserID m_TimeStamp m_CommandString m_CacheUndoData m_bHasBeenSaved].
  rewrite !filled_whole by reflexivity.
  f_equal.
  - rewrite le_value_le_bytes. change (256 ^ Z.of_nat 4) with (2 ^ 32).
    unfold u32 at 1. rewrite Z.mod_mod by lia. by apply to_int32_u32.
  - rewrite le_value_le_bytes. change (256 ^ Z.of_nat 8) with (2 ^ 64).
    by apply Z.mod_small.
  - subst str. apply String.string_of_list_byte_of_string.
Qed.


(** X9.  An entry written by [Save] and read back by the [load_entries] job
    ([Load] with [bLoadKeyData] only, which skips the undo data with
    [fseek]) has the user id, the timestamp and the command string that were
    saved; its cache and its [m_bHasBeenSaved] are left as they were. *)
Theorem load_entries_of_Save (Entry Target : history_entry) (d : disk) :
  Z.of_nat (length (m_CacheUndoData Entry)) < 2 ^ 32 →
  Z.of_nat (String.length (m_CommandString Entry)) < 2 ^ 32 →
  - 2 ^ 31 <= m_UserID Entry < 2 ^ 31 →
  0 <= m_TimeStamp Entry < 2 ^ 64 →
  m_TimeStamp Target = m_TimeStamp Entry →
  JobExec.load_entry Target (Save Entry d).2
  = HistoryEntry (m_UserID Entry) (m_TimeStamp Entry) (m_CommandString Entry)
      (m_CacheUndoData Target) (m_bHasBeenSaved Target).
Proof.
  intros Hdata Hstr Huser Hts Hname.
  apply load_entry_of_file; [done|].
  unfold Save. destruct (Save_file Entry) as [ok File]. cbn [snd].
  by rewrite Hname, lookup_insert_eq.
Qed.



End SaveLoad.

(** ** Outcomes *)

Lemma bind_Returns {A B} (m : outcome A) (f : A → outcome B) (b : B) :
  m ≫= f = Returns b → ∃ a, m = Returns a ∧ f a = Returns b.
Proof. destruct m; simpl; intros H; try discriminate. eauto. Qed.

Lemma returns_value_or {A} (d : A) (o : outcome A) :
  returns o = true → o = Returns (value_or d o).
Proof. by destruct o. Qed.

Lemma returns_pair {A B} (d : A * B) (o : outcome (A * B)) (a : A) :
  returns o = true → (value_or d o).1 = a → o = Returns (a, (value_or d o).2).
Proof. destruct o as [[a' b]| | |]; simpl; try done. by intros _ ->. Qed.

Lemma bind_not_NullCommand {A B} (m : outcome A) (f : A → outcome B) :
  m ≠ NullCommand → (∀ a, f a ≠ NullCommand) → m ≫= f ≠ NullCommand.
Proof. destruct m; simpl; intros H1 H2; congruence || apply H2. Qed.

Lemma assert_Returns (b : bool) (u : unit) : assert b = Returns u → b = true.
Proof. by destruct b. Qed.

Lemma in_range_Returns {A} (o : option A) (a : A) :
  in_range o = Returns a → o = Some a.
Proof. destruct o; simpl; congruence. Qed.

(** ** The engine: what [UpdateLRU] leaves alone *)

Section EngineFacts.
Context {parser D : Type} {stack : uninitialised}.
Implicit Types s : system parser D.

Lemma frame_fields s s' :
  frame s' = frame s →
  m_UndoIndex s' = m_UndoIndex s ∧ m_History s' = m_History s
  ∧ m_Commands s' = m_Commands s ∧ m_UndoPath s' = m_UndoPath s
  ∧ m_MaxCachedSteps s' = m_MaxCachedSteps s
  ∧ m_LookAheadSteps s' = m_LookAheadSteps s
  ∧ m_Done s' = m_Done s ∧ m_CommandCounter s' = m_CommandCounter s
  ∧ Files s' = Files s ∧ DataBase s' = DataBase s.
Proof.
  intros H. destruct s, s'. unfold frame in H. simpl in H.
  injection H as -> -> -> -> -> -> -> -> -> -> -> -> ->. simpl.
  by repeat split.
Qed.

Lemma frame_path_empty s s' : frame s' = frame s → path_empty s' = path_empty s.
Proof. intros H. apply frame_fields in H. unfold path_empty. by destruct H as (_&_&_&->&_). Qed.

Lemma length_evict n lru heap : length (evict n lru heap).2 = length heap.
Proof.
  revert heap. induction lru as [|r lru IH]; intros heap; simpl; [done|].
  case_bool_decide; [|done]. by rewrite IH, length_alter.
Qed.

Lemma after_eviction_frame s : frame (after_eviction s) = frame s.
Proof. unfold after_eviction. by destruct (evict _ _ _). Qed.

Lemma warm_inv pos s s' :
  warm pos s = Returns s' →
  s' = s ∨ ∃ r e, m_History s !! pos = Some r ∧ Heap s !! r = Some e
              ∧ cache_empty e = true
              ∧ s' = set_LRU (m_LRU s ++ [r]) (PushJob (warmup_cache r) s).
Proof.
  unfold warm, history_at. intros H.
  destruct (m_History s !! pos) as [r|] eqn:Hr; simpl in H; [|discriminate].
  destruct (Heap s !! r) as [e|] eqn:He; simpl in H; [|discriminate].
  destruct (cache_empty e) eqn:E; injection H as <-; [right | by left].
  by exists r, e.
Qed.

Lemma warm_frame pos s s' :
  warm pos s = Returns s' → frame s' = frame s ∧ Heap s' = Heap s.
Proof.
  intros H. apply warm_inv in H as [-> | (r & e & _ & _ & _ & ->)]; done.
Qed.

Lemma look_ahead_step_frame i s s' :
  look_ahead_step i s = Returns s' → frame s' = frame s ∧ Heap s' = Heap s.
Proof.
  unfold look_ahead_step. intros H.
  apply bind_Returns in H as (s1 & H1 & H).
  assert (frame s1 = frame s ∧ Heap s1 = Heap s) as [Hf Hh].
  { destruct (bool_decide (i ≤ m_UndoIndex s)%nat);
      [by eapply warm_frame | by injection H1 as <-]. }
  rewrite <- Hf, <- Hh.
  destruct (bool_decide (m_UndoIndex s1 + i < length (m_History s1))%nat);
    [by eapply warm_frame | by injection H as <-].
Qed.

Lemma look_ahead_frame steps s s' :
  look_ahead steps s = Returns s' → frame s' = frame s ∧ Heap s' = Heap s.
Proof.
  revert s. induction steps as [|i steps IH]; intros s H; simpl in H.
  - by injection H as <-.
  - case_bool_decide; [| by injection H as <-].
    apply bind_Returns in H as (s1 & H1 & H).
    apply look_ahead_step_frame in H1 as [<- <-]. by apply IH.
Qed.

Lemma UpdateLRU_frame s s' : UpdateLRU s = Returns s' → frame s' = frame s.
Proof.
  unfold UpdateLRU. intros H. case_bool_decide; [by injection H as <-|].
  apply bind_Returns in H as (_ & _ & H).
  apply look_ahead_frame in H as [-> _].
  apply after_eviction_frame.
Qed.

Lemma UpdateLRU_length_Heap s s' :
  UpdateLRU s = Returns s' → length (Heap s') = length (Heap s).
Proof.
  unfold UpdateLRU. intros H. case_bool_decide; [by injection H as <-|].
  apply bind_Returns in H as (_ & _ & H).
  apply look_ahead_frame in H as [_ ->].
  unfold after_eviction.
  pose proof (length_evict (m_MaxCachedSteps s - m_LookAheadSteps s * 2 - 1)
                (m_LRU s) (Heap s)) as Hl.
  by destruct (evict _ _ _).
Qed.

(** ** [PruneHistory] and the recording half of [Execute] *)

Lemma mapM_Returns {A B} (f : A → outcome B) (l : list A) (ys : list B) :
  mapM f l = Returns ys → Forall2 (λ x y, f x = Returns y) l ys.
Proof.
  revert ys. induction l as [|x l IH]; intros ys H; simpl in H.
  - injection H as <-. constructor.
  - apply bind_Returns in H as (y & Hy & H).
    apply bind_Returns in H as (ys' & Hys & H).
    injection H as <-. constructor; [done | by apply IH].
Qed.

Lemma PruneHistory_Returns s s' :
  PruneHistory s = Returns s' →
  ∃ jobs,
    s' = set_History (take (m_UndoIndex s) (m_History s))
           (set_IOQueue (m_IOQueue s ++ jobs) s)
    ∧ ((length (m_History s) ≤ m_UndoIndex s)%nat ∧ jobs = []
       ∨ (m_UndoIndex s < length (m_History s))%nat
         ∧ ∃ TimeStamps,
             stamps_of (Heap s) (drop (m_UndoIndex s) (m_History s)) TimeStamps
             ∧ jobs = if path_empty s then [] else [delete_entries TimeStamps]).
Proof.
  unfold PruneHistory. intros H. case_bool_decide as Hlen.
  - injection H as <-. exists []. split; [|by left].
    rewrite take_ge by done. rewrite app_nil_r. by destruct s.
  - apply bind_Returns in H as (ts & Hts & H). injection H as <-.
    exists (if path_empty s then [] else [delete_entries ts]). split.
    + destruct (path_empty s); [|done]. rewrite app_nil_r. by destruct s.
    + right. split; [lia|]. exists ts. split; [|done].
      apply mapM_Returns in Hts. eapply Forall2_impl; [exact Hts|].
      intros r t Hr. simpl in Hr.
      destruct (Heap s !! r) as [e|]; simpl in Hr; [|discriminate].
      injection Hr as <-. by exists e.
Qed.

Lemma PruneHistory_not_NullCommand s : PruneHistory s ≠ NullCommand.
Proof.
  unfold PruneHistory. case_bool_decide; [done|].
  apply bind_not_NullCommand; [|done].
  induction (drop (m_UndoIndex s) (m_History s)) as [|r l IH]; simpl; [done|].
  apply bind_not_NullCommand.
  - by destruct (Heap s !! r).
  - intros t. apply bind_not_NullCommand; done.
Qed.

(** The state [record_entry] hands to [UpdateLRU] or returns. *)
Lemma record_entry_Returns Entry s s' :
  record_entry Entry s = Returns s' →
  frame s' =
    frame (set_UndoIndex (m_UndoIndex s + 1)
             (set_History (take (m_UndoIndex s) (m_History s) ++ [length (Heap s)]) s)).
Proof.
  unfold record_entry. intros H.
  apply bind_Returns in H as (s1 & Hp & H).
  apply PruneHistory_Returns in Hp as (jobs & -> & _).
  unfold alloc in H. simpl in H.
  destruct (path_empty _) in H; simpl in H.
  - by injection H as <-.
  - apply UpdateLRU_frame in H. by rewrite H.
Qed.

(** ** Failing calls of [Execute] *)

(** C3.  [Execute] on a name that is not registered returns exactly
    ["Unable find the command: <name>"]; when the command's parser reports an
    error, [Execute] (in either form) returns that error; when the command's
    [Redo] returns a non-empty error, [Execute] returns it.  In all three
    cases the history, the cursor, the entries, the job queue and the LRU
    list are as before the call: no entry is appended. *)
Theorem Execute_failure_keeps_history (Cmd : command_base parser D)
    (cmd_str : string) (UserID now_ms : Z) s :
  m_Done s = false →
  let name := getCommandName cmd_str in
  let err := (Cmd.Parse Cmd cmd_str).1 in
  let p := (Cmd.Parse Cmd cmd_str).2 in
  let Err := (Cmd.Redo Cmd p (DataBase s)).1 in
  (m_Commands s !! name = None →
     Execute cmd_str UserID now_ms s
     = Returns ("Unable find the command: " +:+ name, s))
  ∧ ∀ run,
      run = ExecuteCmd Cmd cmd_str UserID now_ms s
      ∨ (m_Commands s !! name = Some Cmd ∧ run = Execute cmd_str UserID now_ms s) →
      (err ≠ "" → run = Returns (err, s))
      ∧ (err = "" → Cmd.hasHelp Cmd p = false → Err ≠ "" →
         ∃ s', run = Returns (Err, s')
               ∧ m_History s' = m_History s
               ∧ m_UndoIndex s' = m_UndoIndex s
               ∧ Heap s' = Heap s
               ∧ m_IOQueue s' = m_IOQueue s
               ∧ m_LRU s' = m_LRU s).
Proof.
  intros Hdone name err p Err. split.
  - intros Hnone. unfold Execute. rewrite Hdone. simpl. fold name. by rewrite Hnone.
  - intros run Hrun.
    assert (run = ExecuteCmd Cmd cmd_str UserID now_ms s) as ->.
    { destruct Hrun as [-> | [Hsome ->]]; [done|].
      unfold Execute. rewrite Hdone. simpl. fold name. by rewrite Hsome. }
    unfold ExecuteCmd. rewrite Hdone. simpl.
    subst err p Err. destruct (Cmd.Parse Cmd cmd_str) as [err p]. simpl.
    split.
    + intros Herr. by rewrite bool_decide_eq_false_2.
    + intros -> Hhelp HErr. simpl. rewrite Hhelp.
      destruct (Cmd.Redo Cmd p (DataBase s)) as [Err db]. simpl in *.
      rewrite bool_decide_eq_false_2 by done. simpl. eauto 10.
Qed.

(** ** The command lookup of [Undo] and [Redo] *)

Lemma history_at_not_NullCommand i s : history_at i s ≠ NullCommand.
Proof.
  unfold history_at. destruct (m_History s !! i) as [r|]; simpl; [|done].
  by destruct (Heap s !! r).
Qed.

Lemma history_at_Some i s r e :
  m_History s !! i = Some r → Heap s !! r = Some e → history_at i s = Returns (r, e).
Proof. intros Hr He. unfold history_at. rewrite Hr. simpl. by rewrite He. Qed.

Lemma warm_not_NullCommand pos s : warm pos s ≠ NullCommand.
Proof.
  unfold warm. apply bind_not_NullCommand; [apply history_at_not_NullCommand|].
  intros [r e]. by destruct (cache_empty e).
Qed.

Lemma look_ahead_not_NullCommand steps s : look_ahead steps s ≠ NullCommand.
Proof.
  revert s. induction steps as [|i steps IH]; intros s; simpl; [done|].
  case_bool_decide; [|done].
  apply bind_not_NullCommand; [|done].
  unfold look_ahead_step. apply bind_not_NullCommand.
  - case_bool_decide; [apply warm_not_NullCommand | done].
  - intros s1. case_bool_decide; [apply warm_not_NullCommand | done].
Qed.

Lemma UpdateLRU_not_NullCommand s : UpdateLRU s ≠ NullCommand.
Proof.
  unfold UpdateLRU. case_bool_decide; [done|].
  apply bind_not_NullCommand; [by destruct (bool_decide _) | intros _].
  apply look_ahead_not_NullCommand.
Qed.

(** C10.  [Undo] (with the cursor above 0) and [Redo] (with the cursor
    below the history's size) subscript [m_Commands] with the name taken
    from the target entry's command string and use what they find without
    a check.  For a name that is not registered neither call returns:
    [Redo] ends in the null dereference, and so does [Undo] unless one of
    its two [assert]s on the entry's cache fails first (the cache is empty
    and there is no path, or it is still empty after the warm-up).  For a
    registered name the null dereference cannot occur. *)
Theorem Undo_Redo_lookup_unchecked s :
  m_Done s = false →
  (∀ r e, (0 < m_UndoIndex s)%nat →
     m_History s !! (m_UndoIndex s - 1)%nat = Some r → Heap s !! r = Some e →
     let name := getCommandName (m_CommandString e) in
     (Undo s = NullCommand
      ↔ m_Commands s !! name = None
        ∧ (cache_empty e = false
           ∨ path_empty s = false
             ∧ cache_empty (JobExec.warmup_entry e (Files s)) = false))
     ∧ (m_Commands s !! name = None →
        Undo s = NullCommand ∨ Undo s = AssertFails))
  ∧ (∀ r e, m_History s !! m_UndoIndex s = Some r → Heap s !! r = Some e →
     (Redo s = NullCommand
      ↔ m_Commands s !! getCommandName (m_CommandString e) = None)).
Proof.
  intros Hdone. split.
  - intros r e Hpos Hr He name.
    pose proof (lookup_lt_Some _ _ _ He) as Hlt.
    set (i := (m_UndoIndex s - 1)%nat) in *.
    set (e1 := JobExec.warmup_entry e (Files s)).
    assert (HU : Undo s =
      s1 ← (if cache_empty e then
              _ ← assert (negb (path_empty s));
              _ ← assert (negb (cache_empty e1));
              Returns (set_Heap (<[r := e1]> (Heap s)) (set_UndoIndex i s), e1)
            else Returns (set_UndoIndex i s, e));
      Cmd ← registered (m_Commands s !! name);
      db ← asserted (Cmd.Undo Cmd (UndoFile (m_CacheUndoData s1.2) 0) (DataBase s));
      let u := set_DataBase db s1.1 in
      if negb (path_empty s) then UpdateLRU (set_LRU (m_LRU s ++ [r]) u)
      else Returns u).
    { unfold Undo. rewrite Hdone. simpl.
      rewrite bool_decide_eq_false_2 by lia. fold i.
      rewrite (history_at_Some i (set_UndoIndex i s) r e Hr He). simpl.
      destruct (cache_empty e) eqn:Hc; simpl.
      - change (path_empty (set_UndoIndex i s)) with (path_empty s).
        destruct (path_empty s) eqn:Hpath; simpl; [done|].
        assert (Hrun : run_now (warmup_cache r) (set_UndoIndex i s)
                       = set_Heap (<[r := e1]> (Heap s)) (set_UndoIndex i s)).
        { assert (Halter : alter (λ e, JobExec.warmup_entry e (Files s)) r (Heap s)
                           = <[r := e1]> (Heap s)).
          { apply list_eq. intros j. rewrite list_lookup_alter, list_lookup_insert.
            destruct (decide (r = j)) as [->|]; [|by rewrite decide_False by tauto].
            rewrite decide_True by done. by rewrite He. }
          unfold run_now. simpl. by rewrite Halter. }
        rewrite Hrun.
        assert (Hat : history_at i (set_Heap (<[r := e1]> (Heap s)) (set_UndoIndex i s))
                      = Returns (r, e1)).
        { apply history_at_Some; [done|]. simpl. by apply list_lookup_insert_eq. }
        change (m_UndoIndex (set_Heap _ (set_UndoIndex i s))) with i.
        rewrite Hat. simpl. destruct (cache_empty e1); simpl; [done|].
        rewrite Hat. simpl. unfold name.
        destruct (m_Commands s !! _) as [Cmd|]; simpl; [|done].
        destruct (Cmd.Undo Cmd _ _) as [db|]; simpl; [|done].
        change (path_empty (set_DataBase db _)) with (path_empty s). by rewrite Hpath.
      - rewrite (history_at_Some i (set_UndoIndex i s) r e Hr He). simpl. unfold name.
        destruct (m_Commands s !! _) as [Cmd|]; simpl; [|done].
        by destruct (Cmd.Undo Cmd _ _) as [db|]. }
    assert (Hnot : ∀ (Cmd : command_base parser D) (e' : history_entry) (u : system parser D),
      (db ← asserted (Cmd.Undo Cmd (UndoFile (m_CacheUndoData e') 0) (DataBase s));
       let u := set_DataBase db u in
       if negb (path_empty s) then UpdateLRU (set_LRU (m_LRU s ++ [r]) u)
       else Returns u) ≠ NullCommand).
    { intros Cmd e' u. apply bind_not_NullCommand; [by destruct (Cmd.Undo Cmd _ _)|].
      intros db. cbv zeta. destruct (negb _); [apply UpdateLRU_not_NullCommand | done]. }
    rewrite HU. clear HU.
    destruct (m_Commands s !! name) as [Cmd|] eqn:Hcmd.
    + split; [|done]. split; [|by intros [? _]].
      intros H. exfalso. revert H.
      destruct (cache_empty e); simpl.
      * destruct (path_empty s); simpl; [done|].
        destruct (cache_empty e1); simpl; [done|]. apply Hnot.
      * apply Hnot.
    + destruct (cache_empty e); simpl.
      * destruct (path_empty s); simpl.
        { split; [|by right]. split; [done|]. intros [_ [? | [? _]]]; done. }
        destruct (cache_empty e1); simpl.
        { split; [|by right]. split; [done|]. intros [_ [? | [_ ?]]]; done. }
        split; [|by left]. split; [|done]. intros _. split; [done|]. by right.
      * split; [|by left]. split; [|done]. intros _. split; [done|]. by left.
  - intros r e Hr He. unfold Redo. rewrite Hdone. simpl.
    rewrite bool_decide_eq_false_2 by (apply lookup_lt_Some in Hr; lia).
    rewrite (history_at_Some _ s r e Hr He). simpl.
    destruct (m_Commands s !! getCommandName (m_CommandString e)) as [Cmd|];
      simpl; [|done].
    split; [|done]. intros H. exfalso. revert H.
    destruct (Cmd.Parse Cmd (m_CommandString e)) as [Err p].
    destruct (negb (bool_decide (Err = ""))); [done|].
    destruct (Cmd.Redo Cmd p (DataBase s)) as [Err' db].
    destruct (negb (bool_decide (Err' = ""))); [done|].
    apply bind_not_NullCommand; [|done].
    destruct (negb _); [apply UpdateLRU_not_NullCommand | done].
Qed.

(** ** Successful calls of [Execute] *)

Lemma executes_typed Cmd cmd_str UserID now_ms s run :
  executes Cmd cmd_str UserID now_ms s run →
  run = ExecuteCmd Cmd cmd_str UserID now_ms s.
Proof.
  intros [-> | [Hsome ->]]; [done|]. unfold Execute, ExecuteCmd.
  destruct (negb (m_Done s)); simpl; [|done]. by rewrite Hsome.
Qed.

(** A call of the typed [Execute] that returns the empty string either saw
    the help flag and changed nothing, or recorded the entry it made. *)
Lemma ExecuteCmd_success Cmd cmd_str UserID now_ms s s' :
  ExecuteCmd Cmd cmd_str UserID now_ms s = Returns ("", s') →
  let p := (Cmd.Parse Cmd cmd_str).2 in
  (Cmd.Parse Cmd cmd_str).1 = ""
  ∧ if Cmd.hasHelp Cmd p then s' = s
    else (Cmd.Redo Cmd p (DataBase s)).1 = ""
         ∧ record_entry (make_entry Cmd p cmd_str UserID now_ms s)
             (set_DataBase (Cmd.Redo Cmd p (DataBase s)).2
                (set_CommandCounter (Bytes.u64 (m_CommandCounter s + 1)) s))
           = Returns s'.
Proof.
  unfold ExecuteCmd. intros H. apply bind_Returns in H as (_ & _ & H).
  destruct (Cmd.Parse Cmd cmd_str) as [err p]. simpl.
  case_bool_decide as Herr; simpl in H.
  2:{ injection H as -> _. done. }
  split; [done|]. destruct (Cmd.hasHelp Cmd p).
  { by injection H as <-. }
  simpl in H. destruct (Cmd.Redo Cmd p (DataBase s)) as [Err db]. simpl.
  case_bool_decide as HErr; simpl in H.
  2:{ injection H as -> _. done. }
  split; [done|].
  apply bind_Returns in H as (s1 & Hrec & H). by injection H as <-.
Qed.

(** C1, as the code has it.  When [Execute] (typed or dispatch form)
    returns the empty string, either the help flag was present and nothing
    was recorded (the state is unchanged), or the cursor has advanced by one
    and equals the size of the history.  The history is then longer than
    before exactly when the call started with the cursor at the end of the
    history; otherwise the redo tail has been pruned first. *)
Theorem Execute_success_cursor (Cmd : command_base parser D)
    (cmd_str : string) (UserID now_ms : Z) s s' run :
  (m_UndoIndex s ≤ length (m_History s))%nat →
  executes Cmd cmd_str UserID now_ms s run →
  run = Returns ("", s') →
  if Cmd.hasHelp Cmd (Cmd.Parse Cmd cmd_str).2 then s' = s
  else m_UndoIndex s' = length (m_History s')
       ∧ m_UndoIndex s' = S (m_UndoIndex s)
       ∧ ((length (m_History s) < length (m_History s'))%nat
          ↔ m_UndoIndex s = length (m_History s)).
Proof.
  intros Hwf Hrun Hret. apply executes_typed in Hrun. subst run.
  apply ExecuteCmd_success in Hret as [_ Hret].
  destruct (Cmd.hasHelp Cmd _); [done|].
  destruct Hret as [_ Hrec].
  apply record_entry_Returns, frame_fields in Hrec as (Hi & Hh & _).
  simpl in Hi, Hh. rewrite Hi, Hh, length_app, length_take. simpl. lia.
Qed.

(** ** [UpdateLRU]: the look-ahead loop *)

Lemma length_step_targets hist heap idx i :
  (length (step_targets hist heap idx i) ≤ 2)%nat.
Proof.
  unfold step_targets, target_at. rewrite length_app.
  repeat (case_bool_decide || case_match); simpl; lia.
Qed.

Lemma warm_eq pos s s' :
  warm pos s = Returns s' →
  m_LRU s' = m_LRU s ++ target_at (m_History s) (Heap s) pos
  ∧ m_IOQueue s' = m_IOQueue s ++ (warmup_cache <$> target_at (m_History s) (Heap s) pos).
Proof.
  intros H. unfold target_at.
  pose proof H as Hw. unfold warm, history_at in Hw.
  destruct (m_History s !! pos) as [r|] eqn:Hr; simpl in Hw; [|discriminate].
  destruct (Heap s !! r) as [e|] eqn:He; simpl in Hw; [|discriminate].
  destruct (cache_empty e); injection Hw as <-; simpl; by rewrite ?app_nil_r.
Qed.

Lemma look_ahead_step_eq i s s' :
  look_ahead_step i s = Returns s' →
  let added := step_targets (m_History s) (Heap s) (m_UndoIndex s) i in
  m_LRU s' = m_LRU s ++ added
  ∧ m_IOQueue s' = m_IOQueue s ++ (warmup_cache <$> added).
Proof.
  unfold look_ahead_step, step_targets. intros H.
  apply bind_Returns in H as (s1 & H1 & H).
  assert (frame s1 = frame s ∧ Heap s1 = Heap s
          ∧ m_LRU s1 = m_LRU s ++
              (if bool_decide (i ≤ m_UndoIndex s)%nat
               then target_at (m_History s) (Heap s) (m_UndoIndex s - i) else [])
          ∧ m_IOQueue s1 = m_IOQueue s ++ (warmup_cache <$>
              (if bool_decide (i ≤ m_UndoIndex s)%nat
               then target_at (m_History s) (Heap s) (m_UndoIndex s - i) else [])))
    as (Hf & Hh & Hl & Hq).
  { destruct (bool_decide (i ≤ m_UndoIndex s)%nat).
    - pose proof (warm_frame _ _ _ H1) as [? ?].
      pose proof (warm_eq _ _ _ H1) as [? ?]. done.
    - injection H1 as <-. by rewrite !app_nil_r. }
  apply frame_fields in Hf as (Hi & Hhist & _).
  rewrite Hi, Hhist in H. simpl.
  destruct (bool_decide (m_UndoIndex s + i < length (m_History s))%nat).
  - apply warm_eq in H as [-> ->]. rewrite Hl, Hq, Hhist, Hh.
    by rewrite fmap_app, !app_assoc.
  - injection H as <-. rewrite Hl, Hq. simpl. by rewrite !app_nil_r.
Qed.

(** The whole loop, when the list is short enough for its length test to
    hold at every iteration. *)
Lemma look_ahead_eq steps s s' :
  look_ahead steps s = Returns s' →
  (length (m_LRU s) + 2 * length steps ≤ m_MaxCachedSteps s + 1)%nat →
  let added := steps ≫= step_targets (m_History s) (Heap s) (m_UndoIndex s) in
  m_LRU s' = m_LRU s ++ added
  ∧ m_IOQueue s' = m_IOQueue s ++ (warmup_cache <$> added).
Proof.
  revert s. induction steps as [|i steps IH]; intros s H Hlen; simpl in H.
  - injection H as <-. simpl. by rewrite !app_nil_r.
  - simpl in Hlen. rewrite bool_decide_eq_true_2 in H by lia.
    apply bind_Returns in H as (s1 & H1 & H).
    pose proof (look_ahead_step_frame _ _ _ H1) as [Hf Hh].
    apply frame_fields in Hf as (Hi & Hhist & _ & _ & Hmax & _).
    apply look_ahead_step_eq in H1 as [Hl Hq].
    apply IH in H as [-> ->].
    + intros added. subst added.
      rewrite Hl, Hq, Hi, Hhist, Hh, bind_cons, fmap_app, !app_assoc. done.
    + rewrite Hl, length_app, Hmax.
      pose proof (length_step_targets (m_History s) (Heap s) (m_UndoIndex s) i). lia.
Qed.

Lemma length_after_eviction s :
  (length (m_LRU (after_eviction s))
   ≤ m_MaxCachedSteps s - m_LookAheadSteps s * 2 - 1)%nat.
Proof.
  unfold after_eviction.
  set (n := (m_MaxCachedSteps s - m_LookAheadSteps s * 2 - 1)%nat).
  assert (length (evict n (m_LRU s) (Heap s)).1 ≤ n)%nat as Hn.
  { clear. generalize (Heap s). induction (m_LRU s) as [|r lru IH]; intros heap; simpl.
    - lia.
    - case_bool_decide; [apply IH | simpl in *; lia]. }
  by destruct (evict _ _ _).
Qed.

(** [UpdateLRU] on a non-empty history: the eviction loop followed by the
    look-ahead loop, with what the latter adds. *)
Lemma UpdateLRU_eq s s' :
  UpdateLRU s = Returns s' → m_History s ≠ [] →
  let s1 := after_eviction s in
  let added := seq 1 (m_LookAheadSteps s)
               ≫= step_targets (m_History s) (Heap s1) (m_UndoIndex s) in
  (m_LookAheadSteps s * 2 + 1 < m_MaxCachedSteps s)%nat
  ∧ Heap s' = Heap s1
  ∧ m_LRU s' = m_LRU s1 ++ added
  ∧ m_IOQueue s' = m_IOQueue s ++ (warmup_cache <$> added).
Proof.
  unfold UpdateLRU. intros H Hne. rewrite bool_decide_eq_false_2 in H by done.
  apply bind_Returns in H as (u & Ha & H). apply assert_Returns in Ha.
  apply bool_decide_eq_true_1 in Ha.
  pose proof (after_eviction_frame s) as Hf.
  apply frame_fields in Hf as (Hi & Hhist & _ & _ & Hmax & Hla & _).
  pose proof (length_after_eviction s) as Hlen.
  pose proof (look_ahead_frame _ _ _ H) as [_ Hheap].
  apply look_ahead_eq in H.
  2:{ rewrite length_seq, Hmax. lia. }
  simpl in H. rewrite Hi, Hhist in H. destruct H as [Hl Hq].
  repeat split; [lia | done | done |].
  rewrite Hq. unfold after_eviction. by destruct (evict _ _ _).
Qed.

Lemma elem_of_target_at hist heap pos r :
  r ∈ target_at hist heap pos
  ↔ hist !! pos = Some r ∧ ∃ e, heap !! r = Some e ∧ m_CacheUndoData e = [].
Proof.
  unfold target_at, cache_empty. split.
  - destruct (hist !! pos) as [r'|]; [|by intros ?%elem_of_nil].
    destruct (heap !! r') as [e|] eqn:He; [|by intros ?%elem_of_nil].
    case_bool_decide; [|by intros ?%elem_of_nil].
    intros ->%list_elem_of_singleton. eauto.
  - intros [-> (e & -> & He)]. rewrite bool_decide_eq_true_2 by done.
    by apply list_elem_of_singleton.
Qed.

Lemma elem_of_step_targets hist heap idx i r :
  r ∈ step_targets hist heap idx i
  ↔ ∃ pos, (pos + i = idx ∨ pos = idx + i)%nat
           ∧ hist !! pos = Some r
           ∧ ∃ e, heap !! r = Some e ∧ m_CacheUndoData e = [].
Proof.
  unfold step_targets. rewrite elem_of_app. split.
  - intros [H | H].
    + case_bool_decide; [|by apply elem_of_nil in H].
      apply elem_of_target_at in H. exists (idx - i)%nat. split; [lia | done].
    + case_bool_decide; [|by apply elem_of_nil in H].
      apply elem_of_target_at in H. exists (idx + i)%nat. split; [lia | done].
  - intros (pos & [Hpos | ->] & Hr & He).
    + left. rewrite bool_decide_eq_true_2 by lia.
      apply elem_of_target_at. replace (idx - i)%nat with pos by lia. done.
    + right. rewrite bool_decide_eq_true_2 by (by apply lookup_lt_Some in Hr).
      by apply elem_of_target_at.
Qed.

(** C9, as the code has it.  In a call of [UpdateLRU] that reaches the
    look-ahead loop, for each [i] from 1 to [m_LookAheadSteps] the entry at
    position [m_UndoIndex - i] and the entry at position [m_UndoIndex + i]
    (not [m_UndoIndex + i - 1]) get a [warmup_cache] job and a place in the
    LRU list when the position is in the history and the entry's cache is
    empty once the eviction loop is over; nothing else is queued or added.
    The call appends these jobs to the queue it found and these entries to
    the LRU list the eviction loop left, one for each such position, in the
    order of the loop (for each [i], position [m_UndoIndex - i] and then
    position [m_UndoIndex + i]). *)
Theorem UpdateLRU_look_ahead_positions s s' :
  UpdateLRU s = Returns s' → m_History s ≠ [] →
  let s1 := after_eviction s in
  let empty_at pos r :=
    m_History s !! pos = Some r
    ∧ ∃ e, Heap s1 !! r = Some e ∧ m_CacheUndoData e = [] in
  let near pos :=
    ∃ i, (1 ≤ i ≤ m_LookAheadSteps s)%nat
         ∧ (pos + i = m_UndoIndex s ∨ pos = m_UndoIndex s + i)%nat in
  let added := seq 1 (m_LookAheadSteps s)
               ≫= step_targets (m_History s) (Heap s1) (m_UndoIndex s) in
  (m_IOQueue s' = m_IOQueue s ++ (warmup_cache <$> added)
   ∧ m_LRU s' = m_LRU s1 ++ added
   ∧ ∀ r, r ∈ added ↔ ∃ pos, near pos ∧ empty_at pos r)
  ∧ (∀ pos r, near pos → empty_at pos r →
     warmup_cache r ∈ m_IOQueue s' ∧ r ∈ m_LRU s')
  ∧ (∀ j, j ∈ m_IOQueue s' →
       j ∈ m_IOQueue s ∨ ∃ pos r, near pos ∧ empty_at pos r ∧ j = warmup_cache r)
  ∧ (∀ r, r ∈ m_LRU s' → r ∈ m_LRU s1 ∨ ∃ pos, near pos ∧ empty_at pos r).
Proof.
  intros H Hne s1 empty_at near added.
  destruct (UpdateLRU_eq _ _ H Hne) as (_ & _ & Hl & Hq). fold s1 in Hl, Hq.
  fold added in Hl, Hq.
  assert (Hadded : ∀ r, r ∈ added ↔ ∃ pos, near pos ∧ empty_at pos r).
  { intros r. unfold added. rewrite list_elem_of_bind. split.
    - intros (i & Hr & Hi). apply elem_of_seq in Hi.
      apply elem_of_step_targets in Hr as (pos & Hpos & Hr).
      exists pos. split; [|done]. exists i. split; [lia | done].
    - intros (pos & (i & Hi & Hpos) & Hr). exists i. split.
      + apply elem_of_step_targets. by exists pos.
      + apply elem_of_seq. lia. }
  split; [done|].
  repeat split.
  - rewrite Hq, elem_of_app. right. apply list_elem_of_fmap.
    exists r. split; [done|]. apply Hadded. eauto.
  - rewrite Hl, elem_of_app. right. apply Hadded. eauto.
  - intros j. rewrite Hq, elem_of_app. intros [Hj | Hj]; [by left | right].
    apply list_elem_of_fmap in Hj as (r & -> & Hr).
    apply Hadded in Hr as (pos & Hpos & Hr). eauto.
  - intros r. rewrite Hl, elem_of_app. intros [Hr | Hr]; [by left | right].
    by apply Hadded.
Qed.

(** ** The public operations, case by case *)

Lemma history_at_Returns i s r e :
  history_at i s = Returns (r, e) → m_History s !! i = Some r ∧ Heap s !! r = Some e.
Proof.
  unfold history_at. intros H.
  destruct (m_History s !! i) as [r'|]; simpl in H; [|discriminate].
  destruct (Heap s !! r') as [e'|] eqn:He; simpl in H; [|discriminate].
  injection H as -> ->. done.
Qed.

(** A call of the typed [Execute] that returns. *)
Lemma ExecuteCmd_Returns Cmd cmd_str UserID now_ms s err s' :
  ExecuteCmd Cmd cmd_str UserID now_ms s = Returns (err, s') →
  let p := (Cmd.Parse Cmd cmd_str).2 in
  let s1 := set_DataBase (Cmd.Redo Cmd p (DataBase s)).2
              (set_CommandCounter (Bytes.u64 (m_CommandCounter s + 1)) s) in
  m_Done s = false
  ∧ (s' = s
     ∨ err ≠ "" ∧ s' = s1
     ∨ err = "" ∧ (Cmd.Parse Cmd cmd_str).1 = "" ∧ Cmd.hasHelp Cmd p = false
       ∧ (Cmd.Redo Cmd p (DataBase s)).1 = ""
       ∧ record_entry (make_entry Cmd p cmd_str UserID now_ms s) s1 = Returns s').
Proof.
  unfold ExecuteCmd. intros H. apply bind_Returns in H as (u & Ha & H).
  apply assert_Returns, negb_true_iff in Ha. split; [done|].
  destruct (Cmd.Parse Cmd cmd_str) as [perr p]. simpl.
  case_bool_decide as Herr; simpl in H.
  2:{ left. by injection H as _ <-. }
  destruct (Cmd.hasHelp Cmd p).
  { left. by injection H as _ <-. }
  simpl in H. destruct (Cmd.Redo Cmd p (DataBase s)) as [Err db]. simpl.
  case_bool_decide as HErr; simpl in H.
  2:{ right. left. injection H as <- <-. done. }
  right. right.
  apply bind_Returns in H as (s2 & Hrec & H). injection H as <- <-. done.
Qed.

Lemma Execute_Returns cmd_str UserID now_ms s err s' :
  Execute cmd_str UserID now_ms s = Returns (err, s') →
  s' = s ∨ ∃ Cmd, m_Commands s !! getCommandName cmd_str = Some Cmd
                  ∧ ExecuteCmd Cmd cmd_str UserID now_ms s = Returns (err, s').
Proof.
  unfold Execute. intros H. apply bind_Returns in H as (u & Ha & H).
  destruct (m_Commands s !! getCommandName cmd_str) as [Cmd|].
  - right. by exists Cmd.
  - left. by injection H as _ <-.
Qed.

(** What [record_entry] does to a state. *)
Lemma record_entry_cases Entry s s' :
  record_entry Entry s = Returns s' →
  ∃ jobs,
    let r := length (Heap s) in
    let s1 := set_UndoIndex (m_UndoIndex s + 1)
                (set_History (take (m_UndoIndex s) (m_History s) ++ [r])
                   (set_Heap (Heap s ++ [Entry])
                      (set_IOQueue (m_IOQueue s ++ jobs) s))) in
    ((length (m_History s) ≤ m_UndoIndex s)%nat ∧ jobs = []
     ∨ (m_UndoIndex s < length (m_History s))%nat
       ∧ ∃ TimeStamps,
           stamps_of (Heap s) (drop (m_UndoIndex s) (m_History s)) TimeStamps
           ∧ jobs = if path_empty s then [] else [delete_entries TimeStamps])
    ∧ if path_empty s then s' = s1
      else UpdateLRU (set_LRU (m_LRU s ++ [r]) (PushJob (save_to_disk r) s1))
           = Returns s'.
Proof.
  unfold record_entry. intros H.
  apply bind_Returns in H as (s1 & Hp & H).
  apply PruneHistory_Returns in Hp as (jobs & -> & Hjobs).
  exists jobs. split; [done|].
  unfold alloc in H. simpl in H.
  change (path_empty (set_UndoIndex _ _)) with (path_empty s) in H.
  destruct (path_empty s); simpl in H; [by injection H as <- | done].
Qed.

(** A call of [Undo] that returns. *)
Lemma Undo_Returns s s' :
  Undo s = Returns s' →
  m_Done s = false
  ∧ (s' = s ∧ m_UndoIndex s = 0%nat
     ∨ ∃ r e Cmd db s1 e1,
         (0 < m_UndoIndex s)%nat
         ∧ m_History s !! (m_UndoIndex s - 1)%nat = Some r
         ∧ Heap s !! r = Some e
         ∧ m_Commands s !! getCommandName (m_CommandString e) = Some Cmd
         ∧ (cache_empty e = false ∧ s1 = set_UndoIndex (m_UndoIndex s - 1) s
            ∨ cache_empty e = true ∧ path_empty s = false
              ∧ s1 = run_now (warmup_cache r) (set_UndoIndex (m_UndoIndex s - 1) s))
         ∧ Heap s1 !! r = Some e1 ∧ cache_empty e1 = false
         ∧ Cmd.Undo Cmd (UndoFile (m_CacheUndoData e1) 0) (DataBase s) = Some db
         ∧ if path_empty s then s' = set_DataBase db s1
           else UpdateLRU (set_LRU (m_LRU s1 ++ [r]) (set_DataBase db s1)) = Returns s').
Proof.
  unfold Undo. intros H. apply bind_Returns in H as (u & Ha & H).
  apply assert_Returns, negb_true_iff in Ha. split; [done|].
  case_bool_decide as Hz.
  { left. by injection H as <-. }
  right.
  apply bind_Returns in H as ([r e] & Hat & H).
  apply history_at_Returns in Hat as [Hr He]. simpl in Hr, He.
  cbv zeta in H.
  apply bind_Returns in H as (s1 & Hs1 & H).
  apply bind_Returns in H as ([r1 e1] & Hat1 & H).
  apply history_at_Returns in Hat1 as [Hr1 He1].
  apply bind_Returns in H as (Cmd & Hc & H).
  change (m_Commands (set_UndoIndex _ s)) with (m_Commands s) in Hc.
  destruct (m_Commands s !! getCommandName (m_CommandString e)) as [Cmd'|] eqn:Hcmd;
    simpl in Hc; [|discriminate]. injection Hc as ->.
  apply bind_Returns in H as (db & Hdb & H).
  destruct (Cmd.Undo Cmd _ _) as [db'|] eqn:Hundo; simpl in Hdb; [|discriminate].
  injection Hdb as ->.
  assert (Hs1' :
    (cache_empty e = false ∧ s1 = set_UndoIndex (m_UndoIndex s - 1) s
     ∨ cache_empty e = true ∧ path_empty s = false
       ∧ s1 = run_now (warmup_cache r) (set_UndoIndex (m_UndoIndex s - 1) s))
    ∧ (cache_empty e = true → cache_empty e1 = false)).
  { destruct (cache_empty e) eqn:Ee.
    - apply bind_Returns in Hs1 as (u1 & Ha1 & Hs1).
      apply assert_Returns, negb_true_iff in Ha1.
      apply bind_Returns in Hs1 as ([r2 e2] & Hat2 & Hs1).
      apply bind_Returns in Hs1 as (u2 & Ha2 & Hs1).
      apply assert_Returns, negb_true_iff in Ha2.
      injection Hs1 as <-.
      apply history_at_Returns in Hat2 as [Hr2 He2].
      rewrite Hr2 in Hr1. injection Hr1 as <-.
      rewrite He2 in He1. injection He1 as <-.
      split; [right|]; done.
    - injection Hs1 as <-. split; [by left | done]. }
  destruct Hs1' as [Hs1' He1'].
  assert (m_UndoIndex s1 = (m_UndoIndex s - 1)%nat ∧ m_History s1 = m_History s
          ∧ DataBase s1 = DataBase s ∧ path_empty s1 = path_empty s) as (Hi1 & Hh1 & Hd1 & Hp1).
  { destruct Hs1' as [[_ ->] | (_ & _ & ->)]; [done|].
    unfold run_now. by destruct (JobExec.Execute _ _ _). }
  rewrite Hi1, Hh1, Hr in Hr1. injection Hr1 as <-.
  rewrite Hd1 in Hundo.
  exists r, e, Cmd, db, s1, e1.
  repeat split; [lia | done | done | done | done | done | | done |].
  - destruct Hs1' as [[Ee ->] | (Ee & _ & _)]; [|by apply He1'].
    simpl in He1. rewrite He in He1. by injection He1 as <-.
  - change (path_empty (set_DataBase db s1)) with (path_empty s1) in H.
    rewrite Hp1 in H. destruct (path_empty s); simpl in H; [by injection H as <- | done].
Qed.

(** A call of [Redo] that returns. *)
Lemma Redo_Returns s s' :
  Redo s = Returns s' →
  m_Done s = false
  ∧ (s' = s
     ∨ ∃ r e Cmd,
         m_History s !! m_UndoIndex s = Some r
         ∧ Heap s !! r = Some e
         ∧ m_Commands s !! getCommandName (m_CommandString e) = Some Cmd
         ∧ (Cmd.Parse Cmd (m_CommandString e)).1 = ""
         ∧ let p := (Cmd.Parse Cmd (m_CommandString e)).2 in
           let s1 := set_DataBase (Cmd.Redo Cmd p (DataBase s)).2 s in
           ((Cmd.Redo Cmd p (DataBase s)).1 ≠ "" ∧ s' = s1
            ∨ (Cmd.Redo Cmd p (DataBase s)).1 = ""
              ∧ ∃ s2, (if path_empty s then s2 = s1
                       else UpdateLRU (set_LRU (m_LRU s ++ [r]) s1) = Returns s2)
                      ∧ s' = set_UndoIndex (m_UndoIndex s2 + 1) s2)).
Proof.
  unfold Redo. intros H. apply bind_Returns in H as (u & Ha & H).
  apply assert_Returns, negb_true_iff in Ha. split; [done|].
  case_bool_decide as Hz.
  { left. by injection H as <-. }
  apply bind_Returns in H as ([r e] & Hat & H).
  apply history_at_Returns in Hat as [Hr He].
  apply bind_Returns in H as (Cmd & Hc & H).
  destruct (m_Commands s !! getCommandName (m_CommandString e)) as [Cmd'|] eqn:Hcmd;
    simpl in Hc; [|discriminate]. injection Hc as ->.
  destruct (Cmd.Parse Cmd (m_CommandString e)) as [Err p] eqn:Hparse.
  case_bool_decide as HErr; simpl in H.
  2:{ left. by injection H as <-. }
  right. exists r, e, Cmd. rewrite Hparse. simpl.
  repeat split; [done | done | done | done |].
  destruct (Cmd.Redo Cmd p (DataBase s)) as [Err' db]. simpl.
  case_bool_decide as HErr'; simpl in H.
  2:{ left. by injection H as <-. }
  right. split; [done|].
  apply bind_Returns in H as (s2 & Hs2 & H). injection H as <-.
  exists s2. split; [|done].
  change (path_empty (set_DataBase db s)) with (path_empty s) in Hs2.
  destruct (path_empty s); simpl in Hs2; [by injection Hs2 as <- | done].
Qed.

(** ** The size of the LRU list *)

Lemma length_look_ahead_added hist heap idx steps :
  (length (steps ≫= step_targets hist heap idx) ≤ 2 * length steps)%nat.
Proof.
  induction steps as [|i steps IH]; [simpl; lia|].
  rewrite bind_cons, length_app. simpl.
  pose proof (length_step_targets hist heap idx i). lia.
Qed.

Lemma UpdateLRU_length s s' :
  UpdateLRU s = Returns s' → m_History s ≠ [] →
  (length (m_LRU s') < m_MaxCachedSteps s)%nat.
Proof.
  intros H Hne. destruct (UpdateLRU_eq _ _ H Hne) as (Hassert & _ & -> & _).
  rewrite length_app.
  pose proof (length_after_eviction s).
  pose proof (length_look_ahead_added (m_History s) (Heap (after_eviction s))
                (m_UndoIndex s) (seq 1 (m_LookAheadSteps s))) as Hadd.
  rewrite length_seq in Hadd. lia.
Qed.

(** The members no operation but [Init] and the LRU bookkeeping touches. *)
Lemma IOWorker_fields s :
  m_LRU (IOWorker s) = m_LRU s
  ∧ m_MaxCachedSteps (IOWorker s) = m_MaxCachedSteps s
  ∧ m_UndoIndex (IOWorker s) = m_UndoIndex s
  ∧ m_History (IOWorker s) = m_History s
  ∧ m_UndoPath (IOWorker s) = m_UndoPath s
  ∧ length (m_IOQueue (IOWorker s)) = pred (length (m_IOQueue s)).
Proof.
  unfold IOWorker. destruct (m_IOQueue s) as [|j q] eqn:Hq; [by rewrite Hq|].
  by destruct (JobExec.Execute _ _ _).
Qed.

Lemma drain_fields n s :
  m_LRU (drain n s) = m_LRU s
  ∧ m_MaxCachedSteps (drain n s) = m_MaxCachedSteps s
  ∧ m_UndoIndex (drain n s) = m_UndoIndex s
  ∧ m_History (drain n s) = m_History s
  ∧ m_UndoPath (drain n s) = m_UndoPath s
  ∧ length (m_IOQueue (drain n s)) = (length (m_IOQueue s) - n)%nat.
Proof.
  revert s. induction n as [|n IH]; intros s; simpl.
  - repeat split; lia.
  - destruct (IH (IOWorker s)) as (-> & -> & -> & -> & -> & ->).
    destruct (IOWorker_fields s) as (-> & -> & -> & -> & -> & ->).
    repeat split; lia.
Qed.

Lemma run_now_fields j s :
  m_LRU (run_now j s) = m_LRU s
  ∧ m_MaxCachedSteps (run_now j s) = m_MaxCachedSteps s
  ∧ m_UndoIndex (run_now j s) = m_UndoIndex s
  ∧ m_History (run_now j s) = m_History s
  ∧ m_UndoPath (run_now j s) = m_UndoPath s
  ∧ m_IOQueue (run_now j s) = m_IOQueue s.
Proof. unfold run_now. by destruct (JobExec.Execute _ _ _). Qed.

Lemma work_fields w s :
  m_LRU (work w s) = m_LRU s
  ∧ m_MaxCachedSteps (work w s) = m_MaxCachedSteps s
  ∧ m_UndoIndex (work w s) = m_UndoIndex s
  ∧ m_History (work w s) = m_History s
  ∧ m_UndoPath (work w s) = m_UndoPath s.
Proof.
  destruct w as [|k]; simpl.
  - unfold pop_job. by destruct (m_IOQueue s).
  - unfold finish_job. destruct (Held s !! k) as [j|]; [|done].
    by destruct (run_now_fields j (set_Held (delete k (Held s)) s)) as (-> & -> & -> & -> & -> & _).
Qed.

Lemma works_fields ws s :
  m_LRU (works ws s) = m_LRU s
  ∧ m_MaxCachedSteps (works ws s) = m_MaxCachedSteps s
  ∧ m_UndoIndex (works ws s) = m_UndoIndex s
  ∧ m_History (works ws s) = m_History s
  ∧ m_UndoPath (works ws s) = m_UndoPath s.
Proof.
  revert s. induction ws as [|w ws IH]; intros s; simpl; [done|].
  destruct (IH (work w s)) as (-> & -> & -> & -> & ->). apply work_fields.
Qed.

Lemma SynJobQueue_fields ws s :
  m_LRU (SynJobQueue ws s) = m_LRU s
  ∧ m_MaxCachedSteps (SynJobQueue ws s) = m_MaxCachedSteps s
  ∧ m_UndoIndex (SynJobQueue ws s) = m_UndoIndex s
  ∧ m_History (SynJobQueue ws s) = m_History s
  ∧ m_UndoPath (SynJobQueue ws s) = m_UndoPath s.
Proof.
  unfold SynJobQueue. destruct (path_empty s); [done|].
  destruct (drain_fields (length (m_IOQueue (works ws s))) (works ws s))
    as (-> & -> & -> & -> & -> & _).
  apply works_fields.
Qed.

Lemma load_placeholders_fields Count File s :
  m_LRU (load_placeholders Count File s) = m_LRU s
  ∧ m_MaxCachedSteps (load_placeholders Count File s) = m_MaxCachedSteps s
  ∧ m_UndoPath (load_placeholders Count File s) = m_UndoPath s.
Proof.
  revert File s. induction Count as [|n IH]; intros File s; simpl; [done|].
  destruct (Stdio.fread 8 File) as [[ok b] File']. unfold alloc.
  by destruct (IH File' (PushJob (load_entries (length (Heap s)))
    (set_History (m_History s ++ [length (Heap s)])
       (set_Heap (Heap s ++ [set_bHasBeenSaved true
          (set_TimeStamp (Stdio.stored 8 b (junk "TimeStamp")) new_history_entry)]) s))))
    as (-> & -> & ->).
Qed.

Lemma cache_latest_fields i s s' :
  cache_latest i s = Returns s' →
  length (m_LRU s') = S (length (m_LRU s))
  ∧ m_MaxCachedSteps s' = m_MaxCachedSteps s.
Proof.
  unfold cache_latest. intros H. apply bind_Returns in H as ([r e] & _ & H).
  destruct (cache_empty e && m_bHasBeenSaved e); injection H as <-; simpl;
    rewrite length_app; simpl; split; lia || done.
Qed.

Lemma for_each_cache_latest_fields l s s' :
  for_each cache_latest l s = Returns s' →
  length (m_LRU s') = (length (m_LRU s) + length l)%nat
  ∧ m_MaxCachedSteps s' = m_MaxCachedSteps s.
Proof.
  revert s. induction l as [|i l IH]; intros s H; simpl in H.
  - injection H as <-. simpl. split; lia || done.
  - apply bind_Returns in H as (s1 & H1 & H).
    apply cache_latest_fields in H1 as [Hl Hm].
    apply IH in H as [-> ->]. rewrite Hl, Hm. simpl. split; lia || done.
Qed.

Lemma LoadTimestamps_LRU FilePath ws1 ws2 s err s' :
  LoadTimestamps FilePath ws1 ws2 s = Returns (err, s') →
  (length (m_LRU s') ≤ m_MaxCachedSteps s')%nat
  ∧ m_MaxCachedSteps s' = m_MaxCachedSteps s.
Proof.
  unfold LoadTimestamps. intros H.
  apply bind_Returns in H as (u1 & _ & H).
  apply bind_Returns in H as (u2 & _ & H).
  destruct (SynJobQueue_fields ws1 s) as (_ & Hmax & _).
  destruct (IndexFiles _ !! _) as [File|].
  2:{ injection H as _ <-. simpl. rewrite Hmax. split; lia || done. }
  destruct (Stdio.fread 4 File) as [[ok b] File'].
  apply bind_Returns in H as (s2 & Hloop & H). injection H as _ <-.
  apply for_each_cache_latest_fields in Hloop as [Hl Hm].
  rewrite length_seq in Hl.
  match type of Hm with _ = m_MaxCachedSteps (SynJobQueue _ ?t) =>
    destruct (SynJobQueue_fields ws2 t) as (Hl1 & Hm1 & Hi1 & _) end.
  match type of Hm1 with _ = m_MaxCachedSteps (set_UndoIndex _ (load_placeholders ?c ?f ?t)) =>
    destruct (load_placeholders_fields c f t) as (Hl2 & Hm2 & _) end.
  rewrite Hl1 in Hl. simpl in Hl, Hm1, Hi1. rewrite Hl2 in Hl. simpl in Hl.
  rewrite Hm1, Hm2 in Hm. simpl in Hm. rewrite Hmax in Hm.
  rewrite Hi1, Hm1, Hm2 in Hl. simpl in Hl. rewrite Hmax in Hl.
  rewrite Hm. split; lia || done.
Qed.

Lemma UpdateLRU_bounded s s' :
  UpdateLRU s = Returns s' → m_History s ≠ [] → LRU_bounded s'.
Proof.
  intros H Hne. unfold LRU_bounded.
  pose proof (UpdateLRU_length _ _ H Hne).
  apply UpdateLRU_frame, frame_fields in H as (_ & _ & _ & _ & -> & _). lia.
Qed.

Lemma ExecuteCmd_bounded Cmd cmd_str UserID now_ms s err s' :
  ExecuteCmd Cmd cmd_str UserID now_ms s = Returns (err, s') →
  LRU_bounded s → LRU_bounded s'.
Proof.
  intros H Hb. apply ExecuteCmd_Returns in H as (_ & [-> | [[_ ->] | (_ & _ & _ & _ & H)]]);
    [done | done |].
  apply record_entry_cases in H as (jobs & _ & H). simpl in H.
  destruct (path_empty _).
  - by subst s'.
  - apply UpdateLRU_bounded in H; [done|]. simpl. by destruct (take _ _).
Qed.

Lemma Undo_bounded s s' : Undo s = Returns s' → LRU_bounded s → LRU_bounded s'.
Proof.
  intros H Hb. apply Undo_Returns in H as (_ & [[-> _] | H]); [done|].
  destruct H as (r & e & Cmd & db & s1 & e1 & Hpos & Hr & _ & _ & Hs1 & _ & _ & _ & H).
  assert (m_LRU s1 = m_LRU s ∧ m_MaxCachedSteps s1 = m_MaxCachedSteps s
          ∧ m_History s1 = m_History s) as (Hl & Hm & Hh).
  { destruct Hs1 as [[_ ->] | (_ & _ & ->)]; [done|].
    unfold run_now. by destruct (JobExec.Execute _ _ _). }
  destruct (path_empty s).
  - subst s'. unfold LRU_bounded. simpl. by rewrite Hl, Hm.
  - apply UpdateLRU_bounded in H; [done|]. simpl. rewrite Hh.
    intros E. by rewrite E in Hr.
Qed.

Lemma Redo_bounded s s' : Redo s = Returns s' → LRU_bounded s → LRU_bounded s'.
Proof.
  intros H Hb. apply Redo_Returns in H as (_ & [-> | H]); [done|].
  destruct H as (r & e & Cmd & Hr & _ & _ & _ & [[_ ->] | (_ & s2 & H & ->)]); [done|].
  destruct (path_empty s).
  - by subst s2.
  - apply UpdateLRU_bounded in H; [done|]. simpl.
    intros E. by rewrite E in Hr.
Qed.

Lemma perform_bounded c s s' :
  perform c s = Returns s' → LRU_bounded s → LRU_bounded s'.
Proof.
  destruct c as [UndoPath auto ws1 ws2 | cmd_str UserID now_ms | Cmd cmd_str UserID now_ms
                | | | FilePath | FilePath ws1 ws2 | | w]; simpl; intros H Hb.
  - apply bind_Returns in H as ([err s1] & H & H'). injection H' as <-.
    unfold Init in H. simpl in H.
    repeat case_match; try (by injection H as _ <-).
    + by apply LoadTimestamps_LRU in H as [? _].
    + apply bind_Returns in H as (u & _ & H). by injection H as _ <-.
  - apply bind_Returns in H as ([err s1] & H & H'). injection H' as <-.
    apply Execute_Returns in H as [-> | (Cmd & _ & H)]; [done|].
    by eapply ExecuteCmd_bounded.
  - apply bind_Returns in H as ([err s1] & H & H'). injection H' as <-.
    by eapply ExecuteCmd_bounded.
  - by eapply Undo_bounded.
  - by eapply Redo_bounded.
  - apply bind_Returns in H as ([err s1] & H & H'). injection H' as <-.
    unfold SaveTimestamps in H.
    apply bind_Returns in H as (u1 & _ & H).
    apply bind_Returns in H as (u2 & _ & H).
    destruct (WriteErrors s !! _); [by injection H as _ <-|].
    apply bind_Returns in H as (st & _ & H). by injection H as _ <-.
  - apply bind_Returns in H as ([err s1] & H & H'). injection H' as <-.
    by apply LoadTimestamps_LRU in H as [? _].
  - injection H as <-. unfold LRU_bounded.
    by destruct (IOWorker_fields s) as (-> & -> & _).
  - injection H as <-. unfold LRU_bounded.
    by destruct (work_fields w s) as (-> & -> & _).
Qed.

(** C7, as the code has it.  When [UpdateLRU] runs on a state [u] with a
    non-empty history (as it does at each of its call sites), the LRU list
    holds at most [m_MaxCachedSteps - 2 * m_LookAheadSteps - 1] references
    after the eviction loop and fewer than [m_MaxCachedSteps] at exit; and
    every public operation [c], like every step of a worker, leaves the LRU
    list within [m_MaxCachedSteps] if it was so before.  The bound is on the
    LRU list: the number of entries whose cache is not empty is not
    bounded. *)
Theorem LRU_list_bounded (u u' : system parser D) (c : call parser D) s s' :
  UpdateLRU u = Returns u' → m_History u ≠ [] →
  perform c s = Returns s' → LRU_bounded s →
  (length (m_LRU (after_eviction u))
   ≤ m_MaxCachedSteps u - m_LookAheadSteps u * 2 - 1)%nat
  ∧ (length (m_LRU u') < m_MaxCachedSteps u)%nat
  ∧ m_MaxCachedSteps u' = m_MaxCachedSteps u
  ∧ LRU_bounded s'.
Proof.
  intros H Hne Hc Hb. split; [apply length_after_eviction|].
  split; [by apply UpdateLRU_length|]. split.
  - by apply UpdateLRU_frame, frame_fields in H as (_ & _ & _ & _ & -> & _).
  - by eapply perform_bounded.
Qed.

(** ** What the operations never change *)

Lemma frame_config s s' : frame s' = frame s → config s' = config s.
Proof.
  intros H. destruct s, s'. unfold frame in H. simpl in H.
  injection H as -> -> -> -> -> -> -> -> -> -> -> -> ->. done.
Qed.

Lemma IOWorker_config s : config (IOWorker s) = config s.
Proof.
  unfold IOWorker. destruct (m_IOQueue s) as [|j q]; [done|].
  by destruct (JobExec.Execute _ _ _).
Qed.

Lemma drain_config n s : config (drain n s) = config s.
Proof.
  revert s. induction n as [|n IH]; intros s; simpl; [done|].
  by rewrite IH, IOWorker_config.
Qed.

Lemma work_config w s : config (work w s) = config s.
Proof.
  destruct w as [|k]; simpl.
  - unfold pop_job. by destruct (m_IOQueue s).
  - unfold finish_job. destruct (Held s !! k) as [j|]; [|done].
    unfold run_now. by destruct (JobExec.Execute _ _ _).
Qed.

Lemma works_config ws s : config (works ws s) = config s.
Proof.
  revert s. induction ws as [|w ws IH]; intros s; simpl; [done|].
  by rewrite IH, work_config.
Qed.

Lemma SynJobQueue_config ws s : config (SynJobQueue ws s) = config s.
Proof.
  unfold SynJobQueue. destruct (path_empty s); [done|].
  by rewrite drain_config, works_config.
Qed.

Lemma run_now_config j s : config (run_now j s) = config s.
Proof. unfold run_now. by destruct (JobExec.Execute _ _ _). Qed.

Lemma load_placeholders_config Count File s :
  config (load_placeholders Count File s) = config s.
Proof.
  revert File s. induction Count as [|n IH]; intros File s; simpl; [done|].
  destruct (Stdio.fread 8 File) as [[ok b] File']. unfold alloc. by rewrite IH.
Qed.

Lemma for_each_cache_latest_config l s s' :
  for_each cache_latest l s = Returns s' → config s' = config s.
Proof.
  revert s. induction l as [|i l IH]; intros s H; simpl in H.
  - by injection H as <-.
  - apply bind_Returns in H as (s1 & H1 & H). rewrite (IH _ H).
    unfold cache_latest in H1. apply bind_Returns in H1 as ([r e] & _ & H1).
    by destruct (cache_empty e && m_bHasBeenSaved e); injection H1 as <-.
Qed.

Lemma UpdateLRU_config s s' : UpdateLRU s = Returns s' → config s' = config s.
Proof. intros H. by apply frame_config, UpdateLRU_frame. Qed.

Lemma ExecuteCmd_config Cmd cmd_str UserID now_ms s err s' :
  ExecuteCmd Cmd cmd_str UserID now_ms s = Returns (err, s') → config s' = config s.
Proof.
  intros H.
  apply ExecuteCmd_Returns in H as (_ & [-> | [[_ ->] | (_ & _ & _ & _ & H)]]);
    [done | done |].
  apply record_entry_cases in H as (jobs & _ & H). simpl in H.
  destruct (path_empty _); [by subst s' | by apply UpdateLRU_config in H].
Qed.

Lemma Execute_config cmd_str UserID now_ms s err s' :
  Execute cmd_str UserID now_ms s = Returns (err, s') → config s' = config s.
Proof.
  intros H. apply Execute_Returns in H as [-> | (Cmd & _ & H)]; [done|].
  by eapply ExecuteCmd_config.
Qed.

Lemma Undo_config s s' : Undo s = Returns s' → config s' = config s.
Proof.
  intros H. apply Undo_Returns in H as (_ & [[-> _] | H]); [done|].
  destruct H as (r & e & Cmd & db & s1 & e1 & _ & _ & _ & _ & Hs1 & _ & _ & _ & H).
  assert (config s1 = config s) as Hc.
  { destruct Hs1 as [[_ ->] | (_ & _ & ->)]; [done | by rewrite run_now_config]. }
  destruct (path_empty s); [by subst s' | apply UpdateLRU_config in H; by rewrite H].
Qed.

Lemma Redo_config s s' : Redo s = Returns s' → config s' = config s.
Proof.
  intros H. apply Redo_Returns in H as (_ & [-> | H]); [done|].
  destruct H as (r & e & Cmd & _ & _ & _ & _ & [[_ ->] | (_ & s2 & H & ->)]); [done|].
  destruct (path_empty s); [by subst s2 | by apply UpdateLRU_config in H].
Qed.

Lemma SaveTimestamps_Returns FilePath s err s' :
  SaveTimestamps FilePath s = Returns (err, s') →
  s' = s
  ∨ ∃ File, s' = set_IndexFiles (<[timestamps_path FilePath s := File]> (IndexFiles s)) s.
Proof.
  unfold SaveTimestamps. intros H.
  apply bind_Returns in H as (u1 & _ & H).
  apply bind_Returns in H as (u2 & _ & H).
  destruct (WriteErrors s !! _); [injection H as _ <-; by left|].
  apply bind_Returns in H as (st & _ & H). injection H as _ <-. eauto.
Qed.

Lemma LoadTimestamps_config FilePath ws1 ws2 s err s' :
  LoadTimestamps FilePath ws1 ws2 s = Returns (err, s') → config s' = config s.
Proof.
  unfold LoadTimestamps. intros H.
  apply bind_Returns in H as (u1 & _ & H).
  apply bind_Returns in H as (u2 & _ & H).
  destruct (IndexFiles _ !! _) as [File|].
  2:{ injection H as _ <-. apply (SynJobQueue_config ws1 s). }
  destruct (Stdio.fread 4 File) as [[ok b] File'].
  apply bind_Returns in H as (s2 & Hloop & H). injection H as _ <-.
  apply for_each_cache_latest_config in Hloop. rewrite Hloop, SynJobQueue_config.
  change (config (set_UndoIndex ?n ?t)) with (config t).
  rewrite load_placeholders_config. apply (SynJobQueue_config ws1 s).
Qed.

Lemma perform_Commands c s s' :
  perform c s = Returns s' → m_Commands s' = m_Commands s.
Proof.
  assert (Hc : ∀ t t' : system parser D, config t' = config t → m_Commands t' = m_Commands t)
    by (intros t t' Ht; by injection Ht).
  destruct c as [UndoPath auto ws1 ws2 | cmd_str UserID now_ms | Cmd cmd_str UserID now_ms
                | | | FilePath | FilePath ws1 ws2 | | w]; simpl; intros H.
  - apply bind_Returns in H as ([err s1] & H & H'). injection H' as <-.
    unfold Init in H. simpl in H.
    repeat case_match; try (by injection H as _ <-).
    + by apply LoadTimestamps_config, Hc in H.
    + apply bind_Returns in H as (u & _ & H). by injection H as _ <-.
  - apply bind_Returns in H as ([err s1] & H & H'). injection H' as <-.
    by apply Execute_config, Hc in H.
  - apply bind_Returns in H as ([err s1] & H & H'). injection H' as <-.
    by apply ExecuteCmd_config, Hc in H.
  - by apply Undo_config, Hc in H.
  - by apply Redo_config, Hc in H.
  - apply bind_Returns in H as ([err s1] & H & H'). injection H' as <-.
    by apply SaveTimestamps_Returns in H as [-> | (File & ->)].
  - apply bind_Returns in H as ([err s1] & H & H'). injection H' as <-.
    by apply LoadTimestamps_config, Hc in H.
  - injection H as <-. apply Hc, IOWorker_config.
  - injection H as <-. apply Hc, work_config.
Qed.

Lemma run_Commands calls s s' :
  run calls s = Returns s' → m_Commands s' = m_Commands s.
Proof.
  revert s. induction calls as [|c calls IH]; intros s H; simpl in H.
  - by injection H as <-.
  - apply bind_Returns in H as (s1 & H1 & H).
    rewrite (IH _ H). by eapply perform_Commands.
Qed.

(** [Undo] of an entry whose cache is resident, on an engine with a path. *)
Lemma Undo_resident s i r e Cmd db :
  m_Done s = false →
  m_UndoIndex s = S i →
  m_History s !! i = Some r → Heap s !! r = Some e →
  cache_empty e = false →
  m_Commands s !! getCommandName (m_CommandString e) = Some Cmd →
  Cmd.Undo Cmd (UndoFile (m_CacheUndoData e) 0) (DataBase s) = Some db →
  Undo s =
    let s1 := set_DataBase db (set_UndoIndex i s) in
    if path_empty s then Returns s1 else UpdateLRU (set_LRU (m_LRU s ++ [r]) s1).
Proof.
  intros Hdone Hidx Hr He Hc Hcmd Hundo.
  unfold Undo. rewrite Hdone, Hidx. simpl.
  rewrite Nat.sub_0_r.
  rewrite (history_at_Some i (set_UndoIndex i s) r e Hr He). simpl.
  rewrite Hcmd, Hc. simpl.
  rewrite (history_at_Some i (set_UndoIndex i s) r e Hr He). simpl.
  rewrite Hundo. simpl.
  change (path_empty (set_DataBase db (set_UndoIndex i s))) with (path_empty s).
  by destruct (path_empty s).
Qed.

(** ** The workers' effect on the heap and on the files *)

Lemma run_jobs_app q1 q2 heap files :
  run_jobs (q1 ++ q2) heap files
  = run_jobs q2 (run_jobs q1 heap files).1 (run_jobs q1 heap files).2.
Proof.
  revert heap files. induction q1 as [|j q1 IH]; intros heap files; simpl.
  - done.
  - destruct (JobExec.Execute j heap files) as [h f]. apply IH.
Qed.

Lemma drain_run_jobs n s :
  n = length (m_IOQueue s) →
  Heap (drain n s) = (run_jobs (m_IOQueue s) (Heap s) (Files s)).1
  ∧ Files (drain n s) = (run_jobs (m_IOQueue s) (Heap s) (Files s)).2.
Proof.
  revert s. induction n as [|n IH]; intros s Hn.
  - destruct (m_IOQueue s); [done | discriminate].
  - simpl. destruct (m_IOQueue s) as [|j q] eqn:Hq; [discriminate|].
    injection Hn as Hn. simpl.
    assert (m_IOQueue (IOWorker s) = q
            ∧ (Heap (IOWorker s), Files (IOWorker s)) = JobExec.Execute j (Heap s) (Files s))
      as [Hq' Hhf].
    { unfold IOWorker. rewrite Hq. by destruct (JobExec.Execute _ _ _). }
    destruct (JobExec.Execute j (Heap s) (Files s)) as [h f].
    injection Hhf as Hh Hf. rewrite <- Hh, <- Hf, <- Hq'. apply IH. by rewrite Hq'.
Qed.

Lemma Execute_other_entry j heap files r :
  job_entry j ≠ Some r →
  (JobExec.Execute j heap files).1 !! r = heap !! r.
Proof.
  intros Hj.
  assert (Hne : ∀ r', job_entry j = Some r' → r' ≠ r) by (intros r' E ->; done).
  destruct j as [r' | ts | r' | r']; simpl.
  - destruct (heap !! r') as [e|] eqn:He; [|done].
    destruct (JobExec.save_entry e files) as [e' d']. simpl.
    apply list_lookup_insert_ne. by apply Hne.
  - done.
  - apply list_lookup_alter_ne. by apply Hne.
  - apply list_lookup_alter_ne. by apply Hne.
Qed.

Lemma run_jobs_other_entry q heap files r :
  Forall (λ j, job_entry j ≠ Some r) q →
  (run_jobs q heap files).1 !! r = heap !! r.
Proof.
  revert heap files. induction q as [|j q IH]; intros heap files Hq; simpl; [done|].
  apply Forall_cons in Hq as [Hj Hq].
  pose proof (Execute_other_entry j heap files r Hj) as Hr.
  destruct (JobExec.Execute j heap files) as [h f]. simpl in Hr.
  by rewrite IH.
Qed.

Lemma delete_files_lookup ts files t :
  JobExec.delete_files ts files !! t
  = if bool_decide (t ∈ ts) then None else files !! t.
Proof.
  unfold JobExec.delete_files. revert files.
  induction ts as [|t' ts IH]; intros files; simpl.
  - done.
  - rewrite IH. destruct (decide (t = t')) as [->|Hne].
    + rewrite (bool_decide_eq_true_2 (t' ∈ t' :: ts)) by left.
      case_bool_decide; [done | apply lookup_delete_eq].
    + rewrite lookup_delete_ne by done.
      apply (f_equal (λ b : bool, if b then None else files !! t)).
      apply bool_decide_ext. rewrite elem_of_cons.
      split; [by right | by intros [?|?]].
Qed.

(** A [warmup_cache] job writes nothing; a [save_to_disk] job writes at most
    the file named by its entry's timestamp. *)
Lemma Execute_files j heap files t :
  (∀ ts, j ≠ delete_entries ts) →
  (∀ r e, j = save_to_disk r → heap !! r = Some e → m_TimeStamp e ≠ t) →
  (JobExec.Execute j heap files).2 !! t = files !! t.
Proof.
  intros Hd Hs. destruct j as [r | ts | r | r]; simpl; [| by destruct (Hd ts) | done | done].
  destruct (heap !! r) as [e|] eqn:He; [|done].
  unfold JobExec.save_entry. destruct (m_bHasBeenSaved e); [done|].
  unfold Job.Save. destruct (Job.Save_file e) as [ok File]. simpl.
  apply lookup_insert_ne. by eapply Hs.
Qed.

(** ** What identifies an entry *)

Lemma fmap_alter_same {A B} (f : A → B) (g : A → A) (i : nat) (l : list A) :
  (∀ x, f (g x) = f x) → f <$> alter g i l = f <$> l.
Proof.
  intros Hg. apply list_eq. intros j. rewrite !list_lookup_fmap, list_lookup_alter.
  case_decide; [subst j|done]. destruct (l !! i); simpl; [|done]. by rewrite Hg.
Qed.

Lemma evict_ident n lru heap : ident <$> (evict n lru heap).2 = ident <$> heap.
Proof.
  revert heap. induction lru as [|r lru IH]; intros heap; simpl; [done|].
  case_bool_decide; [|done]. rewrite IH. apply fmap_alter_same.
  intros e. by destruct (m_bHasBeenSaved e).
Qed.

Lemma after_eviction_ident s : ident <$> Heap (after_eviction s) = ident <$> Heap s.
Proof.
  unfold after_eviction.
  pose proof (evict_ident (m_MaxCachedSteps s - m_LookAheadSteps s * 2 - 1)
                (m_LRU s) (Heap s)) as H.
  by destruct (evict _ _ _).
Qed.

Lemma UpdateLRU_ident s s' :
  UpdateLRU s = Returns s' → ident <$> Heap s' = ident <$> Heap s.
Proof.
  unfold UpdateLRU. intros H. case_bool_decide; [by injection H as <-|].
  apply bind_Returns in H as (u & _ & H).
  apply look_ahead_frame in H as [_ ->]. apply after_eviction_ident.
Qed.

Lemma ident_lookup (h h' : list history_entry) r :
  ident <$> h' = ident <$> h → ident <$> h' !! r = ident <$> h !! r.
Proof. intros H. by rewrite <- !list_lookup_fmap, H. Qed.

Lemma ident_stamp (h h' : list history_entry) r :
  ident <$> h' = ident <$> h → m_TimeStamp <$> h' !! r = m_TimeStamp <$> h !! r.
Proof.
  intros H. apply (ident_lookup _ _ r) in H.
  destruct (h' !! r) as [e'|], (h !! r) as [e|]; simpl in *; try done.
  unfold ident in H. by injection H as _ -> _.
Qed.

Lemma run_jobs_warmups l heap files :
  (run_jobs (warmup_cache <$> l) heap files).2 = files.
Proof. revert heap. induction l as [|r l IH]; intros heap; simpl; [done | apply IH]. Qed.

(** ** Pruning the redo tail *)

(** X22.  When [Execute] records an entry (it returns the empty string and
    the help flag is absent) with the cursor below the size of the history,
    the new history is the old one cut at the cursor followed by the new
    entry: the entries at positions from the cursor on are gone.  With a
    path, exactly one [delete_entries] job is queued, behind the jobs that
    were queued already and before the new entry's [save_to_disk], and it
    carries the timestamps of the removed entries in order. *)
Theorem Execute_prunes_redo_tail (Cmd : command_base parser D)
    (cmd_str : string) (UserID now_ms : Z) s s' run :
  executes Cmd cmd_str UserID now_ms s run →
  run = Returns ("", s') →
  Cmd.hasHelp Cmd (Cmd.Parse Cmd cmd_str).2 = false →
  (m_UndoIndex s < length (m_History s))%nat →
  let removed := drop (m_UndoIndex s) (m_History s) in
  let new := length (Heap s) in
  let stamp := Bytes.u64 (now_ms * 1000 + m_CommandCounter s) in
  m_History s' = take (m_UndoIndex s) (m_History s) ++ [new]
  ∧ m_TimeStamp <$> Heap s' !! new = Some stamp
  ∧ (path_empty s = false →
     ∃ TimeStamps warmups,
       stamps_of (Heap s) removed TimeStamps
       ∧ m_IOQueue s' = m_IOQueue s
                        ++ [delete_entries TimeStamps; save_to_disk new]
                        ++ (warmup_cache <$> warmups)).
Proof.
  intros Hrun Hret Hhelp Hlt removed new stamp.
  apply executes_typed in Hrun. subst run.
  apply ExecuteCmd_success in Hret as [_ Hret]. rewrite Hhelp in Hret.
  destruct Hret as [_ Hrec].
  set (Entry := make_entry Cmd (Cmd.Parse Cmd cmd_str).2 cmd_str UserID now_ms s) in *.
  assert (Hstamp : m_TimeStamp Entry = stamp) by done.
  apply record_entry_cases in Hrec as (jobs & Hjobs & Hrec). simpl in Hjobs, Hrec.
  change (path_empty (set_DataBase _ _)) with (path_empty s) in *.
  destruct Hjobs as [[Hge _] | (_ & TimeStamps & Hts & ->)]; [lia|].
  fold new in Hrec. fold removed in Hts.
  destruct (path_empty s) eqn:Hpath.
  - subst s'. simpl. split; [done|]. split; [|done].
    rewrite lookup_app_r by done. by rewrite Nat.sub_diag.
  - pose proof (UpdateLRU_frame _ _ Hrec) as Hf.
    apply frame_fields in Hf as (_ & Hhist & _ & _ & _ & _ & _ & _ & Hfiles & _).
    simpl in Hhist, Hfiles.
    pose proof (UpdateLRU_ident _ _ Hrec) as Hid. simpl in Hid.
    assert (Hne : take (m_UndoIndex s) (m_History s) ++ [new] ≠ [])
      by (by destruct (take _ _)).
    destruct (UpdateLRU_eq _ _ Hrec Hne) as (_ & _ & _ & Hq). simpl in Hq.
    assert (Hnew : m_TimeStamp <$> Heap s' !! new = Some stamp).
    { rewrite (ident_stamp _ _ new Hid).
      rewrite lookup_app_r by done. by rewrite Nat.sub_diag. }
    split; [done|]. split; [done|]. intros _.
    eexists TimeStamps, _. split; [done|].
    rewrite Hq. rewrite <- !app_assoc. reflexivity.
Qed.

(** ** Timestamps along the history *)



Lemma Load_payload_ident e d : ident (Job.Load e d false true).2 = ident e.
Proof.
  unfold Job.Load. destruct (d !! m_TimeStamp e) as [File|]; [|done].
  destruct (Stdio.fread 4 File) as [[r b] File1].
  by destruct (Stdio.fread _ File1) as [[r' b'] File2].
Qed.

Lemma Execute_ident j heap files :
  not_load j → ident <$> (JobExec.Execute j heap files).1 = ident <$> heap.
Proof.
  intros Hj. destruct j as [r | ts | r | r]; simpl; [| done | | done].
  - destruct (heap !! r) as [e|] eqn:He; [|done].
    unfold JobExec.save_entry. destruct (m_bHasBeenSaved e) eqn:Hs.
    + simpl. by rewrite list_insert_id.
    + destruct (Job.Save e files) as [ok d']. cbn [fst].
      apply list_eq. intros i. rewrite !list_lookup_fmap.
      destruct (decide (i = r)) as [->|Hne].
      * rewrite list_lookup_insert_eq by (by eapply lookup_lt_Some).
        rewrite He. by destruct ok.
      * by rewrite list_lookup_insert_ne.
  - apply fmap_alter_same. intros e. unfold JobExec.warmup_entry.
    destruct (cache_empty e); [apply Load_payload_ident | done].
Qed.










Lemma Undo_counter s s' : Undo s = Returns s' → m_CommandCounter s' = m_CommandCounter s.
Proof.
  intros H. apply Undo_Returns in H as (_ & [[-> _] | H]); [done|].
  destruct H as (r & e & Cmd & db & s1 & e1 & _ & _ & _ & _ & Hs1 & _ & _ & _ & H).
  assert (m_CommandCounter s1 = m_CommandCounter s) as Hc.
  { destruct Hs1 as [[_ ->] | (_ & _ & ->)]; [done|].
    unfold run_now. by destruct (JobExec.Execute _ _ _). }
  destruct (path_empty s); [by subst s'|].
  by apply UpdateLRU_frame, frame_fields in H as (_ & _ & _ & _ & _ & _ & _ & -> & _).
Qed.

Lemma Redo_counter s s' : Redo s = Returns s' → m_CommandCounter s' = m_CommandCounter s.
Proof.
  intros H. apply Redo_Returns in H as (_ & [-> | H]); [done|].
  destruct H as (r & e & Cmd & _ & _ & _ & _ & [[_ ->] | (_ & s2 & H & ->)]); [done|].
  simpl. destruct (path_empty s); [by subst s2|].
  by apply UpdateLRU_frame, frame_fields in H as (_ & _ & _ & _ & _ & _ & _ & -> & _).
Qed.






Lemma IOWorker_Held s : Held (IOWorker s) = Held s.
Proof.
  unfold IOWorker. destruct (m_IOQueue s); [done|].
  by destruct (JobExec.Execute _ _ _).
Qed.







(** ** Unsaved entries keep their cache *)

Lemma Load_saved e d k c : m_bHasBeenSaved (Job.Load e d k c).2 = m_bHasBeenSaved e.
Proof.
  unfold Job.Load. destruct (d !! m_TimeStamp e) as [File|]; [|done].
  destruct (Stdio.fread 4 File) as [[r b] File1].
  destruct c.
  - destruct (Stdio.fread _ File1) as [[r' b'] File2].
    destruct k; [|done].
    destruct (Stdio.fread 4 File2) as [[r1 b1] File3].
    destruct (Stdio.fread 8 File3) as [[r2 b2] File4].
    destruct (Stdio.fread 4 File4) as [[r3 b3] File5].
    destruct (Stdio.fread _ File5) as [[r4 b4] File6].
    by destruct r1, r2.
  - destruct k; [|done].
    destruct (Stdio.fread 4 (drop _ File1)) as [[r1 b1] File3].
    destruct (Stdio.fread 8 File3) as [[r2 b2] File4].
    destruct (Stdio.fread 4 File4) as [[r3 b3] File5].
    destruct (Stdio.fread _ File5) as [[r4 b4] File6].
    by destruct r1, r2.
Qed.

Lemma Load_key_cache e d : m_CacheUndoData (Job.Load e d true false).2 = m_CacheUndoData e.
Proof.
  unfold Job.Load. destruct (d !! m_TimeStamp e) as [File|]; [|done].
  destruct (Stdio.fread 4 File) as [[r b] File1].
  destruct (Stdio.fread 4 (drop _ File1)) as [[r1 b1] File3].
  destruct (Stdio.fread 8 File3) as [[r2 b2] File4].
  destruct (Stdio.fread 4 File4) as [[r3 b3] File5].
  destruct (Stdio.fread _ File5) as [[r4 b4] File6].
  by destruct r1, r2.
Qed.

Lemma Forall_alter_keeps {A} (P : A → Prop) (f : A → A) (i : nat) (l : list A) :
  (∀ x, P x → P (f x)) → Forall P l → Forall P (alter f i l).
Proof.
  intros Hf Hl. apply Forall_lookup. intros j y Hy.
  rewrite list_lookup_alter in Hy. case_decide.
  - subst j. destruct (l !! i) as [x|] eqn:Hx; simpl in Hy; [|done].
    injection Hy as <-. apply Hf. by eapply Forall_lookup_1.
  - by eapply Forall_lookup_1.
Qed.

Lemma evict_keeps n lru heap :
  Forall keeps_cache heap → Forall keeps_cache (evict n lru heap).2.
Proof.
  revert heap. induction lru as [|r lru IH]; intros heap Hh; simpl; [done|].
  case_bool_decide; [|done]. apply IH. apply Forall_alter_keeps; [|done].
  intros e He. destruct (m_bHasBeenSaved e) eqn:Hs; [|done].
  unfold keeps_cache. simpl. by rewrite Hs.
Qed.

(** The eviction loop leaves an unsaved entry exactly as it is. *)
Lemma evict_unsaved n lru heap r e :
  heap !! r = Some e → m_bHasBeenSaved e = false → (evict n lru heap).2 !! r = Some e.
Proof.
  revert heap. induction lru as [|r' lru IH]; intros heap He Hs; simpl; [done|].
  case_bool_decide; [|done]. apply IH; [|done].
  rewrite list_lookup_alter. case_decide; [subst r'|done].
  rewrite He. simpl. by rewrite Hs.
Qed.

Lemma Execute_keeps j heap files :
  Forall keeps_cache heap → Forall keeps_cache (JobExec.Execute j heap files).1.
Proof.
  intros Hh. destruct j as [r | ts | r | r]; simpl; [| done | |].
  - destruct (heap !! r) as [e|] eqn:He; [|done].
    unfold JobExec.save_entry. destruct (m_bHasBeenSaved e) eqn:Hs.
    + simpl. by rewrite list_insert_id.
    + destruct (Job.Save e files) as [ok d']. cbn [fst].
      apply Forall_insert; [done|]. destruct ok; [done|].
      by eapply Forall_lookup_1.
  - apply Forall_alter_keeps; [|done]. intros e He. unfold JobExec.warmup_entry.
    destruct (cache_empty e) eqn:Hc; [|done].
    intros Hs. rewrite Load_saved in Hs. specialize (He Hs).
    unfold cache_empty in Hc. by apply bool_decide_eq_true_1 in Hc.
  - apply Forall_alter_keeps; [|done]. intros e He. unfold JobExec.load_entry.
    intros Hs. rewrite Load_saved in Hs. rewrite Load_key_cache. by apply He.
Qed.

Lemma IOWorker_keeps s : unsaved_resident s → unsaved_resident (IOWorker s).
Proof.
  unfold unsaved_resident, IOWorker. intros H.
  destruct (m_IOQueue s) as [|j q]; [done|].
  pose proof (Execute_keeps j (Heap s) (Files s) H) as Hk.
  by destruct (JobExec.Execute _ _ _).
Qed.

Lemma drain_keeps n s : unsaved_resident s → unsaved_resident (drain n s).
Proof.
  revert s. induction n as [|n IH]; intros s H; simpl; [done|].
  by apply IH, IOWorker_keeps.
Qed.

Lemma run_now_keeps j s : unsaved_resident s → unsaved_resident (run_now j s).
Proof.
  unfold unsaved_resident, run_now. intros H.
  pose proof (Execute_keeps j (Heap s) (Files s) H) as Hk.
  by destruct (JobExec.Execute _ _ _).
Qed.

Lemma work_keeps w s : unsaved_resident s → unsaved_resident (work w s).
Proof.
  intros H. destruct w as [|k]; simpl.
  - unfold pop_job. by destruct (m_IOQueue s).
  - unfold finish_job. destruct (Held s !! k) as [j|]; [|done].
    by apply run_now_keeps.
Qed.

Lemma works_keeps ws s : unsaved_resident s → unsaved_resident (works ws s).
Proof.
  revert s. induction ws as [|w ws IH]; intros s H; simpl; [done|].
  by apply IH, work_keeps.
Qed.

Lemma SynJobQueue_keeps ws s :
  unsaved_resident s → unsaved_resident (SynJobQueue ws s).
Proof.
  intros H. unfold SynJobQueue. destruct (path_empty s); [done|].
  by apply drain_keeps, works_keeps.
Qed.

Lemma UpdateLRU_keeps s s' :
  UpdateLRU s = Returns s' → unsaved_resident s → unsaved_resident s'.
Proof.
  unfold UpdateLRU, unsaved_resident. intros H Hs.
  case_bool_decide; [by injection H as <-|].
  apply bind_Returns in H as (u & _ & H).
  apply look_ahead_frame in H as [_ ->]. unfold after_eviction.
  pose proof (evict_keeps (m_MaxCachedSteps s - m_LookAheadSteps s * 2 - 1)
                (m_LRU s) (Heap s) Hs) as Hk.
  by destruct (evict _ _ _).
Qed.

Lemma ExecuteCmd_keeps Cmd cmd_str UserID now_ms s err s' :
  ExecuteCmd Cmd cmd_str UserID now_ms s = Returns (err, s') →
  backs_up Cmd → unsaved_resident s → unsaved_resident s'.
Proof.
  intros H Hb Hs.
  apply ExecuteCmd_Returns in H as (_ & [-> | [[_ ->] | (_ & _ & _ & _ & H)]]);
    [done | done |].
  apply record_entry_cases in H as (jobs & _ & H). simpl in H.
  set (Entry := make_entry _ _ _ _ _ _) in H.
  assert (Forall keeps_cache (Heap s ++ [Entry])) as Hh.
  { apply Forall_app. split; [done|]. apply Forall_singleton. intros _. apply Hb. }
  destruct (path_empty _); [by subst s' | by apply UpdateLRU_keeps in H].
Qed.

Lemma Undo_keeps s s' : Undo s = Returns s' → unsaved_resident s → unsaved_resident s'.
Proof.
  intros H Hs. apply Undo_Returns in H as (_ & [[-> _] | H]); [done|].
  destruct H as (r & e & Cmd & db & s1 & e1 & _ & _ & _ & _ & Hs1 & _ & _ & _ & H).
  assert (unsaved_resident s1) as Hk.
  { destruct Hs1 as [[_ ->] | (_ & _ & ->)]; [done | by apply run_now_keeps]. }
  destruct (path_empty s); [by subst s' | by apply UpdateLRU_keeps in H].
Qed.

Lemma Redo_keeps s s' : Redo s = Returns s' → unsaved_resident s → unsaved_resident s'.
Proof.
  intros H Hs. apply Redo_Returns in H as (_ & [-> | H]); [done|].
  destruct H as (r & e & Cmd & _ & _ & _ & _ & [[_ ->] | (_ & s2 & H & ->)]); [done|].
  destruct (path_empty s); [by subst s2 | by apply UpdateLRU_keeps in H].
Qed.

Lemma load_placeholders_keeps Count File s :
  unsaved_resident s → unsaved_resident (load_placeholders Count File s).
Proof.
  revert File s. induction Count as [|n IH]; intros File s Hs; simpl; [done|].
  destruct (Stdio.fread 8 File) as [[ok b] File']. unfold alloc. apply IH.
  unfold unsaved_resident. simpl. apply Forall_app. split; [done|].
  by apply Forall_singleton.
Qed.

Lemma for_each_cache_latest_Heap l s s' :
  for_each cache_latest l s = Returns s' → Heap s' = Heap s.
Proof.
  revert s. induction l as [|i l IH]; intros s H; simpl in H.
  - by injection H as <-.
  - apply bind_Returns in H as (s1 & H1 & H). rewrite (IH _ H).
    unfold cache_latest in H1. apply bind_Returns in H1 as ([r e] & _ & H1).
    by destruct (cache_empty e && m_bHasBeenSaved e); injection H1 as <-.
Qed.

Lemma LoadTimestamps_keeps FilePath ws1 ws2 s err s' :
  LoadTimestamps FilePath ws1 ws2 s = Returns (err, s') →
  unsaved_resident s → unsaved_resident s'.
Proof.
  unfold LoadTimestamps. intros H Hs.
  apply bind_Returns in H as (u1 & _ & H).
  apply bind_Returns in H as (u2 & _ & H).
  pose proof (SynJobQueue_keeps ws1 s Hs) as Hs1.
  destruct (IndexFiles _ !! _) as [File|].
  2:{ by injection H as _ <-. }
  destruct (Stdio.fread 4 File) as [[ok b] File'].
  apply bind_Returns in H as (s2 & Hloop & H). injection H as _ <-.
  apply for_each_cache_latest_Heap in Hloop.
  unfold unsaved_resident. rewrite Hloop.
  apply SynJobQueue_keeps. unfold unsaved_resident. simpl.
  by apply load_placeholders_keeps.
Qed.

Lemma perform_keeps c s s' :
  perform c s = Returns s' →
  (∀ name Cmd, m_Commands s !! name = Some Cmd → backs_up Cmd) →
  (∀ Cmd cmd_str UserID now_ms,
     c = CallExecuteCmd Cmd cmd_str UserID now_ms → backs_up Cmd) →
  unsaved_resident s → unsaved_resident s'.
Proof.
  destruct c as [UndoPath auto ws1 ws2 | cmd_str UserID now_ms | Cmd cmd_str UserID now_ms
                | | | FilePath | FilePath ws1 ws2 | | w]; simpl; intros H Hreg Hc Hs.
  - apply bind_Returns in H as ([err s1] & H & H'). injection H' as <-.
    unfold Init in H. simpl in H.
    repeat case_match; try (by injection H as _ <-).
    + by apply LoadTimestamps_keeps in H.
    + apply bind_Returns in H as (u & _ & H). by injection H as _ <-.
  - apply bind_Returns in H as ([err s1] & H & H'). injection H' as <-.
    apply Execute_Returns in H as [-> | (Cmd & Hcmd & H)]; [done|].
    eapply ExecuteCmd_keeps; [exact H | by eapply Hreg | done].
  - apply bind_Returns in H as ([err s1] & H & H'). injection H' as <-.
    eapply ExecuteCmd_keeps; [exact H | by eapply Hc | done].
  - by eapply Undo_keeps.
  - by eapply Redo_keeps.
  - apply bind_Returns in H as ([err s1] & H & H'). injection H' as <-.
    by apply SaveTimestamps_Returns in H as [-> | (File & ->)].
  - apply bind_Returns in H as ([err s1] & H & H'). injection H' as <-.
    by apply LoadTimestamps_keeps in H.
  - injection H as <-. by apply IOWorker_keeps.
  - injection H as <-. by apply work_keeps.
Qed.

(** C6, as the code has it.  Along any sequence of public operations and
    worker steps, on an engine whose commands write a non-empty backup (the
    engine does not check it when it records an entry; [Undo] asserts it):
    if every entry that has not been saved had a non-empty cache at the
    start (as on a new engine, which has no entries), the same holds at the
    end, for every entry and so for every entry of the history.  The
    eviction loop of [UpdateLRU] clears a cache only if [m_bHasBeenSaved]
    is set: it leaves an unsaved entry exactly as it is. *)
Theorem unsaved_entries_keep_cache (calls : list (call parser D)) s s' :
  (∀ name Cmd, m_Commands s !! name = Some Cmd → backs_up Cmd) →
  Forall (λ c, ∀ Cmd cmd_str UserID now_ms,
                 c = CallExecuteCmd Cmd cmd_str UserID now_ms → backs_up Cmd) calls →
  unsaved_resident s →
  run calls s = Returns s' →
  (∀ pos r e, m_History s' !! pos = Some r → Heap s' !! r = Some e →
              m_bHasBeenSaved e = false → m_CacheUndoData e ≠ [])
  ∧ (∀ r e, Heap s' !! r = Some e → m_bHasBeenSaved e = false → m_CacheUndoData e ≠ [])
  ∧ (∀ n r e, Heap s' !! r = Some e → m_bHasBeenSaved e = false →
              (evict n (m_LRU s') (Heap s')).2 !! r = Some e).
Proof.
  intros Hreg Hcalls Hs H.
  assert (unsaved_resident s') as Hs'.
  { revert s Hreg Hs H. induction calls as [|c calls IH]; intros s Hreg Hs H; simpl in H.
    - by injection H as <-.
    - apply bind_Returns in H as (s1 & H1 & H).
      apply Forall_cons in Hcalls as [Hc Hcalls].
      apply (IH Hcalls s1); [|by eapply perform_keeps|done].
      intros name Cmd. rewrite (perform_Commands _ _ _ H1). apply Hreg. }
  assert (∀ r e, Heap s' !! r = Some e → m_bHasBeenSaved e = false →
                 m_CacheUndoData e ≠ []) as Hall.
  { intros r e He. by apply (Forall_lookup_1 _ _ _ _ Hs' He). }
  split; [|split].
  - intros pos r e _. apply Hall.
  - exact Hall.
  - intros n r e. apply evict_unsaved.
Qed.

(** ** [UpdateLRU] returns on a well-formed state *)

Lemma history_at_is_Returns pos s :
  Forall (λ r, r < length (Heap s))%nat (m_History s) →
  (pos < length (m_History s))%nat →
  ∃ r e, history_at pos s = Returns (r, e).
Proof.
  intros Hrefs Hpos.
  destruct (lookup_lt_is_Some_2 _ _ Hpos) as [r Hr].
  pose proof (Forall_lookup_1 _ _ _ _ Hrefs Hr) as Hlt.
  destruct (lookup_lt_is_Some_2 _ _ Hlt) as [e He].
  exists r, e. by apply history_at_Some.
Qed.

Lemma warm_is_Returns pos s :
  Forall (λ r, r < length (Heap s))%nat (m_History s) →
  (pos < length (m_History s))%nat →
  ∃ s', warm pos s = Returns s'.
Proof.
  intros Hrefs Hpos. destruct (history_at_is_Returns pos s Hrefs Hpos) as (r & e & H).
  unfold warm. rewrite H. simpl. destruct (cache_empty e); eauto.
Qed.

Lemma look_ahead_step_is_Returns i s :
  Forall (λ r, r < length (Heap s))%nat (m_History s) →
  (m_UndoIndex s ≤ length (m_History s))%nat → (1 ≤ i)%nat →
  ∃ s', look_ahead_step i s = Returns s'.
Proof.
  intros Hrefs Hidx Hi. unfold look_ahead_step.
  assert (∃ s1, (if bool_decide (i ≤ m_UndoIndex s)%nat
                 then warm (m_UndoIndex s - i) s else Returns s) = Returns s1)
    as (s1 & H1).
  { case_bool_decide; [|eauto]. apply warm_is_Returns; [done | lia]. }
  rewrite H1. simpl.
  assert (frame s1 = frame s ∧ Heap s1 = Heap s) as [Hf Hh].
  { destruct (bool_decide (i ≤ m_UndoIndex s)%nat);
      [by eapply warm_frame | by injection H1 as <-]. }
  apply frame_fields in Hf as (Hi1 & Hh1 & _).
  destruct (bool_decide (m_UndoIndex s1 + i < length (m_History s1))%nat) eqn:Hlt;
    [|eauto].
  apply bool_decide_eq_true_1 in Hlt.
  apply warm_is_Returns; [by rewrite Hh1, Hh | done].
Qed.

Lemma look_ahead_is_Returns steps s :
  Forall (λ r, r < length (Heap s))%nat (m_History s) →
  (m_UndoIndex s ≤ length (m_History s))%nat →
  Forall (λ i, 1 ≤ i)%nat steps →
  ∃ s', look_ahead steps s = Returns s'.
Proof.
  revert s. induction steps as [|i steps IH]; intros s Hrefs Hidx Hsteps; simpl; [eauto|].
  apply Forall_cons in Hsteps as [Hi Hsteps].
  case_bool_decide; [|eauto].
  destruct (look_ahead_step_is_Returns i s Hrefs Hidx Hi) as (s1 & H1).
  rewrite H1. simpl.
  apply look_ahead_step_frame in H1 as [Hf Hh].
  apply frame_fields in Hf as (Hi1 & Hh1 & _).
  apply IH; [by rewrite Hh1, Hh | by rewrite Hi1, Hh1 | done].
Qed.

Lemma UpdateLRU_is_Returns s :
  well_formed s → path_empty s = false → ∃ s', UpdateLRU s = Returns s'.
Proof.
  intros (Hrefs & Hidx & Hassert) Hpath. unfold UpdateLRU.
  case_bool_decide; [eauto|].
  rewrite bool_decide_eq_true_2 by auto. simpl.
  pose proof (after_eviction_frame s) as Hf.
  apply frame_fields in Hf as (Hi1 & Hh1 & _).
  apply look_ahead_is_Returns.
  - rewrite Hh1. unfold after_eviction.
    pose proof (length_evict (m_MaxCachedSteps s - m_LookAheadSteps s * 2 - 1)
                  (m_LRU s) (Heap s)) as Hl.
    destruct (evict _ _ _) as [lru heap]. simpl in *. by rewrite Hl.
  - by rewrite Hi1, Hh1.
  - apply Forall_forall. intros i Hi%elem_of_seq. lia.
Qed.

Lemma UpdateLRU_well_formed s s' :
  UpdateLRU s = Returns s' → well_formed s → well_formed s'.
Proof.
  intros H (Hrefs & Hidx & Hassert).
  pose proof (UpdateLRU_length_Heap _ _ H) as Hl.
  pose proof (UpdateLRU_frame _ _ H) as Hf.
  pose proof (frame_path_empty _ _ Hf) as Hp.
  apply frame_fields in Hf as (Hi & Hh & _ & _ & Hmax & Hla & _).
  unfold well_formed. by rewrite Hl, Hi, Hh, Hp, Hmax, Hla.
Qed.

(** ** [Undo] followed by [Redo] *)

(** [Undo] of an entry whose cache is empty: the warm-up runs first, on the
    calling thread. *)
Lemma Undo_warmed s i r e Cmd db :
  m_Done s = false →
  m_UndoIndex s = S i →
  m_History s !! i = Some r → Heap s !! r = Some e →
  cache_empty e = true → path_empty s = false →
  m_Commands s !! getCommandName (m_CommandString e) = Some Cmd →
  let e1 := JobExec.warmup_entry e (Files s) in
  cache_empty e1 = false →
  Cmd.Undo Cmd (UndoFile (m_CacheUndoData e1) 0) (DataBase s) = Some db →
  Undo s =
    UpdateLRU (set_LRU (m_LRU s ++ [r])
                 (set_DataBase db (set_Heap (<[r := e1]> (Heap s)) (set_UndoIndex i s)))).
Proof.
  intros Hdone Hidx Hr He Hc Hpath Hcmd e1 Hc1 Hundo.
  assert (Halter : alter (λ e, JobExec.warmup_entry e (Files s)) r (Heap s)
                   = <[r := e1]> (Heap s)).
  { apply list_eq. intros j. rewrite list_lookup_alter, list_lookup_insert.
    pose proof (lookup_lt_Some _ _ _ He).
    destruct (decide (r = j)) as [->|]; [|by rewrite decide_False by tauto].
    rewrite decide_True by done. by rewrite He. }
  assert (Hat : history_at i
                  (set_Heap (<[r := e1]> (Heap s)) (set_UndoIndex i s)) = Returns (r, e1)).
  { apply history_at_Some; [done|]. simpl.
    apply list_lookup_insert_eq. by eapply lookup_lt_Some. }
  unfold Undo. rewrite Hdone, Hidx. simpl. rewrite Nat.sub_0_r.
  rewrite (history_at_Some i (set_UndoIndex i s) r e Hr He). simpl.
  rewrite Hcmd, Hc. simpl.
  change (path_empty (set_UndoIndex i s)) with (path_empty s). rewrite Hpath. simpl.
  unfold run_now. simpl. rewrite Halter.
  change (set_Files (Files s) (set_Heap ?h (set_UndoIndex i s)))
    with (set_Files (Files s) (set_Heap h (set_UndoIndex i s))).
  assert (Heq : set_Files (Files s) (set_Heap (<[r:=e1]> (Heap s)) (set_UndoIndex i s))
                = set_Heap (<[r:=e1]> (Heap s)) (set_UndoIndex i s)) by done.
  rewrite Heq. rewrite Hat. simpl. rewrite Hc1. simpl. rewrite Hat. simpl.
  rewrite Hundo. simpl.
  change (path_empty (set_DataBase db _)) with (path_empty s). by rewrite Hpath.
Qed.

(** [Redo] of an entry whose command parses and applies. *)
Lemma Redo_applies s r e Cmd p db :
  m_Done s = false →
  m_History s !! m_UndoIndex s = Some r → Heap s !! r = Some e →
  m_Commands s !! getCommandName (m_CommandString e) = Some Cmd →
  Cmd.Parse Cmd (m_CommandString e) = ("", p) →
  Cmd.Redo Cmd p (DataBase s) = ("", db) →
  Redo s =
    s2 ← (if path_empty s then Returns (set_DataBase db s)
          else UpdateLRU (set_LRU (m_LRU s ++ [r]) (set_DataBase db s)));
    Returns (set_UndoIndex (m_UndoIndex s2 + 1) s2).
Proof.
  intros Hdone Hr He Hcmd Hparse Hredo.
  unfold Redo. rewrite Hdone. simpl.
  rewrite bool_decide_eq_false_2 by (apply lookup_lt_Some in Hr; lia).
  rewrite (history_at_Some _ s r e Hr He). simpl.
  rewrite Hcmd. simpl. rewrite Hparse. simpl. rewrite Hredo. simpl.
  change (path_empty (set_DataBase db s)) with (path_empty s).
  by destruct (path_empty s).
Qed.

Lemma well_formed_set s (s1 : system parser D) :
  m_History s1 = m_History s → length (Heap s1) = length (Heap s) →
  (m_UndoIndex s1 ≤ length (m_History s))%nat →
  config s1 = config s →
  well_formed s → well_formed s1.
Proof.
  intros Hh Hl Hi Hc (Hrefs & _ & Hassert). unfold well_formed, path_empty in *.
  injection Hc as _ Hp Hmax Hla _ _. by rewrite Hh, Hl, Hp, Hmax, Hla.
Qed.

(** C2.  Take a state whose cursor is [S i] and whose entry at position [i]
    was recorded by an [Execute] that took the data from [d0] to [d1], with
    its undo data at hand, for a registered command whose [Undo] restores
    [d0] from that undo data.  Then [Undo] returns with the cursor at [i] and the data back
    at [d0], and [Redo] called next returns with the cursor at [S i] again,
    the same history, and the data equal to [d1], the value it had
    immediately after that [Execute]. *)
Theorem Undo_then_Redo s (i : nat) (r : ref) (e : history_entry)
    (Cmd : command_base parser D) (P : list byte) (d0 d1 : D) :
  m_Done s = false →
  well_formed s →
  m_UndoIndex s = S i →
  m_History s !! i = Some r → Heap s !! r = Some e →
  m_Commands s !! getCommandName (m_CommandString e) = Some Cmd →
  recorded Cmd e P d0 d1 →
  restores Cmd P d0 →
  at_hand s e P →
  ∃ s1 s2,
    Undo s = Returns s1 ∧ m_UndoIndex s1 = i ∧ DataBase s1 = d0
    ∧ Redo s1 = Returns s2 ∧ m_UndoIndex s2 = m_UndoIndex s ∧ DataBase s2 = d1
    ∧ m_History s2 = m_History s.
Proof.
  intros Hdone Hwf Hidx Hr He Hcmd (p & Hparse & Hback & Hredo) Hrest (HP & Hhand).
  pose proof Hwf as (Hrefs & Hlen & Hassert).
  pose proof (lookup_lt_Some _ _ _ Hr) as Hi.
  pose proof (lookup_lt_Some _ _ _ He) as Hrlt.
  pose proof Hrest as Hundo. unfold restores in Hundo.
  (* the state [Undo] hands to [UpdateLRU], or returns *)
  assert (∃ u e1,
    Undo s = (if path_empty s then Returns u
              else UpdateLRU (set_LRU (m_LRU s ++ [r]) u))
    ∧ m_UndoIndex u = i ∧ DataBase u = d0 ∧ m_History u = m_History s
    ∧ config u = config s ∧ length (Heap u) = length (Heap s)
    ∧ Heap u !! r = Some e1 ∧ m_CommandString e1 = m_CommandString e)
    as (u & e1 & HU & Hui & Hud & Huh & Huc & Hul & Hue & Hucmd).
  { destruct Hhand as [Hcache | (Hcache & Hpath & Hload)].
    - exists (set_DataBase d0 (set_UndoIndex i s)), e.
      rewrite (Undo_resident s i r e Cmd d0); try done.
      + unfold cache_empty. rewrite Hcache. by apply bool_decide_eq_false_2.
      + by rewrite Hcache.
    - set (e1 := JobExec.warmup_entry e (Files s)).
      assert (Hc : cache_empty e = true)
        by (unfold cache_empty; by apply bool_decide_eq_true_2).
      assert (He1 : m_CacheUndoData e1 = P)
        by (unfold e1, JobExec.warmup_entry; by rewrite Hc).
      exists (set_DataBase d0 (set_Heap (<[r := e1]> (Heap s)) (set_UndoIndex i s))), e1.
      rewrite (Undo_warmed s i r e Cmd d0); try done.
      + rewrite Hpath. repeat split; try done.
        * simpl. apply length_insert.
        * simpl. by apply list_lookup_insert_eq.
        * unfold e1, JobExec.warmup_entry. rewrite Hc.
          pose proof (Load_payload_ident e (Files s)) as Hid.
          unfold ident in Hid. by injection Hid.
      + unfold cache_empty. fold e1. rewrite He1. by apply bool_decide_eq_false_2.
      + fold e1. by rewrite He1. }
  assert (Hwfu : well_formed u).
  { apply (well_formed_set s); try done. lia. }
  (* [Undo] returns *)
  assert (∃ s1, Undo s = Returns s1 ∧ m_UndoIndex s1 = i ∧ DataBase s1 = d0
                ∧ m_History s1 = m_History s ∧ config s1 = config s
                ∧ well_formed s1
                ∧ ∃ e2, Heap s1 !! r = Some e2 ∧ m_CommandString e2 = m_CommandString e)
    as (s1 & HU1 & Hi1 & Hd1 & Hh1 & Hc1 & Hwf1 & e2 & He2 & Hcmd2).
  { rewrite HU. destruct (path_empty s) eqn:Hpath.
    - exists u. split_and!; try done. by exists e1.
    - assert (Hwfl : well_formed (set_LRU (m_LRU s ++ [r]) u)).
      { apply (well_formed_set u); try done. by destruct Hwfu as (_ & ? & _). }
      destruct (UpdateLRU_is_Returns (set_LRU (m_LRU s ++ [r]) u)) as (s1 & H1);
        [done| |].
      { unfold path_empty in *. simpl. injection Huc as _ -> _. done. }
      exists s1. split; [done|].
      pose proof (UpdateLRU_frame _ _ H1) as Hf.
      pose proof (frame_config _ _ Hf) as Hcf.
      apply frame_fields in Hf as (Hfi & Hfh & _ & _ & _ & _ & _ & _ & _ & Hfd).
      simpl in Hfi, Hfh, Hfd.
      split_and!; try congruence.
      + by rewrite Hcf, <- Huc.
      + by apply (UpdateLRU_well_formed _ _ H1).
      + pose proof (UpdateLRU_ident _ _ H1) as Hid. simpl in Hid.
        apply (ident_lookup _ _ r) in Hid. rewrite Hue in Hid.
        destruct (Heap s1 !! r) as [e2|]; simpl in Hid; [|done].
        exists e2. split; [done|]. unfold ident in Hid. injection Hid as _ _ ->. done. }
  (* [Redo] returns *)
  assert (Hdone1 : m_Done s1 = false) by (injection Hc1 as _ _ _ _ -> _; done).
  assert (Hcmd1 : m_Commands s1 !! getCommandName (m_CommandString e2) = Some Cmd)
    by (injection Hc1 as -> _ _ _ _ _; by rewrite Hcmd2).
  assert (Hr1 : m_History s1 !! m_UndoIndex s1 = Some r) by (by rewrite Hh1, Hi1).
  pose proof (Redo_applies s1 r e2 Cmd p d1 Hdone1 Hr1 He2 Hcmd1) as HR.
  rewrite Hcmd2, Hd1 in HR. specialize (HR Hparse Hredo).
  assert (Hp1 : path_empty s1 = path_empty s)
    by (unfold path_empty; injection Hc1 as _ -> _; done).
  exists s1.
  destruct (path_empty s1) eqn:Hpath1.
  - simpl in HR.
    exists (set_UndoIndex (m_UndoIndex s1 + 1) (set_DataBase d1 s1)).
    split_and!; try done. simpl. lia.
  - destruct (UpdateLRU_is_Returns (set_LRU (m_LRU s1 ++ [r]) (set_DataBase d1 s1)))
      as (s2 & H2); [|done|].
    { apply (well_formed_set s1); try done. by destruct Hwf1 as (_ & ? & _). }
    rewrite H2 in HR. simpl in HR.
    apply UpdateLRU_frame, frame_fields in H2
      as (Hfi & Hfh & _ & _ & _ & _ & _ & _ & _ & Hfd).
    simpl in Hfi, Hfh, Hfd.
    exists (set_UndoIndex (m_UndoIndex s2 + 1) s2).
    split_and!; try done; simpl; [lia | congruence].
Qed.

(** ** Calls that cannot abort *)








(** ** [Execute] followed by [Undo] *)

Lemma UpdateLRU_unsaved s s' r e :
  UpdateLRU s = Returns s' → Heap s !! r = Some e → m_bHasBeenSaved e = false →
  Heap s' !! r = Some e.
Proof.
  unfold UpdateLRU. intros H He Hu. case_bool_decide; [by injection H as <-|].
  apply bind_Returns in H as (u & _ & H).
  apply look_ahead_frame in H as [_ ->]. unfold after_eviction.
  pose proof (evict_unsaved (m_MaxCachedSteps s - m_LookAheadSteps s * 2 - 1)
                (m_LRU s) (Heap s) r e He Hu) as Hev.
  by destruct (evict _ _ _).
Qed.

Lemma well_formed_append s u (Entry : history_entry) :
  well_formed s →
  config u = config s →
  m_History u = take (m_UndoIndex s) (m_History s) ++ [length (Heap s)] →
  m_UndoIndex u = S (m_UndoIndex s) →
  Heap u = Heap s ++ [Entry] →
  well_formed u.
Proof.
  intros (Hrefs & Hidx & Hassert) Hc Hh Hi Hheap. split; [|split].
  - rewrite Hh, Hheap, length_app. simpl. apply Forall_app. split.
    + apply Forall_take. eapply Forall_impl; [exact Hrefs|]. simpl. lia.
    + apply Forall_singleton. lia.
  - rewrite Hi, Hh, length_app, length_take_le by done. simpl. lia.
  - unfold path_empty in *. injection Hc as _ -> -> -> _ _. done.
Qed.

(** What a recording [Execute] leaves: the new entry, with its backup in
    the cache, at the position below the cursor. *)
Lemma record_entry_new Entry s s' :
  record_entry Entry s = Returns s' → well_formed s →
  m_bHasBeenSaved Entry = false →
  well_formed s'
  ∧ config s' = config s
  ∧ m_UndoIndex s' = S (m_UndoIndex s)
  ∧ m_History s' = take (m_UndoIndex s) (m_History s) ++ [length (Heap s)]
  ∧ Heap s' !! length (Heap s) = Some Entry
  ∧ DataBase s' = DataBase s.
Proof.
  intros H Hwf Hu.
  apply record_entry_cases in H as (jobs & _ & H). cbv zeta in H.
  set (s1 := set_UndoIndex (m_UndoIndex s + 1) _) in H.
  assert (Hwf1 : ∀ u, config u = config s1 → m_History u = m_History s1 →
                      m_UndoIndex u = m_UndoIndex s1 → Heap u = Heap s1 →
                      well_formed u).
  { intros u Hc Hh Hi Hheap. apply (well_formed_append s u Entry Hwf); try done.
    rewrite Hi. simpl. lia. }
  assert (He1 : Heap s1 !! length (Heap s) = Some Entry)
    by (simpl; by apply list_lookup_middle).
  destruct (path_empty s) eqn:Hpath.
  - subst s'. split_and!; try done; [by apply Hwf1 | simpl; lia].
  - pose proof (UpdateLRU_frame _ _ H) as Hf.
    pose proof (frame_config _ _ Hf) as Hc.
    apply frame_fields in Hf as (Hi & Hh & _ & _ & _ & _ & _ & _ & _ & Hdb).
    split_and!; try done.
    + apply (UpdateLRU_well_formed _ _ H). by apply Hwf1.
    + rewrite Hi. simpl. lia.
    + by apply (UpdateLRU_unsaved _ _ _ _ H).
Qed.

(** X5.  A recording [Execute] followed at once by [Undo]: [Undo] returns, the
    caller's data is what it was before the [Execute], the cursor is back
    where it was, and the new entry stays in the history, ready for
    [Redo].  The command is registered under the name of the command
    string, its backup is not empty and its [Undo] restores the data from
    it. *)
Theorem Execute_then_Undo (Cmd : command_base parser D)
    (cmd_str : string) (UserID now_ms : Z) s s' run :
  well_formed s →
  executes Cmd cmd_str UserID now_ms s run →
  run = Returns ("", s') →
  m_Commands s !! getCommandName cmd_str = Some Cmd →
  let p := (Cmd.Parse Cmd cmd_str).2 in
  Cmd.hasHelp Cmd p = false →
  backup_of Cmd p (DataBase s) ≠ [] →
  restores Cmd (backup_of Cmd p (DataBase s)) (DataBase s) →
  ∃ s'', Undo s' = Returns s''
         ∧ DataBase s'' = DataBase s
         ∧ m_UndoIndex s'' = m_UndoIndex s
         ∧ m_History s'' = m_History s'
         ∧ m_History s' !! m_UndoIndex s = Some (length (Heap s)).
Proof.
  intros Hwf Hrun Hret Hcmd p Hhelp HP Hrest.
  apply executes_typed in Hrun. subst run.
  pose proof (ExecuteCmd_Returns _ _ _ _ _ _ _ Hret) as [Hdone _].
  apply ExecuteCmd_success in Hret as [_ Hret]. fold p in Hret. rewrite Hhelp in Hret.
  destruct Hret as [_ Hrec].
  set (Entry := make_entry Cmd p cmd_str UserID now_ms s) in *.
  apply record_entry_new in Hrec as (Hwf' & Hc & Hi & Hh & He & Hdb); [|done..].
  simpl in Hc, Hi, Hh, He, Hdb.
  assert (Hr : m_History s' !! m_UndoIndex s = Some (length (Heap s))).
  { rewrite Hh. apply list_lookup_middle. rewrite length_take_le; [done|].
    by destruct Hwf as (_ & ? & _). }
  assert (Hdone' : m_Done s' = false) by (injection Hc as _ _ _ _ -> _; done).
  assert (Hcmd' : m_Commands s' !! getCommandName (m_CommandString Entry) = Some Cmd)
    by (injection Hc as -> _ _ _ _ _; done).
  assert (Hce : cache_empty Entry = false)
    by (unfold cache_empty; by apply bool_decide_eq_false_2).
  rewrite (Undo_resident s' (m_UndoIndex s) (length (Heap s)) Entry Cmd (DataBase s)
             Hdone' Hi Hr He Hce Hcmd' (Hrest _)).
  cbv zeta.
  destruct (path_empty s') eqn:Hpath; [by eexists|].
  destruct (UpdateLRU_is_Returns
              (set_LRU (m_LRU s' ++ [length (Heap s)])
                 (set_DataBase (DataBase s) (set_UndoIndex (m_UndoIndex s) s'))))
    as [s'' H]; [|done|].
  { apply (well_formed_set s'); try done. simpl.
    destruct Hwf' as (_ & Hle & _). rewrite Hi in Hle. lia. }
  exists s''. split; [done|].
  by apply UpdateLRU_frame, frame_fields in H as (? & ? & _ & _ & _ & _ & _ & _ & _ & ?).
Qed.


(** ** The command name *)

(** X10.  [getCommandName] returns the part of the string before its first
    space, or the whole string when it has none: the result holds no space,
    and the string is the result, or the result followed by a space and the
    rest. *)
Theorem getCommandName_spec (str : string) :
  (∀ c, c ∈ String.list_ascii_of_string (getCommandName str) → c ≠ " "%char)
  ∧ (str = getCommandName str
     ∨ ∃ rest, str = getCommandName str +:+ " " +:+ rest).
Proof.
  induction str as [|c str [IH1 IH2]]; [split; [by intros c Hc; apply elem_of_nil in Hc | by left]|].
  cbn [getCommandName]. destruct (Ascii.eqb_spec c " "%char) as [->|Hc].
  - split; [by intros c Hc; apply elem_of_nil in Hc|]. right. by exists str.
  - split.
    + intros c' Hc'. cbn in Hc'. apply elem_of_cons in Hc' as [->|Hc']; [done|by apply IH1].
    + destruct IH2 as [IH2|[rest IH2]].
      * left. by rewrite <- IH2.
      * right. exists rest.
        change (String c str = String c (getCommandName str +:+ " " +:+ rest)).
        by f_equal.
Qed.

(** ** [warmup_cache] after an eviction *)

(** X11.  An entry whose cache was cleared after it was saved is given back its
    undo data by the [warmup_cache] job, and nothing else of it changes:
    the entry is again what it was when its file was written. *)
Theorem warmup_cache_restores (e : history_entry) (files : disk) :
  Z.of_nat (length (m_CacheUndoData e)) < 2 ^ 32 →
  files !! m_TimeStamp e = Some (Job.Save_file e).2 →
  JobExec.warmup_entry (set_CacheUndoData [] e) files = e.
Proof.
  intros Hdata Hfile. unfold JobExec.warmup_entry.
  unfold cache_empty at 1. rewrite bool_decide_eq_true_2 by done.
  pose proof (Load_cache_of_Save e (set_CacheUndoData [] e) files Hdata Hfile) as Hc.
  pose proof (Load_payload_ident (set_CacheUndoData [] e) files) as Hi.
  pose proof (Load_saved (set_CacheUndoData [] e) files false true) as Hs.
  destruct (Job.Load (set_CacheUndoData [] e) files false true).2 as [u t c p b].
  destruct e as [u0 t0 c0 p0 b0]. unfold ident in Hi. cbn in *.
  by simplify_eq.
Qed.


(** ** The workers emptying the queue *)

Lemma drain_more n s :
  m_IOQueue (drain n s) = drop n (m_IOQueue s)
  ∧ IndexFiles (drain n s) = IndexFiles s
  ∧ DataBase (drain n s) = DataBase s
  ∧ m_CommandCounter (drain n s) = m_CommandCounter s
  ∧ m_bAutoLoadSave (drain n s) = m_bAutoLoadSave s.
Proof.
  revert s. induction n as [|n IH]; intros s; simpl.
  - by rewrite drop_0.
  - destruct (IH (IOWorker s)) as (-> & -> & -> & -> & ->).
    unfold IOWorker. destruct (m_IOQueue s) as [|j q] eqn:Hq.
    + by rewrite Hq, drop_nil.
    + by destruct (JobExec.Execute j (Heap s) (Files s)).
Qed.


(** ** The loops of [LoadTimestamps] *)

Lemma length_stamps_read Count File : length (stamps_read Count File) = Count.
Proof.
  revert File. induction Count as [|n IH]; intros File; simpl; [done|].
  destruct (Stdio.fread 8 File) as [[ok b] File']. simpl. by rewrite IH.
Qed.

Lemma system_eq s s' :
  m_UndoIndex s = m_UndoIndex s' → m_History s = m_History s' → m_LRU s = m_LRU s' →
  m_Commands s = m_Commands s' → m_UndoPath s = m_UndoPath s' →
  m_DefaultUser s = m_DefaultUser s' → m_MaxCachedSteps s = m_MaxCachedSteps s' →
  m_LookAheadSteps s = m_LookAheadSteps s' → m_IOQueue s = m_IOQueue s' →
  m_Done s = m_Done s' → m_bAutoLoadSave s = m_bAutoLoadSave s' →
  m_CommandCounter s = m_CommandCounter s' → Heap s = Heap s' → Files s = Files s' →
  IndexFiles s = IndexFiles s' → DataBase s = DataBase s' →
  Held s = Held s' → WriteErrors s = WriteErrors s' → s = s'.
Proof. destruct s, s'. cbn. intros. by subst. Qed.

Lemma load_placeholders_eq Count File s :
  load_placeholders Count File s
  = set_IOQueue (m_IOQueue s ++ (load_entries <$> seq (length (Heap s)) Count))
      (set_History (m_History s ++ seq (length (Heap s)) Count)
         (set_Heap (Heap s ++ (placeholder <$> stamps_read Count File)) s)).
Proof.
  revert File s. induction Count as [|n IH]; intros File s.
  - apply system_eq; cbn; by rewrite ?app_nil_r.
  - cbn [load_placeholders stamps_read].
    destruct (Stdio.fread 8 File) as [[ok b] File']. unfold alloc.
    rewrite IH. apply system_eq; try reflexivity.
    + cbn. rewrite length_app, <- app_assoc. cbn. by rewrite Nat.add_1_r.
    + cbn. rewrite length_app, <- app_assoc. cbn. by rewrite Nat.add_1_r.
    + cbn. by rewrite <- app_assoc.
Qed.

Lemma run_jobs_load_entries (heap0 ps : list history_entry) (files : disk) :
  run_jobs (load_entries <$> seq (length heap0) (length ps)) (heap0 ++ ps) files
  = (heap0 ++ ((λ e, JobExec.load_entry e files) <$> ps), files).
Proof.
  revert heap0. induction ps as [|p ps IH]; intros heap0; [done|].
  cbn [length seq fmap list_fmap run_jobs JobExec.Execute].
  rewrite alter_app_r_alt by lia. rewrite Nat.sub_diag. cbn [alter list_alter].
  specialize (IH (heap0 ++ [JobExec.load_entry p files])).
  rewrite length_app, Nat.add_1_r in IH. cbn [length] in IH.
  rewrite <- !app_assoc in IH. exact IH.
Qed.




(** ** What [Undo] and [Redo] leave alone *)

Lemma Undo_quiet s s' :
  Undo s = Returns s' →
  m_History s' = m_History s
  ∧ m_UndoIndex s' = pred (m_UndoIndex s)
  ∧ Files s' = Files s ∧ IndexFiles s' = IndexFiles s
  ∧ ident <$> Heap s' = ident <$> Heap s
  ∧ m_CommandCounter s' = m_CommandCounter s.
Proof.
  intros H.
  apply Undo_Returns in H as (Hdone & [[-> Hz] | H]); [by rewrite Hz|].
  destruct H as (r & e & Cmd & db & s1 & e1 & Hpos & Hr & He & Hcmd & Hs1 & He1 & Hc1
                 & Hundo & H).
  assert (H1 : m_History s1 = m_History s
               ∧ m_UndoIndex s1 = pred (m_UndoIndex s)
               ∧ Files s1 = Files s ∧ IndexFiles s1 = IndexFiles s
               ∧ ident <$> Heap s1 = ident <$> Heap s
               ∧ m_CommandCounter s1 = m_CommandCounter s).
  { destruct Hs1 as [[_ ->] | (_ & _ & ->)]; cbn; [split_and!; try done; lia|].
    unfold run_now. cbn [JobExec.Execute]. cbn. split_and!; try done; [lia|].
    apply (Execute_ident (warmup_cache r) (Heap s) (Files s) I). }
  destruct H1 as (Hh & Hi & Hf & Hix & Hid & Hc).
  destruct (path_empty s).
  - subst s'. by cbn.
  - pose proof (UpdateLRU_ident _ _ H) as Hid'.
    apply UpdateLRU_frame in H.
    pose proof (f_equal IndexFiles H) as Hix'. cbn in Hix'.
    apply frame_fields in H as (Hi' & Hh' & _ & _ & _ & _ & _ & Hc' & Hf' & _).
    cbn in *. split_and!; congruence.
Qed.

Lemma Redo_quiet s s' :
  Redo s = Returns s' →
  m_History s' = m_History s
  ∧ (m_UndoIndex s' = m_UndoIndex s
     ∨ m_UndoIndex s' = S (m_UndoIndex s) ∧ (m_UndoIndex s < length (m_History s))%nat)
  ∧ Files s' = Files s ∧ IndexFiles s' = IndexFiles s
  ∧ ident <$> Heap s' = ident <$> Heap s
  ∧ m_CommandCounter s' = m_CommandCounter s.
Proof.
  intros H.
  apply Redo_Returns in H as (Hdone & [-> | H]); [split_and!; try done; by left|].
  destruct H as (r & e & Cmd & Hr & He & Hcmd & Hparse & H). cbv zeta in H.
  destruct H as [[_ ->] | (_ & s2 & H & ->)]; [split_and!; try done; by left|].
  apply lookup_lt_Some in Hr.
  destruct (path_empty s).
  - subst s2. cbn. split_and!; try done. right. split; [lia | done].
  - pose proof (UpdateLRU_ident _ _ H) as Hid'.
    apply UpdateLRU_frame in H.
    pose proof (f_equal IndexFiles H) as Hix'. cbn in Hix'.
    apply frame_fields in H as (Hi' & Hh' & _ & _ & _ & _ & _ & Hc' & Hf' & _).
    cbn in *. split_and!; try congruence. right. split; [lia | done].
Qed.

(** X15.  [Undo] and [Redo] never change the history, never create, change or
    delete a file (entry files or index files), never change the key data
    of any entry and never take a timestamp; they move the cursor by at most
    one. *)
Theorem Undo_Redo_leave_disk s s' :
  Undo s = Returns s' ∨ Redo s = Returns s' →
  m_History s' = m_History s
  ∧ Files s' = Files s ∧ IndexFiles s' = IndexFiles s
  ∧ ident <$> Heap s' = ident <$> Heap s
  ∧ m_CommandCounter s' = m_CommandCounter s
  ∧ (m_UndoIndex s' ≤ S (m_UndoIndex s))%nat ∧ (m_UndoIndex s ≤ S (m_UndoIndex s'))%nat.
Proof.
  intros [H | H].
  - apply Undo_quiet in H as (? & Hi & ? & ? & ? & ?). split_and!; try done; lia.
  - apply Redo_quiet in H as (? & Hi & ? & ? & ? & ?). split_and!; try done; lia.
Qed.


(** ** The cursor stays within the history *)

Lemma for_each_cache_latest_cursor l s s' :
  for_each cache_latest l s = Returns s' →
  m_History s' = m_History s ∧ m_UndoIndex s' = m_UndoIndex s.
Proof.
  revert s. induction l as [|i l IH]; intros s H; simpl in H.
  - by injection H as <-.
  - apply bind_Returns in H as (s1 & H1 & H).
    apply IH in H as [-> ->].
    unfold cache_latest in H1. apply bind_Returns in H1 as ([r e] & _ & H1).
    by destruct (cache_empty e && m_bHasBeenSaved e); injection H1 as <-.
Qed.

Lemma LoadTimestamps_cursor FilePath ws1 ws2 s err s' :
  LoadTimestamps FilePath ws1 ws2 s = Returns (err, s') →
  (m_UndoIndex s' ≤ length (m_History s'))%nat.
Proof.
  unfold LoadTimestamps. intros H.
  apply bind_Returns in H as (u1 & _ & H).
  apply bind_Returns in H as (u2 & _ & H).
  destruct (IndexFiles _ !! _) as [File|].
  2:{ injection H as _ <-. simpl. lia. }
  destruct (Stdio.fread 4 File) as [[ok b] File'].
  apply bind_Returns in H as (s2 & Hloop & H). injection H as _ <-.
  apply for_each_cache_latest_cursor in Hloop as [-> ->].
  match goal with |- context [SynJobQueue ws2 ?t] =>
    destruct (SynJobQueue_fields ws2 t) as (_ & _ & -> & -> & _) end.
  cbn [m_UndoIndex set_UndoIndex m_History].
  rewrite load_placeholders_eq. cbn. rewrite length_seq. lia.
Qed.

Lemma ExecuteCmd_cursor (Cmd : command_base parser D) cmd_str UserID now_ms s err s' :
  ExecuteCmd Cmd cmd_str UserID now_ms s = Returns (err, s') →
  (m_UndoIndex s ≤ length (m_History s))%nat →
  (m_UndoIndex s' ≤ length (m_History s'))%nat.
Proof.
  intros H Hle. apply ExecuteCmd_Returns in H. cbv zeta in H.
  destruct H as (_ & [-> | [[_ ->] | (_ & _ & _ & _ & H)]]); [done | done |].
  apply record_entry_Returns, frame_fields in H as (-> & -> & _).
  cbn. rewrite length_app, length_take_le by done. cbn. lia.
Qed.

Lemma perform_cursor (c : call parser D) s s' :
  perform c s = Returns s' →
  (m_UndoIndex s ≤ length (m_History s))%nat →
  (m_UndoIndex s' ≤ length (m_History s'))%nat.
Proof.
  destruct c as [UndoPath auto ws1 ws2 | cmd_str UserID now_ms | Cmd cmd_str UserID now_ms
                | | | FilePath | FilePath ws1 ws2 | | w]; simpl; intros H Hle.
  - apply bind_Returns in H as ([err s1] & H & H'). injection H' as <-.
    unfold Init in H. simpl in H.
    repeat case_match; try (by injection H as _ <-).
    + by apply LoadTimestamps_cursor in H.
    + apply bind_Returns in H as (u & _ & H). by injection H as _ <-.
  - apply bind_Returns in H as ([err s1] & H & H'). injection H' as <-.
    apply Execute_Returns in H as [-> | (Cmd & _ & H)]; [done|].
    by apply ExecuteCmd_cursor in H.
  - apply bind_Returns in H as ([err s1] & H & H'). injection H' as <-.
    by apply ExecuteCmd_cursor in H.
  - apply Undo_quiet in H as (-> & -> & _). lia.
  - apply Redo_quiet in H as (-> & [-> | [-> ?]] & _); lia.
  - apply bind_Returns in H as ([err s1] & H & H'). injection H' as <-.
    by apply SaveTimestamps_Returns in H as [-> | (File & ->)].
  - apply bind_Returns in H as ([err s1] & H & H'). injection H' as <-.
    by apply LoadTimestamps_cursor in H.
  - injection H as <-. by destruct (IOWorker_fields s) as (_ & _ & -> & -> & _).
  - injection H as <-. by destruct (work_fields w s) as (_ & _ & -> & -> & _).
Qed.

(** X16.  Whatever the calls ([Init] and [LoadTimestamps] included, and the
    typed [Execute] with any command), if the cursor is within the history
    before them it is within the history after them. *)
Theorem cursor_within_history (calls : list (call parser D)) s s' :
  (m_UndoIndex s ≤ length (m_History s))%nat →
  run calls s = Returns s' →
  (m_UndoIndex s' ≤ length (m_History s'))%nat.
Proof.
  revert s. induction calls as [|c calls IH]; intros s Hle H; simpl in H.
  - by injection H as <-.
  - apply bind_Returns in H as (s1 & H1 & H).
    apply (IH s1); [|done]. by apply (perform_cursor c s).
Qed.


Lemma Execute_length j (heap : list history_entry) (files : disk) :
  length (JobExec.Execute j heap files).1 = length heap.
Proof.
  destruct j as [r|ts|r|r]; simpl.
  - destruct (heap !! r) as [e|]; [|done].
    destruct (JobExec.save_entry e files). simpl. apply length_insert.
  - done.
  - apply length_alter.
  - apply length_alter.
Qed.

(** ** What the workers do while the owner waits *)

Lemma works_app ws ws' s : works (ws ++ ws') s = works ws' (works ws s).
Proof. revert s. induction ws as [|w ws IH]; intros s; simpl; [done | apply IH]. Qed.

(** A turn of the loop in which the job is executed at once. *)
Lemma IOWorker_works s :
  IOWorker s = works [pops; finishes (length (Held s))] s.
Proof.
  unfold IOWorker. cbn [works work]. unfold pop_job.
  destruct (m_IOQueue s) as [|j q] eqn:Hq.
  - unfold finish_job. by rewrite lookup_ge_None_2.
  - unfold finish_job. cbn [Held set_Held].
    rewrite lookup_app_r by done. rewrite Nat.sub_diag. cbn [lookup list_lookup].
    unfold run_now. cbn [Heap Files set_Held set_IOQueue].
    destruct (JobExec.Execute j (Heap s) (Files s)) as [heap files].
    apply system_eq; try reflexivity. cbn.
    rewrite delete_take_drop, take_app_length, drop_ge;
      [by rewrite app_nil_r | rewrite length_app; simpl; lia].
Qed.

Lemma drain_works n s : ∃ ws, drain n s = works ws s.
Proof.
  revert s. induction n as [|n IH]; intros s; [by exists []|]. cbn [drain].
  destruct (IH (IOWorker s)) as (ws & ->). rewrite IOWorker_works.
  exists ([pops; finishes (length (Held s))] ++ ws). by rewrite works_app.
Qed.


Lemma SynJobQueue_works ws s : ∃ ws', SynJobQueue ws s = works ws' s.
Proof.
  unfold SynJobQueue. destruct (path_empty s); [by exists []|].
  destruct (drain_works (length (m_IOQueue (works ws s))) (works ws s)) as (ws' & ->).
  exists (ws ++ ws'). by rewrite works_app.
Qed.

Lemma SynJobQueue_queue ws s :
  path_empty s = false → m_IOQueue (SynJobQueue ws s) = [].
Proof.
  intros Hpath. unfold SynJobQueue. rewrite Hpath.
  destruct (drain_more (length (m_IOQueue (works ws s))) (works ws s)) as (-> & _).
  apply drop_all.
Qed.




(** The members the workers never write. *)
Lemma work_more w s :
  IndexFiles (work w s) = IndexFiles s
  ∧ DataBase (work w s) = DataBase s
  ∧ m_CommandCounter (work w s) = m_CommandCounter s
  ∧ m_bAutoLoadSave (work w s) = m_bAutoLoadSave s
  ∧ WriteErrors (work w s) = WriteErrors s
  ∧ length (Heap (work w s)) = length (Heap s).
Proof.
  destruct w as [|k]; cbn.
  - unfold pop_job. by destruct (m_IOQueue s).
  - unfold finish_job. destruct (Held s !! k) as [j|]; [|done].
    unfold run_now. cbn [Heap Files set_Held].
    pose proof (Execute_length j (Heap s) (Files s)) as Hl.
    destruct (JobExec.Execute j (Heap s) (Files s)). by split_and!.
Qed.

Lemma works_more ws s :
  IndexFiles (works ws s) = IndexFiles s
  ∧ DataBase (works ws s) = DataBase s
  ∧ m_CommandCounter (works ws s) = m_CommandCounter s
  ∧ m_bAutoLoadSave (works ws s) = m_bAutoLoadSave s
  ∧ WriteErrors (works ws s) = WriteErrors s
  ∧ length (Heap (works ws s)) = length (Heap s).
Proof.
  revert s. induction ws as [|w ws IH]; intros s; [done|]. cbn.
  destruct (IH (work w s)) as (-> & -> & -> & -> & -> & ->). apply work_more.
Qed.






Lemma drain_Held n s : Held (drain n s) = Held s.
Proof.
  revert s. induction n as [|n IH]; intros s; [done|]. cbn.
  by rewrite IH, IOWorker_Held.
Qed.

(** ** [SynJobQueue] *)

(** One worker holds [Job] while the others take the queue, each job
    executed before the next is popped. *)
Lemma works_others (H : list job) (Job : job) (rest : list job) s :
  Held s = H ++ [Job] → m_IOQueue s = rest →
  let s' := works (concat (replicate (length rest) [pops; finishes (S (length H))])) s in
  m_IOQueue s' = [] ∧ Held s' = H ++ [Job]
  ∧ (Heap s', Files s') = run_jobs rest (Heap s) (Files s).
Proof.
  revert s. induction rest as [|j rest IH]; intros s Hh Hq.
  - cbn. by rewrite Hq, Hh.
  - cbn [length replicate concat]. cbn zeta. rewrite works_app.
    set (u := works [pops; finishes (S (length H))] s).
    assert (Hu : m_IOQueue u = rest ∧ Held u = H ++ [Job]
                 ∧ (Heap u, Files u) = JobExec.Execute j (Heap s) (Files s)).
    { unfold u. cbn [works work]. unfold pop_job. rewrite Hq.
      unfold finish_job. cbn [Held set_Held]. rewrite Hh.
      assert (Hlen : S (length H) = length (H ++ [Job]))
        by (rewrite length_app; simpl; lia).
      rewrite Hlen, (list_lookup_middle (H ++ [Job]) [] j) by done.
      rewrite delete_middle, app_nil_r.
      unfold run_now. cbn [Heap Files set_Held set_IOQueue].
      by destruct (JobExec.Execute j (Heap s) (Files s)) as [heap files]. }
    destruct Hu as (Hqu & Hhu & Hrun).
    destruct (IH u Hhu Hqu) as (Hq' & Hh' & Hr'). cbn zeta in Hq', Hh', Hr'.
    split_and!; [done | done |]. rewrite Hr'. cbn [run_jobs].
    destruct (JobExec.Execute j (Heap s) (Files s)) as [heap files].
    by injection Hrun as -> ->.
Qed.

(** X12.  With a path, [SynJobQueue] returns with an empty queue whatever
    the workers do in the meantime, and it leaves the history, the cursor,
    the LRU list, the caller's data and the index files alone.  It does
    not wait for a job that a worker has popped: when a worker pops the
    first job and the other workers take the rest of the queue, each job
    executed before the next is popped, the queue is empty and the call
    returns while the first job is still held, not executed. *)
Theorem SynJobQueue_returns ws s :
  path_empty s = false →
  m_IOQueue (SynJobQueue ws s) = []
  ∧ m_History (SynJobQueue ws s) = m_History s
  ∧ m_UndoIndex (SynJobQueue ws s) = m_UndoIndex s
  ∧ m_LRU (SynJobQueue ws s) = m_LRU s
  ∧ DataBase (SynJobQueue ws s) = DataBase s
  ∧ IndexFiles (SynJobQueue ws s) = IndexFiles s
  ∧ (∀ Job rest, m_IOQueue s = Job :: rest →
       let slow := pops :: concat (replicate (length rest)
                                     [pops; finishes (S (length (Held s)))]) in
       m_IOQueue (works slow s) = []
       ∧ SynJobQueue slow s = works slow s
       ∧ Held (SynJobQueue slow s) = Held s ++ [Job]
       ∧ (Heap (SynJobQueue slow s), Files (SynJobQueue slow s))
         = run_jobs rest (Heap s) (Files s)).
Proof.
  intros Hpath.
  destruct (SynJobQueue_fields ws s) as (Hl & _ & Hi & Hh & _).
  destruct (SynJobQueue_works ws s) as (ws' & Hw).
  destruct (works_more ws' s) as (Hix & Hdb & _).
  split_and!; [by apply SynJobQueue_queue | done | done | done
              | by rewrite Hw | by rewrite Hw |].
  intros Job rest Hq slow.
  set (u := pop_job s).
  assert (Hu : Held u = Held s ++ [Job] ∧ m_IOQueue u = rest
               ∧ Heap u = Heap s ∧ Files u = Files s).
  { unfold u, pop_job. by rewrite Hq. }
  destruct Hu as (Hhu & Hqu & Hheap & Hfiles).
  destruct (works_others (Held s) Job rest u Hhu Hqu) as (Hq' & Hh' & Hr').
  cbn zeta in Hq', Hh', Hr'. rewrite Hheap, Hfiles in Hr'.
  assert (Hsyn : SynJobQueue slow s = works slow s).
  { unfold SynJobQueue. rewrite Hpath. unfold slow. cbn [works work]. fold u.
    by rewrite Hq'. }
  rewrite Hsyn. unfold slow. cbn [works work]. fold u. by split_and!.
Qed.

(** ** [LoadTimestamps] on an index file that is missing *)




(** ** Loading a history *)












(** ** The index file and the destructor *)









(** ** [SaveTimestamps] on a file that cannot be written *)

(** X23.  When the index file cannot be opened for writing, [SaveTimestamps]
    returns the text ["Error saving timestamps: "] followed by the text of
    the error, and changes nothing: no file is written, and the history,
    the cursor and the queue are as they were. *)
Theorem SaveTimestamps_unwritable FilePath s ErrMsg :
  m_Done s = false → path_empty s = false →
  WriteErrors s !! timestamps_path FilePath s = Some ErrMsg →
  SaveTimestamps FilePath s = Returns ("Error saving timestamps: " +:+ ErrMsg, s).
Proof.
  intros Hdone Hpath Hw. unfold SaveTimestamps.
  rewrite Hdone. cbn [negb assert mbind outcome_bind].
  rewrite Hpath. cbn [negb assert mbind outcome_bind].
  by rewrite Hw.
Qed.

End EngineFacts.

(** ** Sessions: what [Execute] records stays undoable *)

Section SessionFacts.
Context {parser D : Type} {stack : uninitialised}.
Implicit Types s : system parser D.
Implicit Types cmds : gmap string (command_base parser D).
Variable valid : D → Prop.

Lemma kept_evict cmds files e d0 d1 :
  kept valid cmds false files e d0 d1 →
  kept valid cmds false files
    (if m_bHasBeenSaved e then set_CacheUndoData [] e else e) d0 d1.
Proof.
  destruct (m_bHasBeenSaved e) eqn:Hsaved; [|done].
  intros (Cmd & P & Hcmd & Hrec & Hrest & Hd0 & HP & Hlen & _ & Hfile).
  exists Cmd, P. split_and!; try done. right. by split_and!.
Qed.

Lemma kept_warmup cmds no_path files e d0 d1 :
  kept valid cmds no_path files e d0 d1 →
  kept valid cmds no_path files (JobExec.warmup_entry e files) d0 d1.
Proof.
  unfold JobExec.warmup_entry, cache_empty. case_bool_decide as Hc; [|done].
  intros (Cmd & P & Hcmd & Hrec & Hrest & Hd0 & HP & Hlen & Hcache & Hfile).
  destruct Hcache as [Hcache | (_ & Hsaved & Hpath)]; [congruence|].
  pose proof (Load_payload_ident e files) as Hid. unfold ident in Hid.
  injection Hid as Huser Hts Hstr.
  exists Cmd, P. split_and!; try done.
  - by rewrite Hstr.
  - destruct Hrec as (p & Hparse & Hrec). exists p. by rewrite Hstr.
  - left. by apply Hfile.
  - intros _ e' He'. apply (Hfile Hsaved). by rewrite He', Hts.
Qed.

Lemma kept_save cmds no_path files e d0 d1 :
  kept valid cmds no_path files e d0 d1 →
  kept valid cmds no_path (JobExec.save_entry e files).2 (JobExec.save_entry e files).1
    d0 d1.
Proof.
  unfold JobExec.save_entry. destruct (m_bHasBeenSaved e) eqn:Hsaved; [done|].
  unfold Job.Save. destruct (Job.Save_file e) as [ok File] eqn:Hsave. cbn [fst snd].
  intros (Cmd & P & Hcmd & Hrec & Hrest & Hd0 & HP & Hlen & Hcache & _).
  destruct Hcache as [Hcache | (_ & ? & _)]; [|congruence].
  assert (Hload : ∀ e', m_TimeStamp e' = m_TimeStamp e →
            m_CacheUndoData (Job.Load e' (<[m_TimeStamp e := File]> files) false true).2 = P).
  { intros e' He'. rewrite <- Hcache. apply Load_cache_of_Save; [by rewrite Hcache|].
    by rewrite He', lookup_insert_eq, Hsave. }
  destruct ok; exists Cmd, P; split_and!; try done; by left.
Qed.

Lemma kept_files cmds no_path files files' e d0 d1 :
  files' !! m_TimeStamp e = files !! m_TimeStamp e →
  kept valid cmds no_path files e d0 d1 → kept valid cmds no_path files' e d0 d1.
Proof.
  intros Hsame (Cmd & P & Hcmd & Hrec & Hrest & Hd0 & HP & Hlen & Hcache & Hfile).
  exists Cmd, P. split_and!; try done.
  intros Hsaved e' He'. rewrite <- (Hfile Hsaved e' He').
  rewrite (Load_same_file e' files files'); [done|]. by rewrite He'.
Qed.

Lemma evict_lookup n lru (heap : list history_entry) r e :
  heap !! r = Some e →
  ∃ e', (evict n lru heap).2 !! r = Some e'
        ∧ (e' = e ∨ m_bHasBeenSaved e = true ∧ e' = set_CacheUndoData [] e).
Proof.
  revert heap e. induction lru as [|Oldest rest IH]; intros heap e He; simpl.
  - exists e. by split; [|left].
  - destruct (bool_decide (n < S (length rest))%nat); [|exists e; by split; [|left]].
    destruct (decide (Oldest = r)) as [->|Hne].
    + destruct (IH (alter (λ e, if m_bHasBeenSaved e then set_CacheUndoData [] e else e)
                      r heap)
                   (if m_bHasBeenSaved e then set_CacheUndoData [] e else e))
        as (e' & He' & Hcase).
      { rewrite list_lookup_alter_eq, He. done. }
      exists e'. split; [done|].
      destruct (m_bHasBeenSaved e) eqn:Hsaved.
      * right. split; [done|]. by destruct Hcase as [-> | [_ ->]].
      * destruct Hcase as [-> | [Hs _]]; [by left | congruence].
    + apply IH. by rewrite list_lookup_alter_ne.
Qed.

Lemma traced_more s0 (calls more : list (call parser D)) k r d0 d1 :
  traced s0 calls k r d0 d1 → traced s0 (calls ++ more) k r d0 d1.
Proof.
  intros (calls1 & c & calls2 & s_b & s_c & -> & H).
  exists calls1, c, (calls2 ++ more), s_b, s_c. split; [|done].
  by rewrite <- app_assoc.
Qed.

Lemma stamps_ident (h h' : list history_entry) :
  ident <$> h' = ident <$> h → m_TimeStamp <$> h' = m_TimeStamp <$> h.
Proof.
  intros H.
  change m_TimeStamp with ((λ x : Z * Z * string, x.1.2) ∘ ident).
  by rewrite !list_fmap_compose, H.
Qed.

Lemma job_ok_transfer s s' j :
  m_History s' = m_History s → ident <$> Heap s' = ident <$> Heap s →
  job_ok s j → job_ok s' j.
Proof.
  intros Hh Hid. destruct j as [r|ts|r|r]; simpl; try done.
  intros H t Ht. destruct (H t Ht) as (r & e & He & Hts & Hr).
  pose proof (ident_lookup _ _ r Hid) as Hl. rewrite He in Hl.
  destruct (Heap s' !! r) as [e'|] eqn:He'; [|done].
  exists r, e'. split; [done|]. rewrite Hh. split; [|done].
  simpl in Hl. unfold ident in Hl. injection Hl as _ -> _. done.
Qed.

(** The invariant carries over to any state that has the same history and
    the same key data in its entries, whose queue holds jobs of the old
    queue and new saves and warm-ups, and whose entries of the history are
    kept. *)
Lemma sound_transfer s0 (calls more : list (call parser D)) t t' s s' :
  sound valid s0 calls t s →
  config s' = config s →
  m_History s' = m_History s →
  (m_UndoIndex s' ≤ length (m_History s))%nat →
  ident <$> Heap s' = ident <$> Heap s →
  t * 1000 + m_CommandCounter s <= t' * 1000 + m_CommandCounter s' →
  0 <= m_CommandCounter s' →
  Forall (λ j, j ∈ m_IOQueue s ∨ job_entry j ≠ None ∧ not_load j) (m_IOQueue s') →
  valid (DataBase s') →
  (∀ r e e' d0 d1, r ∈ m_History s → Heap s !! r = Some e → Heap s' !! r = Some e' →
     kept valid (m_Commands s) (path_empty s) (Files s) e d0 d1 →
     kept valid (m_Commands s) (path_empty s) (Files s') e' d0 d1) →
  sound valid s0 (calls ++ more) t' s'.
Proof.
  intros [Hwf Hcfg Hnd Hst Hclk Hcnt Hq Hdb Hent] Hc Hh Hi Hid Hbound Hcnt' Hq' Hdb' Hkept.
  assert (Hlen : length (Heap s') = length (Heap s)).
  { apply (f_equal length) in Hid. by rewrite !length_fmap in Hid. }
  assert (Hcmds : m_Commands s' = m_Commands s) by (by injection Hc).
  assert (Hpath : path_empty s' = path_empty s)
    by (unfold path_empty; injection Hc as _ -> _; done).
  split.
  - by apply (well_formed_set s).
  - congruence.
  - by rewrite Hh.
  - by rewrite (stamps_ident _ _ Hid).
  - rewrite (stamps_ident _ _ Hid). eapply Forall_impl; [exact Hclk|]. simpl. lia.
  - done.
  - apply Forall_forall. intros j Hj.
    destruct (proj1 (Forall_forall _ _) Hq' j Hj) as [Hold | [Hent' Hnl]].
    + apply (job_ok_transfer s); [done..|]. by apply (proj1 (Forall_forall _ _) Hq).
    + by destruct j.
  - done.
  - intros k r Hr. rewrite Hh in Hr.
    destruct (Hent k r Hr) as (e & d0 & d1 & He & Hk & Htr).
    destruct (Heap s' !! r) as [e'|] eqn:He'.
    + exists e', d0, d1. split; [done|]. split; [|by apply traced_more].
      rewrite Hcmds, Hpath. apply (Hkept r e e' d0 d1); try done.
      by apply list_elem_of_lookup_2 in Hr.
    + apply lookup_ge_None in He'. apply lookup_lt_Some in He. lia.
Qed.

Lemma sound_same s0 (calls : list (call parser D)) t s s' :
  sound valid s0 calls t s →
  config s' = config s →
  m_History s' = m_History s →
  (m_UndoIndex s' ≤ length (m_History s))%nat →
  Heap s' = Heap s → Files s' = Files s →
  m_CommandCounter s' = m_CommandCounter s →
  m_IOQueue s' = m_IOQueue s →
  valid (DataBase s') →
  sound valid s0 calls t s'.
Proof.
  intros Hs Hc Hh Hi Hheap Hfiles Hcnt Hq Hdb.
  rewrite <- (app_nil_r calls).
  apply (sound_transfer s0 calls [] t t s s'); try done.
  - by rewrite Hheap.
  - rewrite Hcnt. lia.
  - rewrite Hcnt. by destruct Hs.
  - rewrite Hq. apply Forall_forall. intros j Hj. by left.
  - intros r e e' d0 d1 _ He He'. rewrite Hheap in He'. rewrite Hfiles.
    congruence.
Qed.

Lemma stamps_distinct (heap : list history_entry) r1 r2 e1 e2 :
  NoDup (m_TimeStamp <$> heap) →
  heap !! r1 = Some e1 → heap !! r2 = Some e2 →
  m_TimeStamp e1 = m_TimeStamp e2 → r1 = r2.
Proof.
  intros Hnd H1 H2 Heq.
  apply (NoDup_lookup _ r1 r2 (m_TimeStamp e1) Hnd).
  - by rewrite list_lookup_fmap, H1.
  - by rewrite list_lookup_fmap, H2, Heq.
Qed.

(** A job that may be in the queue keeps the entries of the history. *)
Lemma kept_job s j cmds no_path r e e' d0 d1 :
  NoDup (m_TimeStamp <$> Heap s) → job_ok s j →
  r ∈ m_History s → Heap s !! r = Some e →
  (JobExec.Execute j (Heap s) (Files s)).1 !! r = Some e' →
  kept valid cmds no_path (Files s) e d0 d1 →
  kept valid cmds no_path (JobExec.Execute j (Heap s) (Files s)).2 e' d0 d1.
Proof.
  intros Hnd Hok Hr He He' Hk.
  destruct j as [r0|ts|r0|r0]; simpl in *; try done.
  - destruct (Heap s !! r0) as [e0|] eqn:He0.
    + destruct (JobExec.save_entry e0 (Files s)) as [e0' d'] eqn:Hsave.
      simpl in *. destruct (decide (r = r0)) as [->|Hne].
      * rewrite list_lookup_insert_eq in He' by (by eapply lookup_lt_Some).
        injection He' as <-. assert (e0 = e) as -> by congruence.
        pose proof (kept_save cmds no_path (Files s) e d0 d1 Hk) as H.
        by rewrite Hsave in H.
      * rewrite list_lookup_insert_ne in He' by done.
        assert (e' = e) as -> by congruence.
        apply (kept_files cmds no_path (Files s)); [|done].
        revert Hsave. unfold JobExec.save_entry.
        destruct (m_bHasBeenSaved e0); [by intros [= _ <-]|].
        unfold Job.Save. destruct (Job.Save_file e0) as [ok File].
        intros [= _ <-]. apply lookup_insert_ne.
        intros Heq. apply Hne. symmetry.
        by apply (stamps_distinct (Heap s) r0 r e0 e).
    + simpl in He'. assert (e' = e) as -> by congruence. done.
  - assert (e' = e) as -> by congruence.
    apply (kept_files cmds no_path (Files s)); [|done].
    rewrite delete_files_lookup. case_bool_decide as Hin; [|done].
    destruct (Hok _ Hin) as (r1 & e1 & He1 & Hts & Hr1).
    assert (r1 = r) as -> by (by apply (stamps_distinct (Heap s) r1 r e1 e)).
    done.
  - destruct (decide (r = r0)) as [->|Hne].
    + rewrite list_lookup_alter_eq, He in He'. injection He' as <-.
      by apply kept_warmup.
    + rewrite list_lookup_alter_ne in He' by done.
      assert (e' = e) as -> by congruence. done.
Qed.

Lemma job_ok_not_load s j : job_ok s j → not_load j.
Proof. by destruct j. Qed.

(** A job of the queue executed, by a worker or by the owner. *)
Lemma sound_job s0 (calls : list (call parser D)) t s s' j :
  sound valid s0 calls t s → job_ok s j →
  config s' = config s →
  m_History s' = m_History s → m_UndoIndex s' = m_UndoIndex s →
  Heap s' = (JobExec.Execute j (Heap s) (Files s)).1 →
  Files s' = (JobExec.Execute j (Heap s) (Files s)).2 →
  m_CommandCounter s' = m_CommandCounter s →
  m_IOQueue s' ⊆ m_IOQueue s →
  DataBase s' = DataBase s →
  sound valid s0 calls t s'.
Proof.
  intros Hs Hok Hc Hh Hi Hheap Hfiles Hcnt Hq Hdb.
  pose proof (Execute_ident j (Heap s) (Files s) (job_ok_not_load s j Hok)) as Hid.
  rewrite <- (app_nil_r calls).
  apply (sound_transfer s0 calls [] t t s); try done.
  - rewrite Hi. by destruct (sound_wf _ _ _ _ _ Hs) as (_ & ? & _).
  - by rewrite Hheap.
  - rewrite Hcnt. lia.
  - rewrite Hcnt. by destruct Hs.
  - apply Forall_forall. intros j' Hj'. left. by apply Hq.
  - rewrite Hdb. by destruct Hs.
  - intros r e e' d0 d1 Hr He He'. rewrite Hheap in He'. rewrite Hfiles.
    apply (kept_job s j _ _ r e); try done. by destruct Hs.
Qed.

Lemma sound_IOWorker s0 (calls : list (call parser D)) t s :
  sound valid s0 calls t s → sound valid s0 calls t (IOWorker s).
Proof.
  intros Hs. unfold IOWorker. destruct (m_IOQueue s) as [|j q] eqn:Hq; [done|].
  apply (sound_job s0 calls t s _ j Hs).
  - pose proof (sound_queue _ _ _ _ _ Hs) as H. rewrite Hq in H.
    by apply Forall_cons in H as [H _].
  - by destruct (JobExec.Execute j (Heap s) (Files s)).
  - by destruct (JobExec.Execute j (Heap s) (Files s)).
  - by destruct (JobExec.Execute j (Heap s) (Files s)).
  - by destruct (JobExec.Execute j (Heap s) (Files s)).
  - by destruct (JobExec.Execute j (Heap s) (Files s)).
  - by destruct (JobExec.Execute j (Heap s) (Files s)).
  - destruct (JobExec.Execute j (Heap s) (Files s)). simpl. rewrite Hq. set_solver.
  - by destruct (JobExec.Execute j (Heap s) (Files s)).
Qed.

Lemma sound_UpdateLRU s0 (calls : list (call parser D)) t s s' :
  sound valid s0 calls t s → path_empty s = false →
  UpdateLRU s = Returns s' → sound valid s0 calls t s'.
Proof.
  intros Hs Hpath H.
  destruct (decide (m_History s = [])) as [Hnil|Hne].
  { unfold UpdateLRU in H. rewrite bool_decide_eq_true_2 in H by done.
    by injection H as <-. }
  pose proof (UpdateLRU_frame _ _ H) as Hf.
  pose proof (frame_config _ _ Hf) as Hc.
  apply frame_fields in Hf as (Hi & Hh & _ & _ & _ & _ & _ & Hcnt & Hfiles & Hdb).
  pose proof (UpdateLRU_ident _ _ H) as Hid.
  pose proof (UpdateLRU_eq _ _ H Hne) as Heq. cbv zeta in Heq.
  destruct Heq as (_ & Hheap & _ & Hq).
  rewrite <- (app_nil_r calls).
  apply (sound_transfer s0 calls [] t t s); try done.
  - rewrite Hi. by destruct (sound_wf _ _ _ _ _ Hs) as (_ & ? & _).
  - rewrite Hcnt. lia.
  - rewrite Hcnt. by destruct Hs.
  - rewrite Hq. apply Forall_app. split.
    + apply Forall_forall. intros j Hj. by left.
    + apply Forall_fmap, Forall_forall. intros r _. by right.
  - rewrite Hdb. by destruct Hs.
  - intros r e e' d0 d1 Hr He He'. rewrite Hfiles, Hpath.
    rewrite Hheap in He'. unfold after_eviction in He'.
    destruct (evict_lookup (m_MaxCachedSteps s - m_LookAheadSteps s * 2 - 1)
                (m_LRU s) (Heap s) r e He) as (e2 & He2 & Hcase).
    destruct (evict _ (m_LRU s) (Heap s)) as [lru heap]. simpl in He', He2.
    assert (e' = e2) as -> by congruence.
    intros Hk.
    destruct Hcase as [-> | [Hsaved ->]]; [done|].
    apply kept_evict in Hk. by rewrite Hsaved in Hk.
Qed.

Lemma sound_Undo s0 (calls : list (call parser D)) t s s' :
  sound valid s0 calls t s → Undo s = Returns s' → sound valid s0 calls t s'.
Proof.
  intros Hs H.
  apply Undo_Returns in H as (Hdone & [[-> _] | H]); [done|].
  destruct H as (r & e & Cmd & db & s1 & e1 & Hpos & Hr & He & Hcmd & Hs1 & He1 & Hc1
                 & Hundo & H).
  pose proof (sound_wf _ _ _ _ _ Hs) as (_ & Hidx & _).
  set (sA := set_UndoIndex (m_UndoIndex s - 1) s) in *.
  assert (HsA : sound valid s0 calls t sA).
  { apply (sound_same s0 calls t s); try done; [simpl; lia | by destruct Hs]. }
  assert (Hsound1 : sound valid s0 calls t s1
                    ∧ config s1 = config s ∧ m_History s1 = m_History s
                    ∧ m_UndoIndex s1 = (m_UndoIndex s - 1)%nat
                    ∧ DataBase s1 = DataBase s
                    ∧ m_CommandCounter s1 = m_CommandCounter s).
  { destruct Hs1 as [[_ ->] | (_ & _ & ->)]; [done|].
    split; [|unfold run_now; by destruct (JobExec.Execute _ _ _)].
    apply (sound_job s0 calls t sA _ (warmup_cache r) HsA); try done;
      unfold run_now; by destruct (JobExec.Execute _ _ _). }
  destruct Hsound1 as (Hsound1 & Hcfg1 & Hh1 & Hi1 & Hdb1 & Hcnt1).
  (* the data [Undo] restores is valid *)
  assert (Hvalid : valid db).
  { assert (Hr1 : m_History s1 !! (m_UndoIndex s - 1)%nat = Some r) by (by rewrite Hh1).
    destruct (sound_entries _ _ _ _ _ Hsound1 _ _ Hr1) as (e1' & d0 & d1 & He1' & Hk & _).
    assert (e1' = e1) as -> by congruence.
    destruct Hk as (Cmd' & P & Hcmd' & _ & Hrest & Hd0 & _ & _ & Hcache & _).
    assert (Hname : m_CommandString e1 = m_CommandString e).
    { destruct Hs1 as [[_ ->] | (_ & _ & ->)].
      - simpl in He1. congruence.
      - unfold run_now in He1. simpl in He1.
        rewrite list_lookup_alter_eq in He1. simpl in He1. rewrite He in He1.
        injection He1 as <-.
        pose proof (Load_payload_ident e (Files s)) as Hid.
        unfold JobExec.warmup_entry. destruct (cache_empty e); [|done].
        unfold ident in Hid. by injection Hid. }
    assert (Hcmds : m_Commands s1 = m_Commands s) by (by injection Hcfg1).
    rewrite Hname, Hcmds, Hcmd in Hcmd'. injection Hcmd' as <-.
    destruct Hcache as [Hcache | (Hcache & _)].
    - rewrite Hcache, Hrest in Hundo. by injection Hundo as <-.
    - unfold cache_empty in Hc1. rewrite Hcache in Hc1.
      by rewrite bool_decide_eq_true_2 in Hc1. }
  destruct (path_empty s) eqn:Hpath.
  - subst s'. apply (sound_same s0 calls t s1); try done.
    simpl. rewrite Hi1, Hh1. lia.
  - apply (sound_UpdateLRU s0 calls t (set_LRU (m_LRU s1 ++ [r]) (set_DataBase db s1)) s');
      [| |exact H].
    + apply (sound_same s0 calls t s1); try done. simpl. rewrite Hi1, Hh1. lia.
    + unfold path_empty in *. simpl. injection Hcfg1 as _ -> _. done.
Qed.


Lemma sound_contract s0 (calls : list (call parser D)) t s name Cmd :
  (∀ name Cmd, m_Commands s0 !! name = Some Cmd → contract valid Cmd) →
  sound valid s0 calls t s →
  m_Commands s !! name = Some Cmd → contract valid Cmd.
Proof.
  intros Hreg Hs H. apply (Hreg name).
  pose proof (sound_config _ _ _ _ _ Hs) as Hc. injection Hc as <-. done.
Qed.

Lemma sound_Redo s0 (calls : list (call parser D)) t s s' :
  (∀ name Cmd, m_Commands s0 !! name = Some Cmd → contract valid Cmd) →
  sound valid s0 calls t s → Redo s = Returns s' → sound valid s0 calls t s'.
Proof.
  intros Hreg Hs H.
  apply Redo_Returns in H as (Hdone & [-> | H]); [done|].
  destruct H as (r & e & Cmd & Hr & He & Hcmd & Hparse & H). cbv zeta in H.
  set (p := (Cmd.Parse Cmd (m_CommandString e)).2) in *.
  set (s1 := set_DataBase (Cmd.Redo Cmd p (DataBase s)).2 s) in *.
  pose proof (sound_wf _ _ _ _ _ Hs) as (_ & Hidx & _).
  pose proof (lookup_lt_Some _ _ _ Hr) as Hlt.
  assert (Hs1 : sound valid s0 calls t s1).
  { apply (sound_same s0 calls t s); try done.
    apply (sound_contract s0 calls t s _ Cmd Hreg Hs Hcmd p (DataBase s)).
    by destruct Hs. }
  destruct H as [[_ ->] | (_ & s2 & H & ->)]; [done|].
  assert (Hs2 : sound valid s0 calls t s2
                ∧ m_UndoIndex s2 = m_UndoIndex s ∧ m_History s2 = m_History s).
  { destruct (path_empty s) eqn:Hpath; [by subst s2|].
    split.
    - apply (sound_UpdateLRU s0 calls t (set_LRU (m_LRU s ++ [r]) s1) s2);
        [|done|exact H].
      apply (sound_same s0 calls t s1); try done. by destruct Hs1.
    - by apply UpdateLRU_frame, frame_fields in H as (? & ? & _). }
  destruct Hs2 as (Hs2 & Hi2 & Hh2).
  apply (sound_same s0 calls t s2); try done.
  - simpl. rewrite Hi2, Hh2. lia.
  - by destruct Hs2.
Qed.

Lemma sound_SaveTimestamps s0 (calls : list (call parser D)) t FilePath s err s' :
  sound valid s0 calls t s → SaveTimestamps FilePath s = Returns (err, s') →
  sound valid s0 calls t s'.
Proof.
  intros Hs H. apply SaveTimestamps_Returns in H as [-> | (File & ->)]; [done|].
  apply (sound_same s0 calls t s); try done.
  - by destruct (sound_wf _ _ _ _ _ Hs) as (_ & ? & _).
  - by destruct Hs.
Qed.

(** The clock moves on and the counter grows: the invariant stays. *)
Lemma sound_later s0 (calls more : list (call parser D)) t t' s s' :
  sound valid s0 calls t s →
  t <= t' →
  config s' = config s → m_History s' = m_History s →
  m_UndoIndex s' = m_UndoIndex s →
  Heap s' = Heap s → Files s' = Files s →
  m_CommandCounter s <= m_CommandCounter s' →
  m_IOQueue s' = m_IOQueue s →
  valid (DataBase s') →
  sound valid s0 (calls ++ more) t' s'.
Proof.
  intros Hs Ht Hc Hh Hi Hheap Hfiles Hcnt Hq Hdb.
  apply (sound_transfer s0 calls more t t' s s'); try done.
  - rewrite Hi. by destruct (sound_wf _ _ _ _ _ Hs) as (_ & ? & _).
  - by rewrite Hheap.
  - lia.
  - pose proof (sound_counter _ _ _ _ _ Hs). lia.
  - rewrite Hq. apply Forall_forall. intros j Hj. by left.
  - intros r e e' d0 d1 _ He He'. rewrite Hheap in He'. rewrite Hfiles.
    congruence.
Qed.

(** The state in which [Execute] has pruned the redo tail and appended the
    entry [Entry], with the reference [length (Heap s)]. *)
Lemma sound_append s0 (calls : list (call parser D)) (c : call parser D)
    t now_ms s u (Entry : history_entry) :
  sound valid s0 calls t s →
  t <= now_ms →
  let r := length (Heap s) in
  config u = config s →
  m_History u = take (m_UndoIndex s) (m_History s) ++ [r] →
  m_UndoIndex u = S (m_UndoIndex s) →
  Heap u = Heap s ++ [Entry] → Files u = Files s →
  m_CommandCounter u = m_CommandCounter s + 1 →
  Forall (λ j, j ∈ m_IOQueue s ∨ (job_entry j ≠ None ∧ not_load j)
               ∨ ∃ TimeStamps,
                   j = delete_entries TimeStamps
                   ∧ stamps_of (Heap s) (drop (m_UndoIndex s) (m_History s)) TimeStamps)
         (m_IOQueue u) →
  valid (DataBase u) →
  m_TimeStamp Entry = now_ms * 1000 + m_CommandCounter s →
  kept valid (m_Commands s) (path_empty s) (Files s) Entry (DataBase s) (DataBase u) →
  traced s0 (calls ++ [c]) (m_UndoIndex s) r (DataBase s) (DataBase u) →
  sound valid s0 (calls ++ [c]) now_ms u.
Proof.
  intros [Hwf Hcfg Hnd Hst Hclk Hcnt Hq Hdb Hent] Ht r Hc Hh Hi Hheap Hfiles Hcnt' Hq'
         Hdb' Hts Hk Htr.
  destruct Hwf as (Hrefs & Hidx & Hassert).
  assert (Hcmds : m_Commands u = m_Commands s) by (by injection Hc).
  assert (Hpath : path_empty u = path_empty s)
    by (unfold path_empty; injection Hc as _ -> _; done).
  assert (Hfresh : ∀ x, x ∈ m_History s → x ≠ r).
  { intros x Hx ->. apply (proj1 (Forall_forall _ _) Hrefs) in Hx. unfold r in Hx. lia. }
  assert (Hsplit : NoDup (take (m_UndoIndex s) (m_History s)
                          ++ drop (m_UndoIndex s) (m_History s)))
    by (by rewrite take_drop).
  apply NoDup_app in Hsplit as (Hndt & Hdisj & _).
  split.
  - split; [|split].
    + rewrite Hh, Hheap, length_app. simpl. apply Forall_app. split.
      * apply Forall_take. eapply Forall_impl; [exact Hrefs|]. simpl. lia.
      * apply Forall_singleton. unfold r. lia.
    + rewrite Hi, Hh, length_app, length_take_le by done. simpl. lia.
    + rewrite Hpath. injection Hc as _ _ -> -> _ _. done.
  - congruence.
  - rewrite Hh. apply NoDup_app. split; [done|]. split; [|apply NoDup_singleton].
    intros x Hx Hx'. apply list_elem_of_singleton in Hx'.
    apply (Hfresh x); [|done]. by apply (subseteq_take (m_UndoIndex s)).
  - rewrite Hheap, fmap_app. apply NoDup_app. split; [done|].
    split; [|apply NoDup_singleton].
    intros x Hx Hx'. apply list_elem_of_singleton in Hx'.
    apply (proj1 (Forall_forall _ _) Hclk) in Hx. simpl in Hx'. lia.
  - rewrite Hheap, fmap_app, Hcnt'. apply Forall_app. split.
    + eapply Forall_impl; [exact Hclk|]. simpl. lia.
    + apply Forall_singleton. lia.
  - lia.
  - apply Forall_forall. intros j Hj.
    destruct (proj1 (Forall_forall _ _) Hq' j Hj) as [Hold | [[Hje Hnl] | Hdel]].
    + apply (proj1 (Forall_forall _ _) Hq) in Hold.
      destruct j as [r0|ts|r0|r0]; simpl in *; try done.
      intros x Hx. destruct (Hold x Hx) as (r1 & e1 & He1 & Hts1 & Hr1).
      exists r1, e1. rewrite Hheap, Hh. split; [|split; [done|]].
      * rewrite lookup_app_l; [done | by eapply lookup_lt_Some].
      * intros Hin. apply elem_of_app in Hin as [Hin | Hin].
        -- apply Hr1. by apply (subseteq_take (m_UndoIndex s)).
        -- apply list_elem_of_singleton in Hin. apply lookup_lt_Some in He1.
           unfold r in Hin. lia.
    + by destruct j.
    + destruct Hdel as (TimeStamps & -> & Hstamps). simpl.
      intros x Hx. apply list_elem_of_lookup_1 in Hx as (i & Hx).
      destruct (Forall2_lookup_r _ _ _ _ _ Hstamps Hx) as (r1 & Hr1 & e1 & He1 & Hts1).
      exists r1, e1. rewrite Hheap, Hh. split; [|split; [done|]].
      * rewrite lookup_app_l; [done | by eapply lookup_lt_Some].
      * apply list_elem_of_lookup_2 in Hr1.
        intros Hin. apply elem_of_app in Hin as [Hin | Hin].
        -- by apply (Hdisj r1).
        -- apply list_elem_of_singleton in Hin. apply lookup_lt_Some in He1.
           unfold r in Hin. lia.
  - done.
  - intros k r' Hr'. rewrite Hh in Hr'. rewrite Hcmds, Hpath, Hfiles, Hheap.
    destruct (decide (k < m_UndoIndex s)%nat) as [Hlt|Hge].
    + rewrite lookup_app_l in Hr' by (rewrite length_take_le; done).
      rewrite lookup_take_lt in Hr' by done.
      destruct (Hent k r' Hr') as (e & d0 & d1 & He & Hke & Htre).
      exists e, d0, d1. split; [|split; [done | by apply traced_more]].
      rewrite lookup_app_l; [done | by eapply lookup_lt_Some].
    + rewrite lookup_app_r in Hr' by (rewrite length_take_le; [lia | done]).
      rewrite length_take_le in Hr' by done.
      destruct (k - m_UndoIndex s)%nat as [|n] eqn:Hk0; [|done].
      assert (k = m_UndoIndex s) as -> by lia.
      injection Hr' as <-.
      exists Entry, (DataBase s), (DataBase u). split; [|done].
      apply list_lookup_middle. done.
Qed.

Lemma run_app (l1 l2 : list (call parser D)) s :
  run (l1 ++ l2) s = run l1 s ≫= run l2.
Proof.
  revert s. induction l1 as [|c l1 IH]; intros s; simpl; [done|].
  destruct (perform c s) as [s1| | |]; simpl; [apply IH | done..].
Qed.

Lemma kept_make_entry (Cmd : command_base parser D) cmd_str UserID now_ms s :
  contract valid Cmd → valid (DataBase s) →
  m_Commands s !! getCommandName cmd_str = Some Cmd →
  (Cmd.Parse Cmd cmd_str).1 = "" →
  let p := (Cmd.Parse Cmd cmd_str).2 in
  (Cmd.Redo Cmd p (DataBase s)).1 = "" →
  kept valid (m_Commands s) (path_empty s) (Files s)
    (make_entry Cmd p cmd_str UserID now_ms s) (DataBase s) (Cmd.Redo Cmd p (DataBase s)).2.
Proof.
  intros Hcon Hdb Hcmd Hparse p Hredo.
  destruct (Hcon p (DataBase s) Hdb) as (HP & Hlen & Hrest & _).
  exists Cmd, (backup_of Cmd p (DataBase s)).
  split_and!; try done.
  - exists p. split_and!; [|done|].
    + simpl. subst p. by destruct (Cmd.Parse Cmd cmd_str) as [? ?]; simpl in *; subst.
    + by destruct (Cmd.Redo Cmd p (DataBase s)) as [? ?]; simpl in *; subst.
  - by left.
Qed.

Lemma sound_ExecuteCmd s0 (calls : list (call parser D)) (c : call parser D)
    t now_ms (Cmd : command_base parser D) cmd_str UserID s err s' :
  (∀ name Cmd, m_Commands s0 !! name = Some Cmd → contract valid Cmd) →
  sound valid s0 calls t s →
  m_Commands s !! getCommandName cmd_str = Some Cmd →
  t <= now_ms → 0 <= now_ms → now_ms * 1000 + m_CommandCounter s + 1 < 2 ^ 64 →
  ExecuteCmd Cmd cmd_str UserID now_ms s = Returns (err, s') →
  is_Some (clock_of c) → run calls s0 = Returns s →
  run (calls ++ [c]) s0 = Returns s' →
  sound valid s0 (calls ++ [c]) now_ms s'.
Proof.
  intros Hreg Hs Hcmd Ht Hnow Hfit H Hclock Hrun0 Hrun.
  pose proof (sound_contract s0 calls t s _ Cmd Hreg Hs Hcmd) as Hcon.
  pose proof (sound_counter _ _ _ _ _ Hs) as Hcnt.
  pose proof (sound_data _ _ _ _ _ Hs) as Hdb.
  apply ExecuteCmd_Returns in H. cbv zeta in H.
  set (p := (Cmd.Parse Cmd cmd_str).2) in *.
  set (db := (Cmd.Redo Cmd p (DataBase s)).2) in *.
  set (s1 := set_DataBase db (set_CommandCounter (Bytes.u64 (m_CommandCounter s + 1)) s)) in *.
  assert (Hu64 : Bytes.u64 (m_CommandCounter s + 1) = m_CommandCounter s + 1)
    by (unfold Bytes.u64; apply Z.mod_small; lia).
  assert (Hvalid : valid db) by (by destruct (Hcon p (DataBase s) Hdb) as (_ & _ & _ & ?)).
  destruct H as (Hdone & [-> | [[_ ->] | (-> & Hparse & Hhelp & Hredo & H)]]).
  - apply (sound_later s0 calls [c] t now_ms s s); try done; lia.
  - apply (sound_later s0 calls [c] t now_ms s s1); try done. simpl. lia.
  - set (Entry := make_entry Cmd p cmd_str UserID now_ms s) in *.
    pose proof (kept_make_entry Cmd cmd_str UserID now_ms s Hcon Hdb Hcmd Hparse Hredo)
      as Hk.
    pose proof (record_entry_Returns _ _ _ H) as Hf.
    apply frame_fields in Hf as (Hi' & Hh' & _ & _ & _ & _ & _ & _ & _ & Hdb').
    simpl in Hi', Hh', Hdb'.
    assert (Htr : traced s0 (calls ++ [c]) (m_UndoIndex s) (length (Heap s))
                    (DataBase s) db).
    { exists calls, c, [], s, s'. split_and!; try done.
      - intros Hin. destruct (sound_wf _ _ _ _ _ Hs) as (Hrefs & _).
        apply (proj1 (Forall_forall _ _) Hrefs) in Hin. lia.
      - rewrite Hi'. lia.
      - rewrite Hh'. apply list_lookup_middle.
        rewrite length_take_le; [done|]. by destruct (sound_wf _ _ _ _ _ Hs) as (_ & ? & _). }
    apply record_entry_cases in H as (jobs & H). cbv zeta in H.
    destruct H as (Hjobs & H).
    change (path_empty s1) with (path_empty s) in *.
    assert (Hts : m_TimeStamp Entry = now_ms * 1000 + m_CommandCounter s).
    { simpl. unfold Bytes.u64. apply Z.mod_small. lia. }
    assert (Hjobs' : Forall (λ j, j ∈ m_IOQueue s ∨ (job_entry j ≠ None ∧ not_load j)
               ∨ ∃ TimeStamps,
                   j = delete_entries TimeStamps
                   ∧ stamps_of (Heap s) (drop (m_UndoIndex s) (m_History s)) TimeStamps)
         (m_IOQueue s ++ jobs)).
    { apply Forall_app. split; [apply Forall_forall; intros j Hj; by left|].
      destruct Hjobs as [[_ ->] | (_ & TimeStamps & Hstamps & ->)]; [done|].
      destruct (path_empty s); [done|].
      apply Forall_singleton. right. right. by exists TimeStamps. }
    destruct (path_empty s) eqn:Hpath.
    + subst s'.
      apply (sound_append s0 calls c t now_ms s _ Entry Hs Ht); try done;
        [simpl; lia | rewrite Hpath; exact Hk].
    + eapply sound_UpdateLRU; [| |exact H]; [|exact Hpath].
      apply (sound_append s0 calls c t now_ms s _ Entry Hs Ht); try done;
        [simpl; lia | | rewrite Hpath; exact Hk].
      simpl. apply Forall_app. split; [done|].
      apply Forall_singleton. right. left. done.
Qed.

(** Every reading of the clock is [t]. *)
Lemma clock_steady_same t (calls : list (call parser D)) :
  Forall (λ c, ∀ now_ms, clock_of c = Some now_ms → now_ms = t) calls →
  clock_steady t calls.
Proof.
  induction 1 as [|c calls Hc _ IH]; simpl; [done|].
  destruct (clock_of c) as [now_ms|] eqn:E; [|done].
  rewrite (Hc now_ms eq_refl). split; [lia | done].
Qed.

Lemma sound_fresh s0 t : fresh s0 → valid (DataBase s0) → sound valid s0 [] t s0.
Proof.
  intros (Hh & Hi & Hheap & Hq & Hdone & Hcnt & Hassert) Hdb. split; try done.
  - split; [|split]; [by rewrite Hh | rewrite Hi; lia | done].
  - rewrite Hh. apply NoDup_nil_2.
  - rewrite Hheap. apply NoDup_nil_2.
  - by rewrite Hheap.
  - by rewrite Hq.
  - intros k r. by rewrite Hh.
Qed.

Lemma sound_more s0 (calls more : list (call parser D)) t s :
  sound valid s0 calls t s → sound valid s0 (calls ++ more) t s.
Proof.
  intros Hs. apply (sound_later s0 calls more t t s s); try done; try lia.
  by destruct Hs.
Qed.

Lemma ExecuteCmd_counter (Cmd : command_base parser D) cmd_str UserID now_ms s err s' :
  ExecuteCmd Cmd cmd_str UserID now_ms s = Returns (err, s') →
  0 <= m_CommandCounter s → m_CommandCounter s + 1 < 2 ^ 64 →
  m_CommandCounter s' <= m_CommandCounter s + 1.
Proof.
  intros H Hcnt Hfit. apply ExecuteCmd_Returns in H. cbv zeta in H.
  assert (Hu64 : Bytes.u64 (m_CommandCounter s + 1) = m_CommandCounter s + 1)
    by (unfold Bytes.u64; apply Z.mod_small; lia).
  destruct H as (_ & [-> | [[_ ->] | (_ & _ & _ & _ & H)]]).
  - lia.
  - simpl. lia.
  - apply record_entry_Returns, frame_fields in H
      as (_ & _ & _ & _ & _ & _ & _ & -> & _).
    simpl. lia.
Qed.

Lemma sound_perform s0 (calls : list (call parser D)) (c : call parser D) t s s' :
  (∀ name Cmd, m_Commands s0 !! name = Some Cmd → contract valid Cmd) →
  sound valid s0 calls t s →
  session_call s0 c →
  (∀ now_ms, clock_of c = Some now_ms →
     t <= now_ms ∧ 0 <= now_ms ∧ now_ms * 1000 + m_CommandCounter s + 1 < 2 ^ 64) →
  run calls s0 = Returns s →
  perform c s = Returns s' →
  sound valid s0 (calls ++ [c]) (default t (clock_of c)) s'
  ∧ m_CommandCounter s' <= m_CommandCounter s + 1.
Proof.
  intros Hreg Hs Hc Hclock Hrun H.
  assert (Hrun' : run (calls ++ [c]) s0 = Returns s').
  { rewrite run_app, Hrun. simpl. by rewrite H. }
  pose proof (sound_counter _ _ _ _ _ Hs) as Hcnt.
  assert (Hcmds : m_Commands s = m_Commands s0)
    by (pose proof (sound_config _ _ _ _ _ Hs) as E; by injection E).
  destruct c as [UndoPath auto ws1 ws2 | cmd_str UserID now_ms | Cmd cmd_str UserID now_ms
                | | | FilePath | FilePath ws1 ws2 | | w]; simpl in *; try done.
  - apply bind_Returns in H as ([err s1] & H & H'). injection H' as <-.
    destruct (Hclock now_ms eq_refl) as (Ht & Hnow & Hb).
    apply Execute_Returns in H as [-> | (Cmd & Hcmd & H)].
    + split; [|lia].
      apply (sound_later s0 calls _ t now_ms s s); try done; try lia.
      by destruct Hs.
    + split; [|apply ExecuteCmd_counter in H; lia].
      by apply (sound_ExecuteCmd s0 calls _ t now_ms Cmd cmd_str UserID s err s1).
  - apply bind_Returns in H as ([err s1] & H & H'). injection H' as <-.
    destruct (Hclock now_ms eq_refl) as (Ht & Hnow & Hb).
    split; [|apply ExecuteCmd_counter in H; lia].
    apply (sound_ExecuteCmd s0 calls _ t now_ms Cmd cmd_str UserID s err s1);
      try done. by rewrite Hcmds.
  - split; [|apply Undo_counter in H; lia].
    apply sound_more. by apply (sound_Undo s0 calls t s).
  - split; [|apply Redo_counter in H; lia].
    apply sound_more. by apply (sound_Redo s0 calls t s).
  - apply bind_Returns in H as ([err s1] & H & H'). injection H' as <-.
    split; [|apply SaveTimestamps_Returns in H as [-> | (File & ->)]; simpl; lia].
    apply sound_more. by apply (sound_SaveTimestamps s0 calls t FilePath s err).
  - injection H as <-. split.
    + apply sound_more. by apply sound_IOWorker.
    + unfold IOWorker. destruct (m_IOQueue s); [lia|].
      destruct (JobExec.Execute _ _ _). simpl. lia.
Qed.

Lemma sound_run s0 (pre calls : list (call parser D)) t K s s' :
  (∀ name Cmd, m_Commands s0 !! name = Some Cmd → contract valid Cmd) →
  sound valid s0 pre t s →
  run pre s0 = Returns s →
  Forall (session_call s0) calls →
  clock_steady t calls →
  m_CommandCounter s + Z.of_nat (length calls) <= K →
  fits_64 K calls →
  run calls s = Returns s' →
  ∃ t', sound valid s0 (pre ++ calls) t' s'.
Proof.
  intros Hreg. revert pre t s.
  induction calls as [|c calls IH]; intros pre t s Hs Hpre Hcalls Hclock HK Hfit H;
    simpl in H.
  - injection H as <-. exists t. by rewrite app_nil_r.
  - apply bind_Returns in H as (s1 & H1 & H).
    apply Forall_cons in Hcalls as [Hc Hcalls]. apply Forall_cons in Hfit as [Hfit Hfits].
    simpl in Hclock, HK.
    pose proof (sound_counter _ _ _ _ _ Hs) as Hcnt.
    destruct (sound_perform s0 pre c t s s1 Hreg Hs Hc) as [Hs1 Hc1]; try done.
    { intros now_ms Hnow. destruct (Hfit _ Hnow). rewrite Hnow in Hclock.
      destruct Hclock. repeat split; lia. }
    destruct (IH (pre ++ [c]) (default t (clock_of c)) s1) as (t' & Hs'); try done.
    + rewrite run_app, Hpre. simpl. by rewrite H1.
    + destruct (clock_of c); simpl; [by destruct Hclock | done].
    + lia.
    + exists t'. by rewrite <- app_assoc in Hs'.
Qed.



Lemma session_sound s0 t (calls : list (call parser D)) s :
  session_of valid s0 t calls → run calls s0 = Returns s →
  ∃ t', sound valid s0 calls t' s.
Proof.
  intros (Hfresh & Hdb & Hreg & Hcalls & Hclock & Hfit) Hrun.
  destruct (sound_run s0 [] calls t (m_CommandCounter s0 + Z.of_nat (length calls))
              s0 s Hreg (sound_fresh s0 t Hfresh Hdb))
    as (t' & Hs); try done.
  by exists t'.
Qed.






(** X4.  In the state of a session no two entries, in the history or pruned from
    it, have the same timestamp, so no two entries share a file; and no
    queued [delete_entries] job names the timestamp of an entry of the
    history. *)
Theorem session_files_apart s0 t (calls : list (call parser D)) s :
  session_of valid s0 t calls → run calls s0 = Returns s →
  (∀ r1 r2 e1 e2, Heap s !! r1 = Some e1 → Heap s !! r2 = Some e2 →
                  m_TimeStamp e1 = m_TimeStamp e2 → r1 = r2)
  ∧ (∀ TimeStamps k r e, delete_entries TimeStamps ∈ m_IOQueue s →
       m_History s !! k = Some r → Heap s !! r = Some e →
       m_TimeStamp e ∉ TimeStamps).
Proof.
  intros Hsession Hrun.
  destruct (session_sound s0 t calls s Hsession Hrun) as (t' & Hs).
  pose proof (sound_stamps _ _ _ _ _ Hs) as Hnd.
  split.
  - intros r1 r2 e1 e2. by apply stamps_distinct.
  - intros TimeStamps k r e Hj Hr He Hin.
    pose proof (proj1 (Forall_forall _ _) (sound_queue _ _ _ _ _ Hs) _ Hj) as Hok.
    destruct (Hok _ Hin) as (r1 & e1 & He1 & Hts & Hr1).
    assert (r1 = r) as -> by (by apply (stamps_distinct (Heap s) r1 r e1 e)).
    apply Hr1. by apply list_elem_of_lookup_2 in Hr.
Qed.


(** ** Sessions: the history survives on disk *)




Lemma save_entry_cases (e : history_entry) (d : disk) :
  m_bHasBeenSaved e = true ∧ JobExec.save_entry e d = (e, d)
  ∨ m_bHasBeenSaved e = false
    ∧ ∃ ok : bool,
        JobExec.save_entry e d
        = (if ok then set_bHasBeenSaved true e else e,
           <[m_TimeStamp e := (Job.Save_file e).2]> d).
Proof.
  unfold JobExec.save_entry, Job.Save. destruct (m_bHasBeenSaved e); [by left|].
  right. split; [done|]. destruct (Job.Save_file e) as [ok File]. by exists ok.
Qed.

(** A job of the queue, executed: the popped job is [j], the rest of the
    queue stays. *)
Lemma all_filed_job s0 (calls : list (call parser D)) t s s' j :
  sound valid s0 calls t s → job_ok s j →
  m_History s' = m_History s →
  Heap s' = (JobExec.Execute j (Heap s) (Files s)).1 →
  Files s' = (JobExec.Execute j (Heap s) (Files s)).2 →
  (∀ j', j' ∈ m_IOQueue s → j' = j ∨ j' ∈ m_IOQueue s') →
  all_filed s → all_filed s'.
Proof.
  intros Hs Hok Hh Hheap Hfiles Hq Hall k r e' Hr He'.
  rewrite Hh in Hr. rewrite Hheap in He'.
  pose proof (sound_stamps _ _ _ _ _ Hs) as Hnd.
  destruct (sound_entries _ _ _ _ _ Hs k r Hr) as (e & d0 & d1 & He & Hk & _).
  pose proof (Hall k r e Hr He) as Hf.
  pose proof (list_elem_of_lookup_2 _ _ _ Hr) as Hin.
  unfold filed. rewrite Hfiles.
  destruct j as [r0|ts|r0|r0]; unfold JobExec.Execute in *; [| | |done].
  - (* save_to_disk *)
    destruct (Heap s !! r0) as [e1|] eqn:He1.
    2:{ cbn [fst snd] in *. assert (e' = e) as -> by congruence.
        destruct Hf as [[Hj Hu] | (e0 & Hfile & Hid0 & Hlen & Hkeep)].
        - left. split; [|done]. destruct (Hq _ Hj) as [[= ->]|]; [|done].
          congruence.
        - right. by exists e0. }
    destruct (save_entry_cases e1 (Files s)) as [[Hsv Hse] | (Hsv & ok & Hse)];
      rewrite Hse in He' |- *; cbn [fst snd] in He' |- *.
    + (* already saved: nothing happens *)
      rewrite list_insert_id in He' by done. assert (e' = e) as -> by congruence.
      destruct Hf as [[Hj Hu] | (e0 & Hfile & Hid0 & Hlen & Hkeep)].
      * left. split; [|done]. destruct (Hq _ Hj) as [[= ->]|]; [|done].
        congruence.
      * right. by exists e0.
    + destruct (decide (r0 = r)) as [->|Hne].
      * assert (e1 = e) as -> by congruence.
        rewrite list_lookup_insert_eq in He' by (by eapply lookup_lt_Some).
        injection He' as <-. right. exists e.
        assert (Hts : m_TimeStamp (if ok then set_bHasBeenSaved true e else e)
                      = m_TimeStamp e) by (by destruct ok).
        rewrite Hts, lookup_insert_eq. split_and!; [done | by destruct ok | | by destruct ok].
        destruct Hk as (Cmd & P & _ & _ & _ & _ & _ & HlenP & Hcache & _).
        destruct Hcache as [-> | (_ & ? & _)]; [done | congruence].
      * rewrite list_lookup_insert_ne in He' by done.
        assert (e' = e) as -> by congruence.
        destruct Hf as [[Hj Hu] | (e0 & Hfile & Hid0 & Hlen & Hkeep)].
        -- left. split; [|done]. destruct (Hq _ Hj) as [[= ->]|]; [done|done].
        -- right. exists e0. split_and!; try done.
           rewrite lookup_insert_ne; [done|].
           intros Heq. apply Hne. by apply (stamps_distinct (Heap s) r0 r e1 e).
  - (* delete_entries *)
    cbn [fst snd] in *. assert (e' = e) as -> by congruence.
    destruct Hf as [[Hj Hu] | (e0 & Hfile & Hid0 & Hlen & Hkeep)].
    + left. split; [|done]. by destruct (Hq _ Hj) as [?|?].
    + right. exists e0. split_and!; try done.
      rewrite delete_files_lookup. case_bool_decide as Hts; [|done].
      destruct (Hok _ Hts) as (r1 & e1 & He1 & Hts1 & Hr1).
      assert (r1 = r) as -> by (by apply (stamps_distinct (Heap s) r1 r e1 e)).
      done.
  - (* warmup_cache *)
    cbn [fst snd] in *.
    assert (He'' : e' = e ∨ e' = JobExec.warmup_entry e (Files s)).
    { destruct (decide (r0 = r)) as [->|Hne].
      - rewrite list_lookup_alter_eq, He in He'. right. by injection He' as <-.
      - rewrite list_lookup_alter_ne in He' by done. left. congruence. }
    assert (Hid : ident e' = ident e ∧ m_bHasBeenSaved e' = m_bHasBeenSaved e).
    { destruct He'' as [-> | ->]; [done|]. unfold JobExec.warmup_entry.
      destruct (cache_empty e); [|done].
      split; [apply Load_payload_ident | apply Load_saved]. }
    destruct Hid as [Hid Hsv].
    assert (Hts : m_TimeStamp e' = m_TimeStamp e) by (unfold ident in Hid; by injection Hid).
    assert (Hun : m_bHasBeenSaved e = false → e' = e).
    { intros Hu. destruct He'' as [-> | ->]; [done|]. unfold JobExec.warmup_entry.
      destruct Hk as (_ & P & _ & _ & _ & _ & HP & _ & Hcache & _).
      destruct Hcache as [Hc | (_ & ? & _)]; [|congruence].
      unfold cache_empty. rewrite bool_decide_eq_false_2; [done|]. by rewrite Hc. }
    destruct Hf as [[Hj Hu] | (e0 & Hfile & Hid0 & Hlen & Hkeep)].
    + left. split; [|congruence]. by destruct (Hq _ Hj) as [?|?].
    + right. exists e0. rewrite Hts. split_and!; [done | congruence | done |].
      intros Hu. rewrite Hsv in Hu. rewrite (Hun Hu). by apply Hkeep.
Qed.

Lemma all_filed_IOWorker s0 (calls : list (call parser D)) t s :
  sound valid s0 calls t s → all_filed s → all_filed (IOWorker s).
Proof.
  intros Hs Hall. unfold IOWorker. destruct (m_IOQueue s) as [|j q] eqn:Hq; [done|].
  apply (all_filed_job s0 calls t s _ j Hs); try done.
  - pose proof (sound_queue _ _ _ _ _ Hs) as H. rewrite Hq in H.
    by apply Forall_cons in H as [H _].
  - by destruct (JobExec.Execute j (Heap s) (Files s)).
  - by destruct (JobExec.Execute j (Heap s) (Files s)).
  - by destruct (JobExec.Execute j (Heap s) (Files s)).
  - intros j' Hj'. rewrite Hq in Hj'. apply elem_of_cons in Hj' as [->|Hj']; [by left|].
    right. by destruct (JobExec.Execute j (Heap s) (Files s)).
Qed.













Lemma IOWorker_ident s :
  Forall not_load (m_IOQueue s) → ident <$> Heap (IOWorker s) = ident <$> Heap s.
Proof.
  intros Hq. unfold IOWorker. destruct (m_IOQueue s) as [|j q]; [done|].
  apply Forall_cons in Hq as [Hj _].
  pose proof (Execute_ident j (Heap s) (Files s) Hj) as Hid.
  by destruct (JobExec.Execute j (Heap s) (Files s)).
Qed.

Lemma sound_drain s0 (calls : list (call parser D)) t n s :
  sound valid s0 calls t s →
  sound valid s0 calls t (drain n s)
  ∧ ident <$> Heap (drain n s) = ident <$> Heap s
  ∧ (all_filed s → all_filed (drain n s)).
Proof.
  revert s. induction n as [|n IH]; intros s Hs; [done|]. cbn [drain].
  destruct (IH (IOWorker s) (sound_IOWorker s0 calls t s Hs)) as (Hs' & Hid & Hall).
  split_and!; [done | |].
  - rewrite Hid. apply IOWorker_ident.
    eapply Forall_impl; [apply (sound_queue _ _ _ _ _ Hs)|]. apply job_ok_not_load.
  - intros H. apply Hall. by apply (all_filed_IOWorker s0 calls t).
Qed.





















(** ** Sessions and workers that hold their jobs *)







(** ** What a session leaves on disk *)










End SessionFacts.


(** * The properties on concrete sessions *)

Section Concrete.
#[local] Existing Instance example.zeroes.
Local Abbreviation parser := example.parser.
Local Abbreviation fake_dbase := example.fake_dbase.
Local Abbreviation FakeDbase := example.FakeDbase.
Local Abbreviation sys := example.sys.
Local Abbreviation MoveCursor := example.MoveCursor.
Local Abbreviation started := example.started.
Local Abbreviation booted := example.booted.
Local Abbreviation session := example.session.
Local Abbreviation after := example.after.
Local Abbreviation moves := example.moves.
Local Abbreviation undo_redo := example.undo_redo.
Local Abbreviation move_call := example.move_call.
Local Abbreviation sample_entry := example.sample_entry.
Import sessions.

Lemma started_booted (UndoPath : string) : started UndoPath = Returns (booted UndoPath).
Proof.
  unfold example.started, Init, example.booted. simpl.
  by destruct (negb (bool_decide (UndoPath = ""))).
Qed.

Lemma after_run (UndoPath : string) (calls : list (call parser fake_dbase)) :
  returns (session UndoPath calls) = true →
  run calls (booted UndoPath) = Returns (after UndoPath calls).
Proof.
  unfold example.after, example.session. rewrite started_booted. simpl.
  apply returns_value_or.
Qed.

Lemma after_Move (UndoPath : string) (calls : list (call parser fake_dbase)) :
  returns (session UndoPath calls) = true →
  m_Commands (after UndoPath calls) !! "Move" = Some MoveCursor.
Proof.
  intros H. apply after_run, run_Commands in H. rewrite H.
  unfold example.booted, construct_command, RegisterCommand. simpl.
  apply lookup_insert_eq.
Qed.

Lemma Save_Load_roundtrip_witness :
  let Loaded :=
    (Job.Load (set_TimeStamp 1742142422507000 new_history_entry)
              (Job.Save sample_entry ∅).2 true true).2 in
  m_UserID Loaded = m_UserID sample_entry
  ∧ m_TimeStamp Loaded = m_TimeStamp sample_entry
  ∧ m_CommandString Loaded = m_CommandString sample_entry
  ∧ m_CacheUndoData Loaded = m_CacheUndoData sample_entry.
Proof.
  apply Save_Load_roundtrip; vm_compute; (reflexivity || (split; congruence)).
Defined.

Lemma Execute_failure_keeps_history_witness :
  let s := booted "x" in
  Execute "Fly -T 1 2" (-1) 1000 s
  = Returns ("Unable find the command: " +:+ getCommandName "Fly -T 1 2", s)
  ∧ ExecuteCmd MoveCursor "Move -T 1 2 -q" (-1) 1000 s
    = Returns ((Cmd.Parse MoveCursor "Move -T 1 2 -q").1, s)
  ∧ ∃ s', Execute "Move -T x 2" (-1) 1000 s
          = Returns ((Cmd.Redo MoveCursor (Cmd.Parse MoveCursor "Move -T x 2").2
                        (DataBase s)).1, s')
          ∧ m_History s' = m_History s
          ∧ m_UndoIndex s' = m_UndoIndex s
          ∧ Heap s' = Heap s
          ∧ m_IOQueue s' = m_IOQueue s
          ∧ m_LRU s' = m_LRU s.
Proof.
  intros s.
  assert (Hdone : m_Done s = false) by reflexivity.
  assert (Hmove : ∀ str, getCommandName str = "Move" →
            m_Commands s !! getCommandName str = Some MoveCursor).
  { intros str ->. apply lookup_insert_eq. }
  split; [|split].
  - refine (proj1 (Execute_failure_keeps_history MoveCursor "Fly -T 1 2" (-1) 1000
                     s Hdone) _).
    vm_compute. reflexivity.
  - refine (proj1 (proj2 (Execute_failure_keeps_history MoveCursor "Move -T 1 2 -q"
                            (-1) 1000 s Hdone) _ (or_introl eq_refl)) _).
    vm_compute. discriminate.
  - refine (proj2 (proj2 (Execute_failure_keeps_history MoveCursor "Move -T x 2"
                            (-1) 1000 s Hdone) _
                         (or_intror (conj (Hmove _ _) eq_refl))) _ _ _).
    + vm_compute. reflexivity.
    + vm_compute. reflexivity.
    + vm_compute. reflexivity.
    + vm_compute. discriminate.
Defined.

Lemma Execute_success_cursor_witness :
  let s := after "" two_undone in
  let run := Execute "Move -T 100 100" (-1) 1000 s in
  let s' := (value_or ("", s) run).2 in
  m_UndoIndex s' = length (m_History s')
  ∧ m_UndoIndex s' = S (m_UndoIndex s)
  ∧ ((length (m_History s) < length (m_History s'))%nat
     ↔ m_UndoIndex s = length (m_History s)).
Proof.
  intros s run s'.
  assert (Hret : returns (session "" two_undone) = true) by (vm_compute; reflexivity).
  assert (Hname : getCommandName "Move -T 100 100" = "Move") by (vm_compute; reflexivity).
  assert (Hhelp : Cmd.hasHelp MoveCursor (Cmd.Parse MoveCursor "Move -T 100 100").2 = false)
    by (vm_compute; reflexivity).
  assert (Hwf : (m_UndoIndex s ≤ length (m_History s))%nat) by (vm_compute; lia).
  assert (Hcmd : m_Commands s !! getCommandName "Move -T 100 100" = Some MoveCursor)
    by (rewrite Hname; exact (after_Move "" two_undone Hret)).
  assert (Hrun : run = Returns ("", s')) by (apply returns_pair; vm_compute; reflexivity).
  pose proof (Execute_success_cursor MoveCursor "Move -T 100 100" (-1) 1000 s s' run
                Hwf (or_intror (conj Hcmd eq_refl)) Hrun) as H.
  rewrite Hhelp in H. exact H.
Defined.

(** C1 as stated fails in two ways.  With the help flag [Execute] returns
    the empty string and records nothing, so the history is no longer than
    before.  And after two undos a successful [Execute] prunes two entries
    and appends one: the history had three entries and has two. *)
Lemma Execute_success_counterexample :
  (∃ s', Execute "Move -h" (-1) 1000 (booted "") = Returns ("", s')
         ∧ ¬ (length (m_History (booted "")) < length (m_History s'))%nat)
  ∧ (∃ s', Execute "Move -T 100 100" (-1) 1000 (after "" two_undone) = Returns ("", s')
           ∧ ¬ (length (m_History (after "" two_undone)) < length (m_History s'))%nat).
Proof.
  split.
  - exists (value_or ("", booted "") (Execute "Move -h" (-1) 1000 (booted ""))).2.
    split; [apply returns_pair; vm_compute; reflexivity | vm_compute; lia].
  - exists (value_or ("", booted "")
              (Execute "Move -T 100 100" (-1) 1000 (after "" two_undone))).2.
    split; [apply returns_pair; vm_compute; reflexivity | vm_compute; lia].
Qed.

Lemma Undo_Redo_lookup_unchecked_witness :
  let s := set_Commands ∅ (after "" (moves 2 ++ [CallUndo])) in
  let e0 := HistoryEntry 1 1000000 "Move -T 0 0"
              (Bytes.le_bytes 4 0 ++ Bytes.le_bytes 4 0) false in
  let e1 := HistoryEntry 1 1000001 "Move -T 1 1"
              (Bytes.le_bytes 4 0 ++ Bytes.le_bytes 4 0) false in
  (m_Commands s !! "Move" = None ∧ Undo s = NullCommand ∧ Redo s = NullCommand)
  ∧ ((Undo s = NullCommand
      ↔ m_Commands s !! getCommandName (m_CommandString e0) = None
        ∧ (cache_empty e0 = false
           ∨ path_empty s = false
             ∧ cache_empty (JobExec.warmup_entry e0 (Files s)) = false))
     ∧ (m_Commands s !! getCommandName (m_CommandString e0) = None →
        Undo s = NullCommand ∨ Undo s = AssertFails))
  ∧ (Redo s = NullCommand
     ↔ m_Commands s !! getCommandName (m_CommandString e1) = None).
Proof.
  intros s e0 e1.
  assert (Hdone : m_Done s = false) by (vm_compute; reflexivity).
  split; [split_and!; vm_compute; reflexivity|].
  split.
  - refine (proj1 (Undo_Redo_lookup_unchecked s Hdone) 0%nat e0 _ _ _);
      vm_compute; (reflexivity || lia).
  - refine (proj2 (Undo_Redo_lookup_unchecked s Hdone) 1%nat e1 _ _);
      vm_compute; reflexivity.
Defined.

(** C9 as stated fails at [i = 1].  In the [UpdateLRU] that ends this
    [Undo], the entry at position [m_UndoIndex + 1 - 1] is in the history
    and its cache is empty when the look-ahead loop starts (the eviction
    loop of the same call has just cleared it), yet no [warmup_cache] job
    is queued for it. *)
Lemma UpdateLRU_look_ahead_counterexample :
  let u := worn_out_update in
  ∃ s', Undo (after "x" worn_out) = UpdateLRU u
        ∧ UpdateLRU u = Returns s'
        ∧ m_History u !! (m_UndoIndex u + 1 - 1)%nat = Some 0%nat
        ∧ m_CacheUndoData <$> Heap (after_eviction u) !! 0%nat = Some []
        ∧ warmup_cache 0 ∉ m_IOQueue s'.
Proof.
  intros u. exists (value_or u (UpdateLRU u)).
  assert (Hret : returns (session "x" worn_out) = true) by (vm_compute; reflexivity).
  split; [|split; [|split; [|split]]].
  - set (e := HistoryEntry 1 1000000 "Move -T 0 0"
                (Bytes.le_bytes 4 0 ++ Bytes.le_bytes 4 0) true).
    assert (Hname : getCommandName (m_CommandString e) = "Move")
      by (vm_compute; reflexivity).
    assert (Hpath : path_empty (after "x" worn_out) = false)
      by (vm_compute; reflexivity).
    rewrite (Undo_resident (after "x" worn_out) 0 0 e MoveCursor (FakeDbase 0 0)).
    + simpl. by rewrite Hpath.
    + vm_compute. reflexivity.
    + vm_compute. reflexivity.
    + vm_compute. reflexivity.
    + vm_compute. reflexivity.
    + vm_compute. reflexivity.
    + rewrite Hname. exact (after_Move "x" worn_out Hret).
    + vm_compute. reflexivity.
  - apply returns_value_or. vm_compute. reflexivity.
  - vm_compute. reflexivity.
  - vm_compute. reflexivity.
  - assert (m_IOQueue (value_or u (UpdateLRU u)) = []) as -> by (vm_compute; reflexivity).
    apply not_elem_of_nil.
Qed.

Lemma UpdateLRU_look_ahead_positions_witness :
  let u := worn_out_two in
  let s' := value_or u (UpdateLRU u) in
  (m_IOQueue s' = m_IOQueue u ++ [warmup_cache 1]
   ∧ m_LRU s' = m_LRU (after_eviction u) ++ [1%nat])
  ∧ warmup_cache 1 ∈ m_IOQueue s' ∧ 1%nat ∈ m_LRU s'.
Proof.
  intros u s'.
  assert (Hupd : UpdateLRU u = Returns s')
    by (apply returns_value_or; vm_compute; reflexivity).
  assert (Hne : m_History u ≠ []) by (vm_compute; discriminate).
  pose proof (UpdateLRU_look_ahead_positions u s' Hupd Hne) as H.
  cbv zeta in H. destruct H as [(Hq & Hl & _) [H _]].
  split.
  - split; [rewrite Hq | rewrite Hl]; f_equal; vm_compute; reflexivity.
  - apply (H 1%nat 1%nat).
    + exists 1%nat. split; [vm_compute; lia | right; vm_compute; reflexivity].
    + split; [vm_compute; reflexivity|].
      exists (HistoryEntry 1 1000001 "Move -T 1 1" [] true).
      split; vm_compute; reflexivity.
Defined.

Lemma LRU_list_bounded_witness :
  let u := worn_out_two in
  let u' := value_or u (UpdateLRU u) in
  let s := after "x" fifty_unsaved in
  let s' := value_or s (perform CallUndo s) in
  (length (m_LRU (after_eviction u))
   ≤ m_MaxCachedSteps u - m_LookAheadSteps u * 2 - 1)%nat
  ∧ (length (m_LRU u') < m_MaxCachedSteps u)%nat
  ∧ m_MaxCachedSteps u' = m_MaxCachedSteps u
  ∧ LRU_bounded s'.
Proof.
  intros u u' s s'.
  apply (LRU_list_bounded u u' CallUndo s s').
  - apply returns_value_or. vm_compute. reflexivity.
  - vm_compute. discriminate.
  - apply returns_value_or. vm_compute. reflexivity.
  - unfold LRU_bounded. vm_compute. lia.
Defined.

(** C7 as stated fails on its last part: after fifty moves in memory (where
    nothing is ever evicted), and after fifty moves on disk that no worker
    has saved yet (eviction skips unsaved entries), all fifty entries have a
    non-empty cache, while [m_MaxCachedSteps] is fifty. *)
Lemma LRU_list_bounded_counterexample :
  (returns (session "" (moves 50)) = true
   ∧ ¬ (length (resident (after "" (moves 50)))
        < m_MaxCachedSteps (after "" (moves 50)))%nat)
  ∧ (returns (session "x" fifty_unsaved) = true
     ∧ ¬ (length (resident (after "x" fifty_unsaved))
          < m_MaxCachedSteps (after "x" fifty_unsaved))%nat).
Proof.
  repeat split; try (vm_compute; reflexivity); vm_compute; lia.
Qed.

(** C5, the files of the removed entries.  The first worker pops the
    [save_to_disk] job of entry 0 and is still holding it when the owner
    calls [Undo] and then [Execute]: the cursor is at 0 below a history of
    one entry, so [Execute] removes entry 0 (timestamp 1000000) from the
    history and queues [delete_entries] with that timestamp.  The other
    workers execute that job and the save of the new entry; the first
    worker then executes the job it holds.  No job is queued or held any
    more, the history holds the new entry only, and the file of the removed
    entry is on disk: nothing will remove it. *)
Theorem pruned_entry_file_left :
  let before := after "x" (take 3 slow_save) in
  let pruned := after "x" (take 4 slow_save) in
  let s := after "x" slow_save in
  returns (session "x" slow_save) = true
  ∧ Held before = [save_to_disk 0]
  ∧ (m_UndoIndex before < length (m_History before))%nat
  ∧ drop (m_UndoIndex before) (m_History before) = [0%nat]
  ∧ m_TimeStamp <$> Heap before !! 0%nat = Some 1000000
  ∧ m_History pruned = [1%nat]
  ∧ m_IOQueue pruned = [delete_entries [1000000]; save_to_disk 1]
  ∧ Held pruned = [save_to_disk 0]
  ∧ Files (after "x" (take 6 slow_save)) !! 1000000 = None
  ∧ m_IOQueue s = [] ∧ Held s = []
  ∧ m_History s = [1%nat]
  ∧ m_TimeStamp <$> Heap s !! 1%nat = Some 1000001
  ∧ is_Some (Files s !! 1000000).
Proof.
  intros before pruned s.
  split_and!;
    first [ vm_compute; reflexivity | vm_compute; lia
          | vm_compute; eexists; reflexivity ].
Qed.

Lemma Execute_prunes_redo_tail_witness :
  let s := after "x" diverging in
  let run := Execute "Move -T 100 100" (-1) 1000 s in
  let s' := (value_or ("", s) run).2 in
  let removed := drop (m_UndoIndex s) (m_History s) in
  let new := length (Heap s) in
  let stamp := Bytes.u64 (1000 * 1000 + m_CommandCounter s) in
  (removed = [3; 4]%nat ∧ m_IOQueue s = save_to_disk <$> seq 0 5)
  ∧ m_History s' = take (m_UndoIndex s) (m_History s) ++ [new]
  ∧ m_TimeStamp <$> Heap s' !! new = Some stamp
  ∧ (path_empty s = false →
     ∃ TimeStamps warmups,
       stamps_of (Heap s) removed TimeStamps
       ∧ m_IOQueue s' = m_IOQueue s
                        ++ [delete_entries TimeStamps; save_to_disk new]
                        ++ (warmup_cache <$> warmups)).
Proof.
  intros s run s'.
  assert (Hret : returns (session "x" diverging) = true) by (vm_compute; reflexivity).
  assert (Hname : getCommandName "Move -T 100 100" = "Move") by (vm_compute; reflexivity).
  assert (Hcmd : m_Commands s !! getCommandName "Move -T 100 100" = Some MoveCursor)
    by (rewrite Hname; exact (after_Move "x" diverging Hret)).
  assert (Hrun : run = Returns ("", s')) by (apply returns_pair; vm_compute; reflexivity).
  assert (Hhelp : Cmd.hasHelp MoveCursor (Cmd.Parse MoveCursor "Move -T 100 100").2 = false)
    by (vm_compute; reflexivity).
  assert (Hlt : (m_UndoIndex s < length (m_History s))%nat) by (vm_compute; lia).
  split; [split; vm_compute; reflexivity|].
  exact (Execute_prunes_redo_tail MoveCursor "Move -T 100 100" (-1) 1000 s s' run
           (or_intror (conj Hcmd eq_refl)) Hrun Hhelp Hlt).
Defined.




Lemma Undo_then_Redo_witness :
  let s := after "x" undone_from_disk in
  ∃ s1 s2,
    Undo s = Returns s1 ∧ m_UndoIndex s1 = 1%nat ∧ DataBase s1 = FakeDbase 0 0
    ∧ Redo s1 = Returns s2 ∧ m_UndoIndex s2 = m_UndoIndex s
    ∧ DataBase s2 = FakeDbase 1 1
    ∧ m_History s2 = m_History s.
Proof.
  intros s.
  set (e := HistoryEntry 1 1000001 "Move -T 1 1" [] true).
  set (P := Bytes.le_bytes 4 0 ++ Bytes.le_bytes 4 0).
  assert (Hret : returns (session "x" undone_from_disk) = true)
    by (vm_compute; reflexivity).
  assert (Hdone : m_Done s = false) by (vm_compute; reflexivity).
  assert (Hwf : well_formed s).
  { unfold well_formed.
    assert (m_History s = [0; 1]%nat) as -> by (vm_compute; reflexivity).
    assert (length (Heap s) = 2%nat) as -> by (vm_compute; reflexivity).
    split_and!.
    - repeat (apply List.Forall_cons; [lia|]). apply List.Forall_nil.
    - vm_compute. lia.
    - intros _. vm_compute. lia. }
  assert (Hidx : m_UndoIndex s = 2%nat) by (vm_compute; reflexivity).
  assert (Hr : m_History s !! 1%nat = Some 1%nat) by (vm_compute; reflexivity).
  assert (He : Heap s !! 1%nat = Some e) by (vm_compute; reflexivity).
  assert (Hname : getCommandName (m_CommandString e) = "Move")
    by (vm_compute; reflexivity).
  assert (Hcmd : m_Commands s !! getCommandName (m_CommandString e) = Some MoveCursor)
    by (rewrite Hname; exact (after_Move "x" undone_from_disk Hret)).
  assert (Hrec : recorded MoveCursor e P (FakeDbase 0 0) (FakeDbase 1 1)).
  { exists (Cmd.Parse MoveCursor "Move -T 1 1").2.
    split_and!; vm_compute; reflexivity. }
  assert (Hrest : restores MoveCursor P (FakeDbase 0 0))
    by (intros d; vm_compute; reflexivity).
  assert (Hhand : at_hand s e P).
  { split; [vm_compute; discriminate|]. right.
    split_and!; vm_compute; reflexivity. }
  exact (Undo_then_Redo s 1 1 e MoveCursor P (FakeDbase 0 0) (FakeDbase 1 1)
           Hdone Hwf Hidx Hr He Hcmd Hrec Hrest Hhand).
Defined.

Lemma MoveCursor_backs_up : backs_up MoveCursor.
Proof.
  intros p d H. apply (f_equal length) in H. revert H.
  unfold example.MoveCursor, example.BackupCurrenState, File.Write. simpl.
  discriminate.
Qed.

Lemma sessions_untyped (n m : nat) :
  Forall (λ c, ∀ (Cmd : command_base parser fake_dbase) cmd_str UserID now_ms,
            c = CallExecuteCmd Cmd cmd_str UserID now_ms → backs_up Cmd)
         (moves n ++ undo_redo m).
Proof.
  assert (Hw : ∀ c, c ∈ example.workers → c = WorkerStep)
    by (intros c Hc; by apply elem_of_replicate in Hc as [-> _]).
  apply Forall_forall. intros c Hc Cmd cmd_str UserID now_ms ->.
  apply elem_of_app in Hc as [Hc | Hc]; apply list_elem_of_bind in Hc as (k & Hc & _).
  - apply elem_of_cons in Hc as [Hc | Hc]; [discriminate|].
    apply Hw in Hc. discriminate.
  - apply elem_of_app in Hc as [Hc | Hc];
      (apply elem_of_cons in Hc as [Hc | Hc]; [discriminate|]);
      apply Hw in Hc; discriminate.
Qed.

(** Fifty moves on disk with no worker step in between: no entry has been
    saved, the eviction loop has run on the first ones, and every cache
    still holds its eight bytes. *)
Lemma unsaved_entries_keep_cache_witness :
  let s' := after "x" fifty_unsaved in
  (m_bHasBeenSaved <$> Heap s' = replicate 50 false
   ∧ length <$> (m_CacheUndoData <$> Heap s') = replicate 50 8%nat)
  ∧ (∀ pos r e, m_History s' !! pos = Some r → Heap s' !! r = Some e →
                m_bHasBeenSaved e = false → m_CacheUndoData e ≠ [])
  ∧ (∀ r e, Heap s' !! r = Some e → m_bHasBeenSaved e = false → m_CacheUndoData e ≠ [])
  ∧ (∀ n r e, Heap s' !! r = Some e → m_bHasBeenSaved e = false →
              (evict n (m_LRU s') (Heap s')).2 !! r = Some e).
Proof.
  intros s'.
  assert (Hret : returns (session "x" fifty_unsaved) = true)
    by (vm_compute; reflexivity).
  assert (Hreg : ∀ name Cmd, m_Commands (booted "x") !! name = Some Cmd → backs_up Cmd).
  { intros name Cmd H.
    unfold example.booted, construct_command, RegisterCommand in H. simpl in H.
    apply lookup_insert_Some in H as [[_ <-] | [_ H]];
      [exact MoveCursor_backs_up | by rewrite lookup_empty in H]. }
  assert (Hnew : unsaved_resident (booted "x")) by apply Forall_nil_2.
  assert (Hcalls : Forall (λ c, ∀ (Cmd : command_base parser fake_dbase)
                                  cmd_str UserID now_ms,
                             c = CallExecuteCmd Cmd cmd_str UserID now_ms → backs_up Cmd)
                          fifty_unsaved).
  { apply Forall_fmap, Forall_forall. intros k _ Cmd cmd_str UserID now_ms H.
    discriminate H. }
  split; [split; vm_compute; reflexivity|].
  exact (unsaved_entries_keep_cache fifty_unsaved (booted "x") s'
           Hreg Hcalls Hnew (after_run "x" fifty_unsaved Hret)).
Defined.

(** C6 as stated fails for a command whose backup writes nothing: the
    entry [Execute] records for it has not been saved and its cache is
    empty. *)
Lemma unsaved_entries_counterexample :
  ∃ s', Execute "Blank" (-1) 1000 blank_engine = Returns ("", s')
        ∧ m_History s' = [0%nat]
        ∧ Heap s' = [HistoryEntry 1 1000000 "Blank" [] false].
Proof.
  exists (value_or ("", blank_engine) (Execute "Blank" (-1) 1000 blank_engine)).2.
  split; [apply returns_pair; vm_compute; reflexivity|].
  split; vm_compute; reflexivity.
Qed.

(** *** The contract of [MoveCursor] *)

Lemma MoveCursor_backup p (d : fake_dbase) :
  backup_of MoveCursor p d
  = Bytes.le_bytes 4 (Bytes.u32 (example.m_X d))
    ++ Bytes.le_bytes 4 (Bytes.u32 (example.m_Y d)).
Proof.
  unfold backup_of. change (Cmd.BackupCurrenState MoveCursor) with example.BackupCurrenState.
  unfold example.BackupCurrenState, File.Write.
  cbn [m_Cache m_Index]. change (Z.to_nat 0) with 0%nat.
  cbn [take drop]. by rewrite app_nil_l, app_nil_r.
Qed.

Lemma MoveCursor_Undo_backup p (d d' : fake_dbase) :
  example.holds_int d →
  example.Undo (UndoFile (backup_of MoveCursor p d) 0) d' = Some d.
Proof.
  intros [HX HY]. rewrite MoveCursor_backup.
  set (bx := Bytes.le_bytes 4 (Bytes.u32 (example.m_X d))).
  set (by_ := Bytes.le_bytes 4 (Bytes.u32 (example.m_Y d))).
  assert (Hbx : length bx = 4%nat) by apply length_le_bytes.
  assert (Hby : length by_ = 4%nat) by apply length_le_bytes.
  assert (Hl : length (bx ++ by_) = 8%nat) by (by rewrite length_app, Hbx, Hby).
  unfold example.Undo, File.Read. cbn [m_Cache m_Index]. rewrite Hl.
  rewrite bool_decide_eq_true_2 by lia.
  cbn [mbind option_bind]. change (Z.to_nat 0) with 0%nat. rewrite drop_0.
  rewrite (take_ge (bx ++ by_) 8) by (rewrite Hl; lia).
  rewrite <- Hbx. rewrite take_app_length, drop_app_length.
  unfold bx, by_. rewrite !le_value_le_bytes. change (256 ^ Z.of_nat 4) with (2 ^ 32).
  unfold Bytes.u32. rewrite !Z.mod_mod by lia.
  fold (Bytes.u32 (example.m_X d)). fold (Bytes.u32 (example.m_Y d)).
  rewrite !to_int32_u32 by done. by destruct d.
Qed.

Lemma MoveCursor_contract : contract example.holds_int MoveCursor.
Proof.
  intros p d Hd.
  split_and!.
  - rewrite MoveCursor_backup. intros E. apply (f_equal length) in E.
    rewrite length_app, !length_le_bytes in E. done.
  - rewrite MoveCursor_backup, length_app, !length_le_bytes. simpl. lia.
  - intros d'. by apply MoveCursor_Undo_backup.
  - change (Cmd.Redo MoveCursor) with example.Redo. unfold example.Redo.
    destruct (example.opt_T p) as [[|sx [|sy [|? ?]]]|]; try done.
    destruct (example.getOptionArgAs_int64 sx), (example.getOptionArgAs_int64 sy);
      try done.
    split; apply to_int32_range.
Qed.

(** The calls of these sessions are dispatch-form [Execute]s at the clock
    reading 1000, [Undo], [Redo] and worker steps. *)
Lemma sessions_at_1000 (s0 : sys) (n m : nat) :
  Forall (λ c, session_call s0 c ∧ ∀ now_ms, clock_of c = Some now_ms → now_ms = 1000)
         (moves n ++ undo_redo m).
Proof.
  assert (Hw : ∀ c, c ∈ example.workers → c = WorkerStep)
    by (intros c Hc; by apply elem_of_replicate in Hc as [-> _]).
  apply Forall_forall. intros c Hc.
  apply elem_of_app in Hc as [Hc | Hc]; apply list_elem_of_bind in Hc as (k & Hc & _).
  - apply elem_of_cons in Hc as [-> | Hc]; [by split; [|intros ? [= <-]]|].
    apply Hw in Hc as ->. by split.
  - apply elem_of_app in Hc as [Hc | Hc];
      (apply elem_of_cons in Hc as [-> | Hc]; [by split|]);
      apply Hw in Hc as ->; by split.
Qed.





Lemma booted_registry (UndoPath : string) name Cmd :
  m_Commands (booted UndoPath) !! name = Some Cmd → contract example.holds_int Cmd.
Proof.
  intros H. unfold example.booted, construct_command, RegisterCommand in H. simpl in H.
  apply lookup_insert_Some in H as [[_ <-] | [_ H]];
    [exact MoveCursor_contract | by rewrite lookup_empty in H].
Qed.

Lemma booted_fresh (UndoPath : string) : fresh (booted UndoPath).
Proof.
  unfold fresh. do 5 (split; [reflexivity|]).
  split; [vm_compute; discriminate | intros _; vm_compute; lia].
Qed.

(** The sessions of two moves and twenty rounds of undo and redo, on disk. *)
Lemma undone_from_disk_session :
  session_of example.holds_int (booted "x") 1000 undone_from_disk.
Proof.
  pose proof (sessions_at_1000 (booted "x") 2 20) as Hall.
  assert (Hlen : length undone_from_disk = 546%nat) by (vm_compute; reflexivity).
  split; [apply booted_fresh|].
  split; [split; vm_compute; (split; [discriminate | reflexivity])|].
  split; [apply booted_registry|].
  split; [eapply Forall_impl; [exact Hall|]; by intros c [? _]|].
  split.
  - apply clock_steady_same. eapply Forall_impl; [exact Hall|]. by intros c [_ ?].
  - rewrite Hlen. eapply Forall_impl; [exact Hall|].
    intros c [_ H] now_ms Hnow. rewrite (H now_ms Hnow). vm_compute.
    split; [discriminate | reflexivity].
Qed.



Lemma session_files_apart_witness :
  let s := after "x" undone_from_disk in
  (∀ r1 r2 e1 e2, Heap s !! r1 = Some e1 → Heap s !! r2 = Some e2 →
                  m_TimeStamp e1 = m_TimeStamp e2 → r1 = r2)
  ∧ (∀ TimeStamps k r e, delete_entries TimeStamps ∈ m_IOQueue s →
       m_History s !! k = Some r → Heap s !! r = Some e →
       m_TimeStamp e ∉ TimeStamps).
Proof.
  intros s.
  assert (Hret : returns (session "x" undone_from_disk) = true)
    by (vm_compute; reflexivity).
  exact (session_files_apart example.holds_int (booted "x") 1000 undone_from_disk s
           undone_from_disk_session (after_run "x" undone_from_disk Hret)).
Defined.

Lemma Execute_then_Undo_witness :
  let s := after "x" two_undone in
  let run := Execute "Move -T 7 9" (-1) 1000 s in
  let s' := (value_or ("", s) run).2 in
  ∃ s'', Undo s' = Returns s''
         ∧ DataBase s'' = DataBase s
         ∧ m_UndoIndex s'' = m_UndoIndex s
         ∧ m_History s'' = m_History s'
         ∧ m_History s' !! m_UndoIndex s = Some (length (Heap s)).
Proof.
  intros s run s'.
  assert (Hret : returns (session "x" two_undone) = true) by (vm_compute; reflexivity).
  assert (Hname : getCommandName "Move -T 7 9" = "Move") by (vm_compute; reflexivity).
  assert (Hcmd : m_Commands s !! getCommandName "Move -T 7 9" = Some MoveCursor)
    by (rewrite Hname; exact (after_Move "x" two_undone Hret)).
  assert (Hwf : well_formed s).
  { unfold well_formed.
    assert (m_History s = [0; 1; 2]%nat) as -> by (vm_compute; reflexivity).
    assert (length (Heap s) = 3%nat) as -> by (vm_compute; reflexivity).
    split_and!.
    - repeat (apply List.Forall_cons; [lia|]). apply List.Forall_nil.
    - vm_compute. lia.
    - intros _. vm_compute. lia. }
  assert (Hrun : run = Returns ("", s')) by (apply returns_pair; vm_compute; reflexivity).
  assert (Hhelp : Cmd.hasHelp MoveCursor (Cmd.Parse MoveCursor "Move -T 7 9").2 = false)
    by (vm_compute; reflexivity).
  assert (HP : backup_of MoveCursor (Cmd.Parse MoveCursor "Move -T 7 9").2 (DataBase s) ≠ [])
    by (vm_compute; discriminate).
  assert (Hint : example.holds_int (DataBase s))
    by (split; vm_compute; (split; [discriminate | reflexivity])).
  exact (Execute_then_Undo MoveCursor "Move -T 7 9" (-1) 1000 s s' run Hwf
           (or_intror (conj Hcmd eq_refl)) Hrun Hcmd Hhelp HP
           (λ d', MoveCursor_Undo_backup _ (DataBase s) d' Hint)).
Defined.


(** *** The leaves on concrete data *)

Lemma Write_then_Read_witness :
  let pData := [x07; x09] in
  let File := UndoFile [x01; x02; x03] 1 in
  let Written := File.Write pData File in
  File.Read (length pData) (UndoFile (m_Cache Written) (m_Index File))
    = Some (pData, Written)
  ∧ length (m_Cache Written) = (length (m_Cache File) + length pData)%nat
  ∧ m_Index Written = m_Index File + Z.of_nat (length pData).
Proof.
  intros pData File.
  assert (H1 : 0 <= m_Index File <= Z.of_nat (length (m_Cache File)))
    by (vm_compute; split; discriminate).
  assert (H2 : m_Index File + Z.of_nat (length pData) < 2 ^ 32)
    by (vm_compute; reflexivity).
  exact (Write_then_Read pData File H1 H2).
Defined.

Lemma save_to_disk_marks_witness :
  let e := example.sample_entry in
  (JobExec.save_entry e ∅).1
  = set_bHasBeenSaved
      (bool_decide (m_CacheUndoData e ≠ [] ∧ m_CommandString e ≠ "")) e
  ∧ (JobExec.save_entry e ∅).2 = <[m_TimeStamp e := (Job.Save_file e).2]> ∅.
Proof.
  intros e.
  assert (H1 : m_bHasBeenSaved e = false) by reflexivity.
  assert (H2 : Z.of_nat (length (m_CacheUndoData e)) < 2 ^ 32)
    by (vm_compute; reflexivity).
  assert (H3 : Z.of_nat (String.length (m_CommandString e)) < 2 ^ 32)
    by (vm_compute; reflexivity).
  exact (save_to_disk_marks e ∅ H1 H2 H3).
Defined.

Lemma load_entries_of_Save_witness :
  let Entry := example.sample_entry in
  let Target := placeholder 1742142422507000 in
  JobExec.load_entry Target (Job.Save Entry ∅).2
  = HistoryEntry (m_UserID Entry) (m_TimeStamp Entry) (m_CommandString Entry)
      (m_CacheUndoData Target) (m_bHasBeenSaved Target).
Proof.
  intros Entry Target.
  assert (H1 : Z.of_nat (length (m_CacheUndoData Entry)) < 2 ^ 32)
    by (vm_compute; reflexivity).
  assert (H2 : Z.of_nat (String.length (m_CommandString Entry)) < 2 ^ 32)
    by (vm_compute; reflexivity).
  assert (H3 : - 2 ^ 31 <= m_UserID Entry < 2 ^ 31)
    by (vm_compute; split; [discriminate | reflexivity]).
  assert (H4 : 0 <= m_TimeStamp Entry < 2 ^ 64)
    by (vm_compute; split; [discriminate | reflexivity]).
  assert (H5 : m_TimeStamp Target = m_TimeStamp Entry) by reflexivity.
  exact (load_entries_of_Save Entry Target ∅ H1 H2 H3 H4 H5).
Defined.

Lemma warmup_cache_restores_witness :
  let e := set_bHasBeenSaved true example.sample_entry in
  let files : disk := <[m_TimeStamp e := (Job.Save_file e).2]> ∅ in
  JobExec.warmup_entry (set_CacheUndoData [] e) files = e.
Proof.
  intros e files.
  assert (H1 : Z.of_nat (length (m_CacheUndoData e)) < 2 ^ 32)
    by (vm_compute; reflexivity).
  assert (H2 : files !! m_TimeStamp e = Some (Job.Save_file e).2)
    by apply lookup_insert_eq.
  exact (warmup_cache_restores e files H1 H2).
Defined.

(** One move on disk, its jobs still queued. *)
Lemma Undo_Redo_leave_disk_witness :
  let s := after "x" two_undone in
  let s' := value_or s (Undo s) in
  m_History s' = m_History s
  ∧ Files s' = Files s ∧ IndexFiles s' = IndexFiles s
  ∧ ident <$> Heap s' = ident <$> Heap s
  ∧ m_CommandCounter s' = m_CommandCounter s
  ∧ (m_UndoIndex s' ≤ S (m_UndoIndex s))%nat ∧ (m_UndoIndex s ≤ S (m_UndoIndex s'))%nat.
Proof.
  intros s s'.
  assert (Hret : returns (Undo s) = true) by (vm_compute; reflexivity).
  exact (Undo_Redo_leave_disk s s' (or_introl (returns_value_or s (Undo s) Hret))).
Defined.

Lemma cursor_within_history_witness :
  let s' := after "x" two_undone in
  (m_UndoIndex s' ≤ length (m_History s'))%nat.
Proof.
  intros s'.
  assert (Hret : returns (session "x" two_undone) = true) by (vm_compute; reflexivity).
  assert (H0 : (m_UndoIndex (booted "x") ≤ length (m_History (booted "x")))%nat)
    by (vm_compute; lia).
  exact (cursor_within_history two_undone (booted "x") s' H0 (after_run "x" two_undone Hret)).
Defined.







(** *** The barrier, the index file and the restart *)

Lemma SynJobQueue_returns_witness :
  let s := after "x" [move_call 0%nat; move_call 1%nat] in
  let ws := [pops] in
  (m_IOQueue s = [save_to_disk 0; save_to_disk 1])
  ∧ m_IOQueue (SynJobQueue ws s) = []
  ∧ m_History (SynJobQueue ws s) = m_History s
  ∧ m_UndoIndex (SynJobQueue ws s) = m_UndoIndex s
  ∧ m_LRU (SynJobQueue ws s) = m_LRU s
  ∧ DataBase (SynJobQueue ws s) = DataBase s
  ∧ IndexFiles (SynJobQueue ws s) = IndexFiles s
  ∧ (∀ Job rest, m_IOQueue s = Job :: rest →
       let slow := pops :: concat (replicate (length rest)
                                     [pops; finishes (S (length (Held s)))]) in
       m_IOQueue (works slow s) = []
       ∧ SynJobQueue slow s = works slow s
       ∧ Held (SynJobQueue slow s) = Held s ++ [Job]
       ∧ (Heap (SynJobQueue slow s), Files (SynJobQueue slow s))
         = run_jobs rest (Heap s) (Files s)).
Proof.
  intros s ws.
  assert (Hpath : path_empty s = false) by (vm_compute; reflexivity).
  split; [vm_compute; reflexivity|].
  exact (SynJobQueue_returns ws s Hpath).
Defined.











Lemma SaveTimestamps_unwritable_witness :
  let s := set_WriteErrors {["x/UndoTimestamps.bin" := "Permission denied"]}
             (after "x" [move_call 0%nat]) in
  SaveTimestamps "" s = Returns ("Error saving timestamps: Permission denied", s).
Proof.
  intros s.
  assert (Hdone : m_Done s = false) by (vm_compute; reflexivity).
  assert (Hpath : path_empty s = false) by (vm_compute; reflexivity).
  assert (Hw : WriteErrors s !! timestamps_path "" s = Some "Permission denied")
    by (vm_compute; reflexivity).
  exact (SaveTimestamps_unwritable "" s "Permission denied" Hdone Hpath Hw).
Defined.




End Concrete.
